(** * Cosmic Canvas 3D: galaxy generation and the disintegration animation

    A shallow embedding of [galaxyUtils.ts] (parameter generator and geometry
    builder) and of [ThreeScene.tsx] (frame loop; speed, spread, generation
    and trigger effects; cleanup), with the properties the specification
    states about them and further properties of the code.

    Numbers are JavaScript numbers with exact arithmetic on the finite values:
    a finite value is a real, and the three special values behave as IEEE 754
    prescribes ([0/0] is [NaN], a comparison with [NaN] is false, ...).  Rounding,
    overflow and the sign of zero are not modelled.  [Math.random] answers from
    a stream of draws that is an argument of every computation. *)

From Stdlib Require Import Reals Lra Lia ZArith List Bool Zfloor.
From stdpp Require Import base list.
Open Scope R_scope.

(** ** JavaScript numbers *)

Module JS.

Inductive num : Type :=
| Fin (r : R)
| PInf
| NInf
| NaN.

Definition Rltb (a b : R) : bool := if Rlt_dec a b then true else false.
Definition Rleb (a b : R) : bool := if Rle_dec a b then true else false.
Definition Reqb (a b : R) : bool := if Req_dec_T a b then true else false.

Definition is_finite (a : num) : bool :=
  match a with Fin _ => true | _ => false end.

Definition neg (a : num) : num :=
  match a with
  | Fin r => Fin (- r)
  | PInf => NInf
  | NInf => PInf
  | NaN => NaN
  end.

Definition add (a b : num) : num :=
  match a, b with
  | NaN, _ | _, NaN => NaN
  | Fin x, Fin y => Fin (x + y)
  | Fin _, i => i
  | i, Fin _ => i
  | PInf, PInf => PInf
  | NInf, NInf => NInf
  | PInf, NInf | NInf, PInf => NaN
  end.

Definition sub (a b : num) : num := add a (neg b).

(** An infinity times a finite [x]: [NaN] at zero, else the sign rule. *)
Definition scale_inf (i : num) (x : R) : num :=
  if Reqb x 0 then NaN else if Rltb x 0 then neg i else i.

Definition mul (a b : num) : num :=
  match a, b with
  | NaN, _ | _, NaN => NaN
  | Fin x, Fin y => Fin (x * y)
  | Fin x, i => scale_inf i x
  | i, Fin x => scale_inf i x
  | PInf, PInf | NInf, NInf => PInf
  | PInf, NInf | NInf, PInf => NInf
  end.

Definition div (a b : num) : num :=
  match a, b with
  | NaN, _ | _, NaN => NaN
  | Fin x, Fin y =>
      if Reqb y 0
      then (if Reqb x 0 then NaN else if Rltb x 0 then NInf else PInf)
      else Fin (x / y)
  | Fin _, _ => Fin 0
  | i, Fin y => if Rltb y 0 then neg i else i
  | _, _ => NaN
  end.

Definition lt (a b : num) : bool :=
  match a, b with
  | NaN, _ | _, NaN => false
  | Fin x, Fin y => Rltb x y
  | Fin _, PInf => true
  | Fin _, NInf => false
  | PInf, _ => false
  | NInf, NInf => false
  | NInf, _ => true
  end.

Definition le (a b : num) : bool :=
  match a, b with
  | NaN, _ | _, NaN => false
  | Fin x, Fin y => Rleb x y
  | Fin _, PInf => true
  | Fin _, NInf => false
  | PInf, PInf => true
  | PInf, _ => false
  | NInf, _ => true
  end.

Definition gt (a b : num) : bool := lt b a.
Definition ge (a b : num) : bool := le b a.

(** [a === b] on numbers. *)
Definition eqb (a b : num) : bool :=
  match a, b with
  | Fin x, Fin y => Reqb x y
  | PInf, PInf | NInf, NInf => true
  | _, _ => false
  end.

(** Truncation toward zero. *)
Definition Ztrunc (r : R) : Z := if Rltb r 0 then Zceil r else Zfloor r.

(** [a % b]: the remainder has the sign of the dividend. *)
Definition rem (a b : num) : num :=
  match a, b with
  | Fin x, Fin y => if Reqb y 0 then NaN else Fin (x - y * IZR (Ztrunc (x / y)))
  | Fin x, PInf | Fin x, NInf => Fin x
  | _, _ => NaN
  end.

End JS.

Export JS (num, Fin, PInf, NInf, NaN).
Coercion JS.Fin : R >-> JS.num.

Declare Scope num_scope.
Delimit Scope num_scope with js.
Bind Scope num_scope with JS.num.
Infix "+" := JS.add : num_scope.
Infix "-" := JS.sub : num_scope.
Infix "*" := JS.mul : num_scope.
Infix "/" := JS.div : num_scope.
Infix "<?" := JS.lt : num_scope.
Infix "<=?" := JS.le : num_scope.
Infix ">?" := JS.gt : num_scope.
Infix ">=?" := JS.ge : num_scope.
Infix "===" := JS.eqb (at level 70, no associativity) : num_scope.
Infix "%%" := JS.rem (at level 40, left associativity) : num_scope.

(** ** The [Math] object *)

Module Math.
Import JS.

Definition PI : num := Fin Rtrigo1.PI.

Definition min (a b : num) : num :=
  match a, b with
  | NaN, _ | _, NaN => NaN
  | _, _ => if lt b a then b else a
  end.

Definition max (a b : num) : num :=
  match a, b with
  | NaN, _ | _, NaN => NaN
  | _, _ => if lt a b then b else a
  end.

Definition floor (a : num) : num :=
  match a with
  | Fin r => Fin (IZR (Zfloor r))
  | other => other
  end.

Definition sqrt (a : num) : num :=
  match a with
  | Fin r => if Rltb r 0 then NaN else Fin (R_sqrt.sqrt r)
  | PInf => PInf
  | _ => NaN
  end.

Definition sin (a : num) : num :=
  match a with Fin r => Fin (Rtrigo_def.sin r) | _ => NaN end.

Definition cos (a : num) : num :=
  match a with Fin r => Fin (Rtrigo_def.cos r) | _ => NaN end.

Definition acos (a : num) : num :=
  match a with
  | Fin r => if Rleb (-1) r && Rleb r 1 then Fin (Ratan.acos r) else NaN
  | _ => NaN
  end.

(** An integral real, as an integer. *)
Definition integral (r : R) : bool := Reqb (IZR (Zfloor r)) r.

(** [Math.pow] at finite arguments, the exponent not zero. *)
Definition pow_fin (x y : R) : num :=
  if Rltb 0 x then Fin (Rpower x y)
  else if Reqb x 0 then (if Rltb 0 y then Fin 0 else PInf)
  else if integral y then Fin (powerRZ x (Zfloor y))
  else NaN.

Definition pow (a b : num) : num :=
  match b with
  | NaN => NaN
  | Fin y =>
      if Reqb y 0 then Fin 1
      else match a with
           | NaN => NaN
           | Fin x => pow_fin x y
           | PInf => if Rltb 0 y then PInf else Fin 0
           | NInf =>
               if Rltb 0 y
               then (if integral y && Z.odd (Zfloor y) then NInf else PInf)
               else Fin 0
           end
  | PInf =>
      match a with
      | Fin x =>
          if Rltb 1 (Rabs x) then PInf
          else if Reqb (Rabs x) 1 then NaN else Fin 0
      | PInf | NInf => PInf
      | NaN => NaN
      end
  | NInf =>
      match a with
      | Fin x =>
          if Rltb 1 (Rabs x) then Fin 0
          else if Reqb (Rabs x) 1 then NaN else PInf
      | PInf | NInf => Fin 0
      | NaN => NaN
      end
  end.

End Math.

(** ** The part of three.js the program uses

    Objects are records; a method that mutates its receiver becomes a function
    that returns the new value.  [Vector3.clone] and [Color.copy] make fresh
    values, so a clone is the value itself. *)

Module THREE.
Import JS.
Local Open Scope num_scope.

Module Vector3.
Record t : Type := mk { x : num; y : num; z : num }.

(** [v.set(a, b, c)] *)
Definition set (a b c : num) : t := mk a b c.

(** [this.lerpVectors(v1, v2, alpha)] *)
Definition lerpVectors (v1 v2 : t) (alpha : num) : t :=
  mk (x v1 + (x v2 - x v1) * alpha)
     (y v1 + (y v2 - y v1) * alpha)
     (z v1 + (z v2 - z v1) * alpha).
End Vector3.

Module Euler.
Record t : Type := mk { x : num; y : num; z : num }.
Definition set (a b c : num) : t := mk a b c.
Definition set_y (v : num) (e : t) : t := mk (x e) v (z e).
End Euler.

Module Color.
Record t : Type := mk { r : num; g : num; b : num }.

(** [new THREE.Color()] is white. *)
Definition white : t := mk 1 1 1.

Definition clamp (value lo hi : num) : num := Math.max lo (Math.min hi value).

(** [MathUtils.euclideanModulo] *)
Definition euclideanModulo (n m : num) : num := ((n %% m) + m) %% m.

Definition hue2rgb (p q t0 : num) : num :=
  let t1 := if t0 <? 0 then t0 + 1 else t0 in
  let t2 := if t1 >? 1 then t1 - 1 else t1 in
  if t2 <? 1 / 6 then p + (q - p) * 6 * t2
  else if t2 <? 1 / 2 then q
  else if t2 <? 2 / 3 then p + (q - p) * 6 * (2 / 3 - t2)
  else p.

Definition setHSL (h0 s0 l0 : num) : t :=
  let h := euclideanModulo h0 1 in
  let s := clamp s0 0 1 in
  let l := clamp l0 0 1 in
  if s === 0 then mk l l l
  else
    let p := if l <=? 0.5 then l * (1 + s) else l + s - (l * s) in
    let q := (2 * l) - p in
    mk (hue2rgb q p (h + 1 / 3)) (hue2rgb q p h) (hue2rgb q p (h - 1 / 3)).

Record HSL : Type := mkHSL { h : num; s : num; l : num }.

Definition getHSL (c : t) : HSL :=
  let max := Math.max (Math.max (r c) (g c)) (b c) in
  let min := Math.min (Math.min (r c) (g c)) (b c) in
  let lightness := (min + max) / 2 in
  if min === max then mkHSL 0 0 lightness
  else
    let delta := max - min in
    let saturation :=
      if lightness <=? 0.5 then delta / (max + min) else delta / (2 - max - min) in
    let hue :=
      if max === r c then (g c - b c) / delta + (if g c <? b c then 6 else 0)
      else if max === g c then (b c - r c) / delta + 2
      else (r c - g c) / delta + 4 in
    mkHSL (hue / 6) saturation lightness.

Definition offsetHSL (dh ds dl : num) (c : t) : t :=
  let hsl := getHSL c in
  setHSL (h hsl + dh) (s hsl + ds) (l hsl + dl).

(** [this.lerp(color, alpha)] *)
Definition lerp (color : t) (alpha : num) (c : t) : t :=
  mk (r c + (r color - r c) * alpha)
     (g c + (g color - g c) * alpha)
     (b c + (b color - b c) * alpha).

(** [this.lerpColors(color1, color2, alpha)] *)
Definition lerpColors (color1 color2 : t) (alpha : num) : t :=
  mk (r color1 + (r color2 - r color1) * alpha)
     (g color1 + (g color2 - g color1) * alpha)
     (b color1 + (b color2 - b color1) * alpha).

Definition multiplyScalar (k : num) (c : t) : t :=
  mk (r c * k) (g c * k) (b c * k).
End Color.

Inductive Blending : Type := NormalBlending | AdditiveBlending.

Module PointsMaterial.
Record t : Type := mk { size : num; opacity : num; blending : Blending }.
Definition set_opacity (v : num) (m : t) : t := mk (size m) v (blending m).
End PointsMaterial.

(** A geometry with its [position] and [color] attributes, three numbers a
    point. *)
Module BufferGeometry.
Record t : Type := mk { position : list num; color : list num }.
End BufferGeometry.

Module Points.
Record t : Type := mk {
  id : nat;
  geometry : BufferGeometry.t;
  material : PointsMaterial.t;
  rotation : Euler.t;
  scale : Vector3.t
}.
Definition set_rotation (e : Euler.t) (p : t) : t :=
  mk (id p) (geometry p) (material p) e (scale p).
Definition set_scale (v : Vector3.t) (p : t) : t :=
  mk (id p) (geometry p) (material p) (rotation p) v.
Definition set_material (m : PointsMaterial.t) (p : t) : t :=
  mk (id p) (geometry p) m (rotation p) (scale p).
End Points.

Module Group.
Record t : Type := mk {
  id : nat;
  position : Vector3.t;
  rotation : Euler.t;
  scale : Vector3.t;
  children : list nat
}.
Definition set_position (v : Vector3.t) (o : t) : t :=
  mk (id o) v (rotation o) (scale o) (children o).
Definition set_rotation (e : Euler.t) (o : t) : t :=
  mk (id o) (position o) e (scale o) (children o).
Definition set_scale (v : Vector3.t) (o : t) : t :=
  mk (id o) (position o) (rotation o) v (children o).
(** [group.add(object)] *)
Definition add (child : nat) (o : t) : t :=
  mk (id o) (position o) (rotation o) (scale o) (children o ++ [child]).
End Group.

(** The scene holds the ids of its direct children. *)
Module Scene.
Record t : Type := mk { children : list nat }.
Definition add (child : nat) (s : t) : t := mk (children s ++ [child]).
(** [scene.remove(object)]: nothing happens when the object is not a child. *)
Definition remove (child : nat) (s : t) : t :=
  mk (List.filter (fun c => negb (Nat.eqb c child)) (children s)).
End Scene.

Module PerspectiveCamera.
Record t : Type := mk { position : Vector3.t }.
End PerspectiveCamera.

End THREE.

(** ** Data of the program *)

(** [GalaxyParams] of galaxyUtils.ts. *)
Record GalaxyParams : Type := {
  radius : num;
  thickness : num;
  numArms : num;
  armTightness : num;
  armAngularWidth : num;
  coreRatio : num;
  centerBrightColor : THREE.Color.t;
  armBaseColor : THREE.Color.t;
  armEdgeColor : THREE.Color.t;
  nebulaColor : THREE.Color.t;
  nebulaProbability : num;
  starPointSize : num;
  numStarPoints : num;
  dustColor : THREE.Color.t;
  dustNebulaColor : THREE.Color.t;
  dustNebulaProbability : num;
  dustPointSizeMultiplier : num;
  dustOpacity : num;
  dustThicknessMultiplier : num;
  wobbleAmplitude : num;
  wobbleFrequency : num;
  baseArmSpeed : num;
  baseOrbitSpeed : num
}.

(** What [createSingleGalaxyGroup] returns. *)
Record GalaxyBuild : Type := {
  build_starSystem : THREE.Points.t;
  build_dustSystem : option THREE.Points.t;
  build_originalStarMaterialOpacity : num;
  build_originalDustMaterialOpacity : option num
}.

(** [GalaxyInstance] of ThreeScene.tsx; [null] is [None]. *)
Module GalaxyInstance.
Record t : Type := mk {
  group : THREE.Group.t;
  baseOrbitSpeed : num;
  baseArmSpeed : num;
  starSystem : THREE.Points.t;
  dustSystem : option THREE.Points.t;
  disintegrationTriggerTime : option num;
  disintegrationDelay : num;
  isDisintegrating : bool;
  disintegrationAnimationStartTime : option num;
  disintegrationDuration : num;
  disintegrationTargetCamPos : option THREE.Vector3.t;
  disintegrationInitialGroupPos : option THREE.Vector3.t;
  disintegrationRandomScaleFactor : num;
  originalStarMaterialOpacity : num;
  originalDustMaterialOpacity : option num
}.

Definition set_group (v : THREE.Group.t) (i : t) : t :=
  mk v (baseOrbitSpeed i) (baseArmSpeed i) (starSystem i) (dustSystem i)
    (disintegrationTriggerTime i) (disintegrationDelay i) (isDisintegrating i)
    (disintegrationAnimationStartTime i) (disintegrationDuration i)
    (disintegrationTargetCamPos i) (disintegrationInitialGroupPos i)
    (disintegrationRandomScaleFactor i) (originalStarMaterialOpacity i)
    (originalDustMaterialOpacity i).
Definition set_starSystem (v : THREE.Points.t) (i : t) : t :=
  mk (group i) (baseOrbitSpeed i) (baseArmSpeed i) v (dustSystem i)
    (disintegrationTriggerTime i) (disintegrationDelay i) (isDisintegrating i)
    (disintegrationAnimationStartTime i) (disintegrationDuration i)
    (disintegrationTargetCamPos i) (disintegrationInitialGroupPos i)
    (disintegrationRandomScaleFactor i) (originalStarMaterialOpacity i)
    (originalDustMaterialOpacity i).
Definition set_dustSystem (v : option THREE.Points.t) (i : t) : t :=
  mk (group i) (baseOrbitSpeed i) (baseArmSpeed i) (starSystem i) v
    (disintegrationTriggerTime i) (disintegrationDelay i) (isDisintegrating i)
    (disintegrationAnimationStartTime i) (disintegrationDuration i)
    (disintegrationTargetCamPos i) (disintegrationInitialGroupPos i)
    (disintegrationRandomScaleFactor i) (originalStarMaterialOpacity i)
    (originalDustMaterialOpacity i).
Definition set_disintegrationTriggerTime (v : option num) (i : t) : t :=
  mk (group i) (baseOrbitSpeed i) (baseArmSpeed i) (starSystem i) (dustSystem i)
    v (disintegrationDelay i) (isDisintegrating i)
    (disintegrationAnimationStartTime i) (disintegrationDuration i)
    (disintegrationTargetCamPos i) (disintegrationInitialGroupPos i)
    (disintegrationRandomScaleFactor i) (originalStarMaterialOpacity i)
    (originalDustMaterialOpacity i).
Definition set_disintegrationDelay (v : num) (i : t) : t :=
  mk (group i) (baseOrbitSpeed i) (baseArmSpeed i) (starSystem i) (dustSystem i)
    (disintegrationTriggerTime i) v (isDisintegrating i)
    (disintegrationAnimationStartTime i) (disintegrationDuration i)
    (disintegrationTargetCamPos i) (disintegrationInitialGroupPos i)
    (disintegrationRandomScaleFactor i) (originalStarMaterialOpacity i)
    (originalDustMaterialOpacity i).
Definition set_isDisintegrating (v : bool) (i : t) : t :=
  mk (group i) (baseOrbitSpeed i) (baseArmSpeed i) (starSystem i) (dustSystem i)
    (disintegrationTriggerTime i) (disintegrationDelay i) v
    (disintegrationAnimationStartTime i) (disintegrationDuration i)
    (disintegrationTargetCamPos i) (disintegrationInitialGroupPos i)
    (disintegrationRandomScaleFactor i) (originalStarMaterialOpacity i)
    (originalDustMaterialOpacity i).
Definition set_disintegrationAnimationStartTime (v : option num) (i : t) : t :=
  mk (group i) (baseOrbitSpeed i) (baseArmSpeed i) (starSystem i) (dustSystem i)
    (disintegrationTriggerTime i) (disintegrationDelay i) (isDisintegrating i)
    v (disintegrationDuration i)
    (disintegrationTargetCamPos i) (disintegrationInitialGroupPos i)
    (disintegrationRandomScaleFactor i) (originalStarMaterialOpacity i)
    (originalDustMaterialOpacity i).
Definition set_disintegrationDuration (v : num) (i : t) : t :=
  mk (group i) (baseOrbitSpeed i) (baseArmSpeed i) (starSystem i) (dustSystem i)
    (disintegrationTriggerTime i) (disintegrationDelay i) (isDisintegrating i)
    (disintegrationAnimationStartTime i) v
    (disintegrationTargetCamPos i) (disintegrationInitialGroupPos i)
    (disintegrationRandomScaleFactor i) (originalStarMaterialOpacity i)
    (originalDustMaterialOpacity i).
Definition set_disintegrationTargetCamPos (v : option THREE.Vector3.t) (i : t) : t :=
  mk (group i) (baseOrbitSpeed i) (baseArmSpeed i) (starSystem i) (dustSystem i)
    (disintegrationTriggerTime i) (disintegrationDelay i) (isDisintegrating i)
    (disintegrationAnimationStartTime i) (disintegrationDuration i)
    v (disintegrationInitialGroupPos i)
    (disintegrationRandomScaleFactor i) (originalStarMaterialOpacity i)
    (originalDustMaterialOpacity i).
Definition set_disintegrationInitialGroupPos (v : option THREE.Vector3.t) (i : t) : t :=
  mk (group i) (baseOrbitSpeed i) (baseArmSpeed i) (starSystem i) (dustSystem i)
    (disintegrationTriggerTime i) (disintegrationDelay i) (isDisintegrating i)
    (disintegrationAnimationStartTime i) (disintegrationDuration i)
    (disintegrationTargetCamPos i) v
    (disintegrationRandomScaleFactor i) (originalStarMaterialOpacity i)
    (originalDustMaterialOpacity i).
Definition set_disintegrationRandomScaleFactor (v : num) (i : t) : t :=
  mk (group i) (baseOrbitSpeed i) (baseArmSpeed i) (starSystem i) (dustSystem i)
    (disintegrationTriggerTime i) (disintegrationDelay i) (isDisintegrating i)
    (disintegrationAnimationStartTime i) (disintegrationDuration i)
    (disintegrationTargetCamPos i) (disintegrationInitialGroupPos i)
    v (originalStarMaterialOpacity i)
    (originalDustMaterialOpacity i).
End GalaxyInstance.

(** A resource released through [dispose()], named by the id of the point
    cloud that owns it. *)
Inductive DisposeEvent : Type :=
| GeometryDisposed (owner : nat)
| MaterialDisposed (owner : nat).

(** The state the program runs in: the calls made to [Math.random] so far,
    three.js's counter of object ids, the resources disposed so far, and the
    refs of the [ThreeScene] component. *)
Module World.
Record t : Type := mk {
  randomCalls : nat;
  object3DId : nat;
  disposeLog : list DisposeEvent;
  sceneRef : option THREE.Scene.t;
  cameraRef : option THREE.PerspectiveCamera.t;
  galaxyInstancesRef : list GalaxyInstance.t;
  galaxyOrbitSpeedMultiplierRefCurrent : num;
  armInternalSpeedMultiplierRefCurrent : num
}.
Definition set_randomCalls (v : nat) (w : t) : t :=
  mk v (object3DId w) (disposeLog w) (sceneRef w) (cameraRef w)
    (galaxyInstancesRef w) (galaxyOrbitSpeedMultiplierRefCurrent w)
    (armInternalSpeedMultiplierRefCurrent w).
Definition set_object3DId (v : nat) (w : t) : t :=
  mk (randomCalls w) v (disposeLog w) (sceneRef w) (cameraRef w)
    (galaxyInstancesRef w) (galaxyOrbitSpeedMultiplierRefCurrent w)
    (armInternalSpeedMultiplierRefCurrent w).
Definition set_disposeLog (v : list DisposeEvent) (w : t) : t :=
  mk (randomCalls w) (object3DId w) v (sceneRef w) (cameraRef w)
    (galaxyInstancesRef w) (galaxyOrbitSpeedMultiplierRefCurrent w)
    (armInternalSpeedMultiplierRefCurrent w).
Definition set_sceneRef (v : option THREE.Scene.t) (w : t) : t :=
  mk (randomCalls w) (object3DId w) (disposeLog w) v (cameraRef w)
    (galaxyInstancesRef w) (galaxyOrbitSpeedMultiplierRefCurrent w)
    (armInternalSpeedMultiplierRefCurrent w).
Definition set_galaxyInstancesRef (v : list GalaxyInstance.t) (w : t) : t :=
  mk (randomCalls w) (object3DId w) (disposeLog w) (sceneRef w) (cameraRef w)
    v (galaxyOrbitSpeedMultiplierRefCurrent w)
    (armInternalSpeedMultiplierRefCurrent w).
End World.

(** ** Computations

    A computation reads the stream of [Math.random] draws, changes the world
    and either completes with a value or throws. *)

Definition Rng : Type := nat -> R.

Inductive JsError : Type := RangeError.

Inductive Completion (A : Type) : Type :=
| Normal (a : A)
| Throw (e : JsError).
Arguments Normal {A} a.
Arguments Throw {A} e.

Definition M (A : Type) : Type := Rng -> World.t -> Completion (A * World.t).

#[export] Instance M_ret : MRet M := fun A a _ w => Normal (a, w).

#[export] Instance M_bind : MBind M := fun A B k m rng w =>
  match m rng w with
  | Normal (a, w') => k a rng w'
  | Throw e => Throw e
  end.

Definition throw {A : Type} (e : JsError) : M A := fun _ _ => Throw e.
Definition get : M World.t := fun _ w => Normal (w, w).
Definition modify (f : World.t -> World.t) : M unit := fun _ w => Normal (tt, f w).

(** [Math.random()]: the next draw of the stream. *)
Definition Math_random : M num := fun rng w =>
  Normal (Fin (rng (World.randomCalls w)),
          World.set_randomCalls (S (World.randomCalls w)) w).

(** A fresh three.js object id. *)
Definition newObject3D : M nat := fun _ w =>
  Normal (World.object3DId w, World.set_object3DId (S (World.object3DId w)) w).

(** [for (let i = from; i < from + n; i++) body], the loop variables in [s]. *)
Fixpoint forLoop {S : Type} (n from : nat) (body : nat -> S -> M S) (s : S) : M S :=
  match n with
  | O => mret s
  | Datatypes.S n' => s' ← body from s; forLoop n' (Datatypes.S from) body s'
  end.

(** How often [for (let i = 0; i < bound; i++)] runs its body.  The program
    reaches such a loop only after it has allocated an array of [3 * bound]
    numbers, which throws at [Infinity]. *)
Definition iterations (bound : num) : nat :=
  match bound with
  | Fin r => Z.to_nat (Zceil r)
  | _ => O
  end.

(** [new Float32Array(length)]: the length goes through [ToIndex]; the array
    is filled with zeros. *)
Definition Float32Array (length : num) : M (list num) :=
  match length with
  | NaN => mret []
  | Fin r =>
      let k := JS.Ztrunc r in
      if (k <? 0)%Z || (2 ^ 53 - 1 <? k)%Z then throw RangeError
      else mret (replicate (Z.to_nat k) (Fin 0))
  | _ => throw RangeError
  end.

(** ** galaxyUtils.ts *)

Module GalaxyUtils.
Import THREE.
Local Open Scope num_scope.

Definition rand (min max : num) : M num :=
  u ← Math_random; mret (u * (max - min) + min).

Definition randInt (min max : num) : M num :=
  v ← rand min (max + 1); mret (Math.floor v).

(** [new THREE.Color().setHSL(h, s, l)] with drawn arguments, left to right. *)
Definition randomHSL (h s l : M num) : M Color.t :=
  h' ← h; s' ← s; l' ← l; mret (Color.setHSL h' s' l').

Definition generateRandomGalaxyParameters (universeRadius : num) : M GalaxyParams :=
  individualGalaxyRadius ← rand (universeRadius * 0.02) (universeRadius * 0.08);
  armBaseHue ← Math_random;
  nebulaShift ← rand 0.2 0.4;
  let nebulaHue := (armBaseHue + nebulaShift) %% 1.0 in
  thicknessRatio ← rand 0.04 0.1;
  numArms' ← randInt 2 5;
  armTightness' ← rand 0.15 0.8;
  armAngularWidth' ← rand 0.4 1.5;
  coreRatio' ← rand 0.05 0.15;
  centerBrightColor' ← randomHSL (rand 0.08 0.15) (rand 0.7 1.0) (rand 0.85 0.95);
  armBaseColor' ← randomHSL (mret armBaseHue) (rand 0.6 0.9) (rand 0.4 0.6);
  armEdgeColor' ←
    randomHSL (d ← rand (Fin (- 0.05)) 0.05; mret ((armBaseHue + d) %% 1.0))
              (rand 0.5 0.8) (rand 0.5 0.7);
  nebulaColor' ← randomHSL (mret nebulaHue) (rand 0.7 1.0) (rand 0.6 0.75);
  nebulaProbability' ← rand 0.05 0.25;
  starSizeRatio ← rand 0.01 0.03;
  numStarPoints' ← randInt 4000 12000;
  dustColor' ← randomHSL Math_random (rand 0.1 0.3) (rand 0.05 0.15);
  dustNebulaColor' ← randomHSL Math_random (rand 0.2 0.4) (rand 0.1 0.2);
  dustNebulaProbability' ← rand 0.02 0.1;
  dustPointSizeMultiplier' ← rand 3 8;
  dustOpacity' ← rand 0.2 0.5;
  dustThicknessMultiplier' ← rand 1.2 2.0;
  wobbleAmplitude' ← rand 0.05 0.2;
  wobbleFrequency' ← rand 1.5 4.0;
  baseArmSpeed' ← rand (Fin (- 0.0015)) 0.0015;
  baseOrbitSpeed' ← rand (Fin (- 0.0008)) 0.0008;
  mret {|
    radius := individualGalaxyRadius;
    thickness := individualGalaxyRadius * thicknessRatio;
    numArms := numArms';
    armTightness := armTightness';
    armAngularWidth := armAngularWidth';
    coreRatio := coreRatio';
    centerBrightColor := centerBrightColor';
    armBaseColor := armBaseColor';
    armEdgeColor := armEdgeColor';
    nebulaColor := nebulaColor';
    nebulaProbability := nebulaProbability';
    starPointSize := starSizeRatio * (individualGalaxyRadius / 5);
    numStarPoints := numStarPoints';
    dustColor := dustColor';
    dustNebulaColor := dustNebulaColor';
    dustNebulaProbability := dustNebulaProbability';
    dustPointSizeMultiplier := dustPointSizeMultiplier';
    dustOpacity := dustOpacity';
    dustThicknessMultiplier := dustThicknessMultiplier';
    wobbleAmplitude := wobbleAmplitude';
    wobbleFrequency := wobbleFrequency';
    baseArmSpeed := baseArmSpeed';
    baseOrbitSpeed := baseOrbitSpeed'
  |}.

(** [numDustPoints], from the draw [u] of [rand(3, 6)]. *)
Definition numDustPoints (params : GalaxyParams) (u : num) : num :=
  Math.floor (numStarPoints params / u).

Definition getArmWobble (params : GalaxyParams)
    (radialDist currentRadius armIdx : num) : M num :=
  let normalizedRadiusForWobble := radialDist / currentRadius in
  phase ← rand 0.5 1.0;
  mret (Math.sin (normalizedRadiusForWobble * wobbleFrequency params * Math.PI * 2
                  + armIdx * Math.PI * phase)
        * wobbleAmplitude params * (1.0 - normalizedRadiusForWobble * 0.5)).

(** The radial distance of a star point as first computed from the draw
    [randomProgress], before the edge is made irregular. *)
Definition starRadialDistance (params : GalaxyParams) (randomProgress : num) : num :=
  Math.pow randomProgress 1.6 * radius params.

(** The same for a dust point. *)
Definition dustRadialDistance (params : GalaxyParams) (randomProgress : num) : num :=
  Math.pow randomProgress 1.3 * radius params * 0.95 + (radius params * 0.05).

(** The position of one star point (the body of the first loop up to the
    writes into [starPositions]), with [normalizedRadiusForColor]. *)
Definition starPosition (params : GalaxyParams) : M (Vector3.t * num) :=
  randomProgress ← Math_random;
  let radialDistance0 := starRadialDistance params randomProgress in
  '(extensionFactor, radialDistance1) ←
    (if randomProgress >? 0.7
     then e ← Math_random;
          let extensionFactor := 1.0 + (e - 0.4) * 0.7 in
          mret (extensionFactor, radialDistance0 * extensionFactor)
     else mret (Fin 1.0, radialDistance0));
  a ← Math_random;
  let armChoice := Math.floor (a * numArms params) in
  let baseAngleForArm := (armChoice / numArms params) * Math.PI * 2 in
  let spiralOffset := radialDistance1 * armTightness params in
  o ← Math_random;
  let angleOffsetWithinArm := (Math.pow o 0.55 - 0.5) * armAngularWidth params in
  let angle0 := baseAngleForArm + spiralOffset + angleOffsetWithinArm in
  let normalizedRadiusForColor :=
    Math.min 1.0 (radialDistance1 / (radius params * Math.max 1 extensionFactor)) in
  angle1 ←
    (if (radialDistance1 >? radius params * coreRatio params * 1.2)
        && (radialDistance1 <? radius params * 0.9)
     then w ← getArmWobble params radialDistance1 (radius params) armChoice;
          mret (angle0 + w)
     else mret angle0);
  '(angle, radialDistance) ←
    (if radialDistance1 <? radius params * coreRatio params
     then c ← Math_random;
          let coreAngle := c * Math.PI * 2 in
          d ← Math_random;
          if d <? 0.7
          then e ← Math_random;
               mret (coreAngle, radialDistance1 * (Math.pow e 1.8 * 0.85))
          else mret (coreAngle, radialDistance1)
     else mret (angle1, radialDistance1));
  let x := radialDistance * Math.cos angle in
  let z := radialDistance * Math.sin angle in
  y1 ← Math_random;
  y2 ← Math_random;
  let yRand := (y1 - 0.5) * (y2 - 0.5) * 3.8 in
  let normalizedRadiusForThickness :=
    Math.min 1.0 (radialDistance / (radius params * 1.25)) in
  let thicknessFactor := Math.pow (1.0 - normalizedRadiusForThickness * 0.9) 1.3 in
  let y0 := yRand * thickness params * thicknessFactor in
  let y :=
    if normalizedRadiusForThickness >? 0.7
    then y0 * Math.max 0
                ((1.0 - (normalizedRadiusForThickness - 0.7) / 0.3) * 0.3 + 0.7)
    else y0 in
  mret (Vector3.mk x y z, normalizedRadiusForColor).

(** The colour of one star point (the rest of the body of the first loop). *)
Definition starColor (params : GalaxyParams) (normalizedRadiusForColor : num)
    : M Color.t :=
  b ← Math_random;
  let randomBrightness := b * 0.4 + 0.6 in
  particleColor ←
    (if normalizedRadiusForColor <? coreRatio params * 0.7
     then mret (Color.lerp (armBaseColor params)
                  (Math.pow (normalizedRadiusForColor / (coreRatio params * 0.7)) 0.5)
                  (centerBrightColor params))
     else if normalizedRadiusForColor <? coreRatio params * 1.3
     then mret (Color.lerpColors (centerBrightColor params) (armBaseColor params)
                  ((normalizedRadiusForColor - coreRatio params * 0.7)
                   / (coreRatio params * 0.6)))
     else
       n ← Math_random;
       if (n <? nebulaProbability params)
          && (normalizedRadiusForColor <? 0.85)
          && (normalizedRadiusForColor >? coreRatio params * 1.5)
       then h ← Math_random; s ← Math_random; l ← Math_random;
            mret (Color.offsetHSL ((h - 0.5) * 0.04) ((s - 0.5) * 0.15)
                    ((l - 0.5) * 0.1) (nebulaColor params))
       else
         let armLerpFactor :=
           Math.min 1 (Math.max 0 (normalizedRadiusForColor - coreRatio params * 1.3)
                       / (1 - coreRatio params * 1.3)) in
         h ← Math_random; s ← Math_random; l ← Math_random;
         mret (Color.offsetHSL ((h - 0.5) * 0.08) ((s - 0.5) * 0.2)
                 ((l - 0.5) * 0.1)
                 (Color.lerpColors (armBaseColor params) (armEdgeColor params)
                    (Math.sqrt armLerpFactor))));
  mret (Color.multiplyScalar randomBrightness particleColor).

(** Writing a point and its colour at index [i] of the two arrays; a write
    past the end of a typed array does nothing. *)
Definition writePoint (i : nat) (p : Vector3.t) (c : Color.t)
    (buffers : list num * list num) : list num * list num :=
  let '(positions, colors) := buffers in
  (<[(i * 3 + 2)%nat := Vector3.z p]>
     (<[(i * 3 + 1)%nat := Vector3.y p]> (<[(i * 3)%nat := Vector3.x p]> positions)),
   <[(i * 3 + 2)%nat := Color.b c]>
     (<[(i * 3 + 1)%nat := Color.g c]> (<[(i * 3)%nat := Color.r c]> colors))).

Definition starBody (params : GalaxyParams) (i : nat)
    (buffers : list num * list num) : M (list num * list num) :=
  '(p, normalizedRadiusForColor) ← starPosition params;
  c ← starColor params normalizedRadiusForColor;
  mret (writePoint i p c buffers).

(** The position of one dust point, with [normalizedRadiusForColor]. *)
Definition dustPosition (params : GalaxyParams) : M (Vector3.t * num) :=
  randomProgress ← Math_random;
  let radialDistance0 := dustRadialDistance params randomProgress in
  '(extensionFactor, radialDistance1) ←
    (if randomProgress >? 0.65
     then e ← Math_random;
          let extensionFactor := 1.0 + (e - 0.35) * 0.6 in
          mret (extensionFactor, radialDistance0 * extensionFactor)
     else mret (Fin 1.0, radialDistance0));
  a ← Math_random;
  let armChoice := Math.floor (a * numArms params) in
  let baseAngleForArm := (armChoice / numArms params) * Math.PI * 2 in
  t ← Math_random;
  let spiralOffset := radialDistance1 * (armTightness params * (0.9 + t * 0.2)) - 0.05 in
  o ← Math_random;
  let angleOffsetWithinArm := (o - 0.5) * armAngularWidth params * 0.7 in
  let angle0 := baseAngleForArm + spiralOffset + angleOffsetWithinArm in
  let normalizedRadiusForColor :=
    Math.min 1.0 (radialDistance1 / (radius params * Math.max 1 extensionFactor)) in
  angle1 ←
    (if (radialDistance1 >? radius params * coreRatio params * 1.5)
        && (radialDistance1 <? radius params * 0.85)
     then w ← getArmWobble params radialDistance1 (radius params) armChoice;
          mret (angle0 + w * 0.8)
     else mret angle0);
  '(angle, radialDistance) ←
    (if radialDistance1 <? radius params * coreRatio params * 1.8
     then c ← Math_random;
          if c <? 0.5
          then d ← Math_random; mret (angle1, radialDistance1 * (1.0 + d * 0.4))
          else d ← Math_random; mret (angle1 + (d - 0.5) * 0.2, radialDistance1)
     else mret (angle1, radialDistance1));
  let x := radialDistance * Math.cos angle in
  let z := radialDistance * Math.sin angle in
  y1 ← Math_random;
  y2 ← Math_random;
  let yRand := (y1 - 0.5) * (y2 - 0.5) * 3.0 in
  let normalizedRadiusForThickness :=
    Math.min 1.0 (radialDistance / (radius params * 1.25)) in
  let thicknessFactor := Math.pow (1.0 - normalizedRadiusForThickness * 0.85) 1.2 in
  let y0 := yRand * thickness params * thicknessFactor
            * dustThicknessMultiplier params * 0.7 in
  let y :=
    if normalizedRadiusForThickness >? 0.8
    then y0 * Math.max 0.05
                ((1.0 - (normalizedRadiusForThickness - 0.8) / 0.2) * 0.4 + 0.6)
    else y0 in
  mret (Vector3.mk x y z, normalizedRadiusForColor).

Definition dustParticleColor (params : GalaxyParams) (normalizedRadiusForColor : num)
    : M Color.t :=
  b ← Math_random;
  let randomBrightness := b * 0.2 + 0.1 in
  n ← Math_random;
  let base :=
    if (n <? dustNebulaProbability params)
       && (normalizedRadiusForColor >? coreRatio params * 1.5)
    then dustNebulaColor params else dustColor params in
  s ← Math_random;
  l ← Math_random;
  mret (Color.multiplyScalar randomBrightness
          (Color.offsetHSL 0 ((s - 0.5) * 0.1) ((l - 0.5) * 0.05) base)).

Definition dustBody (params : GalaxyParams) (i : nat)
    (buffers : list num * list num) : M (list num * list num) :=
  '(p, normalizedRadiusForColor) ← dustPosition params;
  c ← dustParticleColor params normalizedRadiusForColor;
  mret (writePoint i p c buffers).

(** [new THREE.Points(geometry, material)] *)
Definition newPoints (geometry : BufferGeometry.t) (material : PointsMaterial.t)
    : M Points.t :=
  id ← newObject3D;
  mret (Points.mk id geometry material (Euler.mk 0 0 0) (Vector3.mk 1 1 1)).

Definition createSingleGalaxyGroup (params : GalaxyParams) : M GalaxyBuild :=
  u ← rand 3 6;
  let numDustPoints := numDustPoints params u in
  starPositions0 ← Float32Array (numStarPoints params * 3);
  starColors0 ← Float32Array (numStarPoints params * 3);
  '(starPositions, starColors) ←
    forLoop (iterations (numStarPoints params)) 0 (starBody params)
      (starPositions0, starColors0);
  let starMaterial := PointsMaterial.mk (starPointSize params) 1 AdditiveBlending in
  let originalStarMaterialOpacity := PointsMaterial.opacity starMaterial in
  starSystem ← newPoints (BufferGeometry.mk starPositions starColors) starMaterial;
  if numDustPoints >? 0
  then
    dustPositions0 ← Float32Array (numDustPoints * 3);
    dustColorsArray0 ← Float32Array (numDustPoints * 3);
    '(dustPositions, dustColorsArray) ←
      forLoop (iterations numDustPoints) 0 (dustBody params)
        (dustPositions0, dustColorsArray0);
    let dustMaterial :=
      PointsMaterial.mk (starPointSize params * dustPointSizeMultiplier params)
        (dustOpacity params) NormalBlending in
    dustSystem ← newPoints (BufferGeometry.mk dustPositions dustColorsArray) dustMaterial;
    mret {|
      build_starSystem := starSystem;
      build_dustSystem := Some dustSystem;
      build_originalStarMaterialOpacity := originalStarMaterialOpacity;
      build_originalDustMaterialOpacity := Some (PointsMaterial.opacity dustMaterial)
    |}
  else
    mret {|
      build_starSystem := starSystem;
      build_dustSystem := None;
      build_originalStarMaterialOpacity := originalStarMaterialOpacity;
      build_originalDustMaterialOpacity := None
    |}.

End GalaxyUtils.

(** ** ThreeScene.tsx

    A frame of [animate] takes the value of [performance.now()] as [now].
    The calls that only draw ([requestAnimationFrame], the orbit controls'
    update, the renderer) are left out: between two frames the camera and the
    two multipliers of the world may have any value. *)

Module ThreeScene.
Import THREE GalaxyUtils.
Local Open Scope num_scope.

(** [sceneRef.current?.remove(object)] *)
Definition sceneRemove (object : nat) : M unit :=
  modify (fun w => World.set_sceneRef (Scene.remove object <$> World.sceneRef w) w).

Definition sceneAdd (object : nat) : M unit :=
  modify (fun w => World.set_sceneRef (Scene.add object <$> World.sceneRef w) w).

Definition dispose (e : DisposeEvent) : M unit :=
  modify (fun w => World.set_disposeLog (World.disposeLog w ++ [e]) w).

(** [disposePoints(pointsObject, scene)]; every caller passes the scene the
    ref holds. *)
Definition disposePoints (pointsObject : option Points.t) : M unit :=
  match pointsObject with
  | Some p =>
      dispose (GeometryDisposed (Points.id p));;
      dispose (MaterialDisposed (Points.id p));;
      sceneRemove (Points.id p)
  | None => mret tt
  end.

(** [points.rotation.y += delta] *)
Definition rotatePoints (delta : num) (p : Points.t) : Points.t :=
  Points.set_rotation
    (Euler.set_y (Euler.y (Points.rotation p) + delta) (Points.rotation p)) p.

(** [points.material.opacity = v] *)
Definition setOpacity (v : num) (p : Points.t) : Points.t :=
  Points.set_material (PointsMaterial.set_opacity v (Points.material p)) p.

(** [points.scale.set(v, v, v)] *)
Definition setUniformScale (v : num) (p : Points.t) : Points.t :=
  Points.set_scale (Vector3.set v v v) p.

(** Lines 123-127: the rotation of the group, the stars and the dust. *)
Definition rotationSubstep (instance : GalaxyInstance.t) : M GalaxyInstance.t :=
  w ← get;
  let orbit := World.galaxyOrbitSpeedMultiplierRefCurrent w in
  let arm := World.armInternalSpeedMultiplierRefCurrent w in
  let g := GalaxyInstance.group instance in
  let i1 :=
    GalaxyInstance.set_group
      (Group.set_rotation
         (Euler.set_y (Euler.y (Group.rotation g)
                       + GalaxyInstance.baseOrbitSpeed instance * orbit * 100)
            (Group.rotation g)) g) instance in
  let i2 :=
    GalaxyInstance.set_starSystem
      (rotatePoints (GalaxyInstance.baseArmSpeed i1 * arm * 100)
         (GalaxyInstance.starSystem i1)) i1 in
  match GalaxyInstance.dustSystem i2 with
  | Some dust =>
      jitter ← rand 0.9 1.1;
      mret (GalaxyInstance.set_dustSystem
              (Some (rotatePoints (GalaxyInstance.baseArmSpeed i2 * arm * 100 * jitter)
                       dust)) i2)
  | None => mret i2
  end.

(** Lines 131-147: what the instance becomes when its delay has passed. *)
Definition startDisintegration (now : num) (instance : GalaxyInstance.t)
    : M GalaxyInstance.t :=
  w ← get;
  let i1 := GalaxyInstance.set_isDisintegrating true instance in
  let i2 := GalaxyInstance.set_disintegrationAnimationStartTime (Some now) i1 in
  let target :=
    match World.cameraRef w with
    | Some camera => PerspectiveCamera.position camera
    | None =>
        Vector3.mk 0 0 (Vector3.z (Group.position (GalaxyInstance.group i2)) + 50)
    end in
  let i3 := GalaxyInstance.set_disintegrationTargetCamPos (Some target) i2 in
  let i4 :=
    GalaxyInstance.set_disintegrationInitialGroupPos
      (Some (Group.position (GalaxyInstance.group i3))) i3 in
  duration ← rand 2.0 4.5;
  let i5 := GalaxyInstance.set_disintegrationDuration duration i4 in
  scaleFactor ← rand 2.5 7.0;
  let i6 := GalaxyInstance.set_disintegrationRandomScaleFactor scaleFactor i5 in
  let i7 :=
    GalaxyInstance.set_starSystem
      (setUniformScale 1
         (setOpacity (GalaxyInstance.originalStarMaterialOpacity i6)
            (GalaxyInstance.starSystem i6))) i6 in
  match GalaxyInstance.dustSystem i7, GalaxyInstance.originalDustMaterialOpacity i7 with
  | Some dust, Some original =>
      mret (GalaxyInstance.set_dustSystem
              (Some (setUniformScale 1 (setOpacity original dust))) i7)
  | _, _ => mret i7
  end.

(** Lines 129-149. *)
Definition primedSubstep (now : num) (instance : GalaxyInstance.t)
    : M GalaxyInstance.t :=
  match GalaxyInstance.disintegrationTriggerTime instance with
  | Some triggerTime =>
      if negb (GalaxyInstance.isDisintegrating instance)
      then
        if now >=? triggerTime + GalaxyInstance.disintegrationDelay instance
        then startDisintegration now instance
        else mret instance
      else mret instance
  | None => mret instance
  end.

(** Lines 152-153: [progress], from the times in milliseconds and the
    duration in seconds. *)
Definition disintegrationProgress (now startTime duration : num) : num :=
  let elapsedTime := (now - startTime) / 1000 in
  Math.min 1 (elapsedTime / duration).

(** Line 168: [scaleProgress]. *)
Definition scaleProgress (progress scaleFactor : num) : num :=
  1 + progress * scaleFactor.

(** Lines 174 and 176: the opacity of a material at [progress]. *)
Definition fadedOpacity (original progress : num) : num :=
  original * (1 - progress * progress).

(** Lines 161-177: the instance at a [progress] that is not yet 1. *)
Definition applyProgress (progress : num) (instance : GalaxyInstance.t)
    : GalaxyInstance.t :=
  let i1 :=
    match GalaxyInstance.disintegrationInitialGroupPos instance,
          GalaxyInstance.disintegrationTargetCamPos instance with
    | Some initial, Some target =>
        GalaxyInstance.set_group
          (Group.set_position (Vector3.lerpVectors initial target progress)
             (GalaxyInstance.group instance)) instance
    | _, _ => instance
    end in
  let scale :=
    scaleProgress progress (GalaxyInstance.disintegrationRandomScaleFactor i1) in
  let i2 :=
    GalaxyInstance.set_starSystem
      (setUniformScale scale (GalaxyInstance.starSystem i1)) i1 in
  let i3 :=
    match GalaxyInstance.dustSystem i2 with
    | Some dust =>
        GalaxyInstance.set_dustSystem (Some (setUniformScale scale dust)) i2
    | None => i2
    end in
  let i4 :=
    GalaxyInstance.set_starSystem
      (setOpacity (fadedOpacity (GalaxyInstance.originalStarMaterialOpacity i3) progress)
         (GalaxyInstance.starSystem i3)) i3 in
  match GalaxyInstance.dustSystem i4, GalaxyInstance.originalDustMaterialOpacity i4 with
  | Some dust, Some original =>
      GalaxyInstance.set_dustSystem
        (Some (setOpacity (fadedOpacity original progress) dust)) i4
  | _, _ => i4
  end.

(** Lines 156-158: the resources of a finished instance are released and its
    group leaves the scene. *)
Definition disposeInstance (instance : GalaxyInstance.t) : M unit :=
  disposePoints (Some (GalaxyInstance.starSystem instance));;
  match GalaxyInstance.dustSystem instance with
  | Some dust => disposePoints (Some dust)
  | None => mret tt
  end;;
  sceneRemove (Group.id (GalaxyInstance.group instance)).

(** Lines 151-179, with [shouldKeepInstance]. *)
Definition disintegratingSubstep (now : num) (instance : GalaxyInstance.t)
    : M (GalaxyInstance.t * bool) :=
  match GalaxyInstance.isDisintegrating instance,
        GalaxyInstance.disintegrationAnimationStartTime instance with
  | true, Some startTime =>
      let progress :=
        disintegrationProgress now startTime
          (GalaxyInstance.disintegrationDuration instance) in
      if progress >=? 1
      then disposeInstance instance;; mret (instance, false)
      else mret (applyProgress progress instance, true)
  | _, _ => mret (instance, true)
  end.

(** The body of the [forEach] of [animate]: the instance after the frame and
    whether it stays in the collection. *)
Definition animateInstance (now : num) (instance : GalaxyInstance.t)
    : M (GalaxyInstance.t * bool) :=
  i1 ← rotationSubstep instance;
  i2 ← primedSubstep now i1;
  disintegratingSubstep now i2.

Definition stillActiveGalaxies (visited : list (GalaxyInstance.t * bool))
    : list GalaxyInstance.t :=
  fst <$> List.filter snd visited.

(** One frame. *)
Definition animate (now : num) : M unit :=
  w ← get;
  visited ← mapM (animateInstance now) (World.galaxyInstancesRef w);
  modify (World.set_galaxyInstancesRef (stillActiveGalaxies visited)).

(** Lines 255-289: one new galaxy, placed in the universe. *)
Definition newGalaxyInstance (currentGalaxySpreadValue : num) : M GalaxyInstance.t :=
  galaxyParams ← generateRandomGalaxyParameters currentGalaxySpreadValue;
  build ← createSingleGalaxyGroup galaxyParams;
  groupId ← newObject3D;
  let children :=
    Points.id (build_starSystem build)
    :: match build_dustSystem build with
       | Some dust => [Points.id dust]
       | None => []
       end in
  r ← rand (currentGalaxySpreadValue * 0.05) (currentGalaxySpreadValue * 0.9);
  p ← Math_random;
  let phi := Math.acos (2 * p - 1) in
  t ← Math_random;
  let theta := t * Math.PI * 2 in
  let position :=
    Vector3.set (r * Math.sin phi * Math.cos theta)
                (r * Math.sin phi * Math.sin theta)
                (r * Math.cos phi) in
  rx ← rand 0 (Math.PI * 2);
  ry ← rand 0 (Math.PI * 2);
  rz ← rand 0 (Math.PI * 2);
  scale ← rand 0.4 1.2;
  let group :=
    Group.mk groupId position (Euler.set rx ry rz) (Vector3.set scale scale scale)
      children in
  sceneAdd groupId;;
  mret {|
    GalaxyInstance.group := group;
    GalaxyInstance.baseArmSpeed := baseArmSpeed galaxyParams;
    GalaxyInstance.baseOrbitSpeed := baseOrbitSpeed galaxyParams;
    GalaxyInstance.starSystem := build_starSystem build;
    GalaxyInstance.dustSystem := build_dustSystem build;
    GalaxyInstance.disintegrationTriggerTime := None;
    GalaxyInstance.disintegrationDelay := 0;
    GalaxyInstance.isDisintegrating := false;
    GalaxyInstance.disintegrationAnimationStartTime := None;
    GalaxyInstance.disintegrationDuration := 0;
    GalaxyInstance.disintegrationTargetCamPos := None;
    GalaxyInstance.disintegrationInitialGroupPos := None;
    GalaxyInstance.disintegrationRandomScaleFactor := 1;
    GalaxyInstance.originalStarMaterialOpacity := build_originalStarMaterialOpacity build;
    GalaxyInstance.originalDustMaterialOpacity := build_originalDustMaterialOpacity build
  |}.

(** [galaxyInstancesRef.current.push(instance)] *)
Definition pushInstance (instance : GalaxyInstance.t) : M unit :=
  modify (fun w =>
    World.set_galaxyInstancesRef (World.galaxyInstancesRef w ++ [instance]) w).

(** The galaxy generation effect (lines 241-291). *)
Definition regenerateGalaxies (galaxySpread numGalaxies : num) : M unit :=
  w ← get;
  match World.sceneRef w with
  | None => mret tt
  | Some _ =>
      mapM disposeInstance (World.galaxyInstancesRef w);;
      modify (World.set_galaxyInstancesRef []);;
      forLoop (iterations numGalaxies) 0
        (fun _ _ => instance ← newGalaxyInstance galaxySpread; pushInstance instance)
        tt
  end.

(** The disintegration trigger effect (lines 293-302); [triggerTime] is the
    value of [performance.now()]. *)
Definition primeInstance (triggerTime : num) (instance : GalaxyInstance.t)
    : M GalaxyInstance.t :=
  delay ← rand 0 3000;
  mret (GalaxyInstance.set_disintegrationAnimationStartTime None
          (GalaxyInstance.set_isDisintegrating false
             (GalaxyInstance.set_disintegrationDelay delay
                (GalaxyInstance.set_disintegrationTriggerTime (Some triggerTime)
                   instance)))).

Definition triggerDisintegration (disintegrationTriggerKey : nat) (triggerTime : num)
    : M unit :=
  match disintegrationTriggerKey with
  | O => mret tt
  | _ =>
      w ← get;
      primed ← mapM (primeInstance triggerTime) (World.galaxyInstancesRef w);
      modify (World.set_galaxyInstancesRef primed)
  end.

(** The world after the mount effect (lines 81-113) for a component with
    the given multipliers: an empty scene, the camera at its first position,
    no galaxy yet. *)
Definition mounted (galaxyOrbitSpeedMultiplier armInternalSpeedMultiplier : num)
    : World.t :=
  let initialCameraSpread : num := 150 in
  {| World.randomCalls := 0;
     World.object3DId := 0;
     World.disposeLog := [];
     World.sceneRef := Some (Scene.mk []);
     World.cameraRef :=
       Some (PerspectiveCamera.mk
               (Vector3.set 0 (initialCameraSpread * 0.3) (initialCameraSpread * 1.2)));
     World.galaxyInstancesRef := [];
     World.galaxyOrbitSpeedMultiplierRefCurrent := galaxyOrbitSpeedMultiplier;
     World.armInternalSpeedMultiplierRefCurrent := armInternalSpeedMultiplier |}.

End ThreeScene.

(** ** ThreeScene.tsx: the effects around the frame loop

    The component holds three things that [World.t] does not: the ref of the
    background stars, the ref of the orbit controls, and the far plane of the
    camera of [World.cameraRef].  The effects below take them as a value and
    return the new one.  The renderer, the DOM and the event listeners are
    left out. *)

Module Stage.
Import THREE GalaxyUtils ThreeScene.
Local Open Scope num_scope.

(** The part of [OrbitControls] the component sets after the mount. *)
Record OrbitControls : Type := { maxDistance : num }.

Record t : Type := mk {
  backgroundStarsRef : option Points.t;
  controlsRef : option OrbitControls;
  cameraFar : num
}.

(** Lines 50-52 and 54-56: a new value of a speed prop goes into its ref. *)
Definition setGalaxyOrbitSpeedMultiplier (galaxyOrbitSpeedMultiplier : num) : M unit :=
  modify (fun w =>
    World.mk (World.randomCalls w) (World.object3DId w) (World.disposeLog w)
      (World.sceneRef w) (World.cameraRef w) (World.galaxyInstancesRef w)
      galaxyOrbitSpeedMultiplier (World.armInternalSpeedMultiplierRefCurrent w)).

Definition setArmInternalSpeedMultiplier (armInternalSpeedMultiplier : num) : M unit :=
  modify (fun w =>
    World.mk (World.randomCalls w) (World.object3DId w) (World.disposeLog w)
      (World.sceneRef w) (World.cameraRef w) (World.galaxyInstancesRef w)
      (World.galaxyOrbitSpeedMultiplierRefCurrent w) armInternalSpeedMultiplier).

(** Lines 220-230: the position and the colour of one background star. *)
Definition backgroundStar (bgRadius : num) : M (Vector3.t * Color.t) :=
  a ← Math_random;
  let r := bgRadius * (0.85 + a * 0.15) in
  p ← Math_random;
  let phi := Math.acos (2 * p - 1) in
  t ← Math_random;
  let theta := t * Math.PI * 2 in
  let position :=
    Vector3.mk (r * Math.sin phi * Math.cos theta)
               (r * Math.sin phi * Math.sin theta)
               (r * Math.cos phi) in
  b ← Math_random;
  let brightness := b * 0.2 + 0.2 in
  h ← Math_random;
  s ← Math_random;
  mret (position, Color.setHSL (h * 0.1 + 0.55) (s * 0.2 + 0.3) brightness).

Definition backgroundBody (bgRadius : num) (i : nat)
    (buffers : list num * list num) : M (list num * list num) :=
  '(p, c) ← backgroundStar bgRadius;
  mret (writePoint i p c buffers).

(** The effect of [galaxySpread] (lines 200-239): the far plane and the
    largest distance of the controls follow the spread, and the background
    stars are made anew. *)
Definition backgroundStarsEffect (galaxySpread : num) (stage : t) : M t :=
  w ← get;
  match World.sceneRef w with
  | None => mret stage
  | Some _ =>
      let far :=
        match World.cameraRef w with
        | Some _ => galaxySpread * 10
        | None => cameraFar stage
        end in
      let controls :=
        (fun _ : OrbitControls => {| maxDistance := galaxySpread * 4 |})
          <$> controlsRef stage in
      disposePoints (backgroundStarsRef stage);;
      bgStarPositions0 ← Float32Array (15000 * 3);
      bgStarColors0 ← Float32Array (15000 * 3);
      let bgRadius := galaxySpread * 5 in
      '(bgStarPositions, bgStarColors) ←
        forLoop (iterations 15000) 0 (backgroundBody bgRadius)
          (bgStarPositions0, bgStarColors0);
      let bgMaterial :=
        PointsMaterial.mk (Math.max 0.15 (0.00035 * bgRadius)) 0.7 AdditiveBlending in
      backgroundStars ← newPoints (BufferGeometry.mk bgStarPositions bgStarColors) bgMaterial;
      sceneAdd (Points.id backgroundStars);;
      mret (mk (Some backgroundStars) controls far)
  end.

(** Lines 329-332: the refs are cleared. *)
Definition clearRefs : M unit :=
  modify (fun w =>
    World.mk (World.randomCalls w) (World.object3DId w) (World.disposeLog w)
      None None (World.galaxyInstancesRef w)
      (World.galaxyOrbitSpeedMultiplierRefCurrent w)
      (World.armInternalSpeedMultiplierRefCurrent w)).

(** The cleanup of the last effect (lines 306-333), run when the component
    unmounts. *)
Definition unmount (stage : t) : M t :=
  w ← get;
  match World.sceneRef w with
  | Some _ =>
      mapM disposeInstance (World.galaxyInstancesRef w);;
      modify (World.set_galaxyInstancesRef []);;
      disposePoints (backgroundStarsRef stage);;
      clearRefs;;
      mret (mk None None (cameraFar stage))
  | None =>
      clearRefs;;
      mret (mk (backgroundStarsRef stage) None (cameraFar stage))
  end.

(** The stage after the mount effect (lines 89-109): no background stars
    yet, the controls and the far plane set from [initialCameraSpread]. *)
Definition mounted : t :=
  let initialCameraSpread : num := 150 in
  mk None (Some {| maxDistance := initialCameraSpread * 4 |}) (initialCameraSpread * 10).

End Stage.

(** ** Notions used in the statements *)

(** Every draw of [Math.random] lies in [0, 1). *)
Definition uniform (rng : Rng) : Prop := forall n : nat, 0 <= rng n < 1.

(** The computation [m] completes normally from [w], with a value and a world
    that satisfy [Q]. *)
Definition wp {A : Type} (m : M A) (rng : Rng) (w : World.t)
    (Q : A -> World.t -> Prop) : Prop :=
  match m rng w with
  | Normal (a, w') => Q a w'
  | Throw _ => False
  end.

(** [w'] is [w] after some more draws. *)
Definition drawsOnly (w w' : World.t) : Prop :=
  w' = World.set_randomCalls (World.randomCalls w') w.

(** [w'] is [w] after some more draws and some more objects. *)
Definition allocOnly (w w' : World.t) : Prop :=
  w' = World.set_randomCalls (World.randomCalls w')
         (World.set_object3DId (World.object3DId w') w)
  /\ (World.object3DId w <= World.object3DId w')%nat.

(** [x] to the power [y] for [0 <= x] and [0 < y]. *)
Definition rpow (x y : R) : R := if Req_dec_T x 0 then 0 else Rpower x y.

(** The progress as the specification words it, without the conversion of
    the elapsed milliseconds to seconds. *)
Definition claimedProgress (now startTime duration : num) : num :=
  Math.min 1 ((now - startTime) / duration)%js.

(** [instance] with the rotation about the vertical axis of its group, of its
    stars and (when it has dust and [dy] is given) of its dust replaced, and
    nothing else changed. *)
Definition withRotationY (gy sy : num) (dy : option num) (instance : GalaxyInstance.t)
    : GalaxyInstance.t :=
  let g := GalaxyInstance.group instance in
  let star := GalaxyInstance.starSystem instance in
  let setY (v : num) (p : THREE.Points.t) :=
    THREE.Points.set_rotation (THREE.Euler.set_y v (THREE.Points.rotation p)) p in
  GalaxyInstance.set_dustSystem
    (match GalaxyInstance.dustSystem instance, dy with
     | Some dust, Some v => Some (setY v dust)
     | dust, _ => dust
     end)
    (GalaxyInstance.set_starSystem (setY sy star)
       (GalaxyInstance.set_group
          (THREE.Group.set_rotation (THREE.Euler.set_y gy (THREE.Group.rotation g)) g)
          instance)).

(** The rotations about the vertical axis of the group, the stars and the
    dust of an instance. *)
Definition rotationsY (instance : GalaxyInstance.t) : num * num * option num :=
  (THREE.Euler.y (THREE.Group.rotation (GalaxyInstance.group instance)),
   THREE.Euler.y (THREE.Points.rotation (GalaxyInstance.starSystem instance)),
   (fun dust => THREE.Euler.y (THREE.Points.rotation dust))
     <$> GalaxyInstance.dustSystem instance).

(** [framesFrom i nows i']: the instance [i] lives through frames at the
    times [nows], stays in the collection and ends as [i'].  Each frame has
    a world of its own: the camera, the multipliers and the draws are
    arbitrary. *)
Inductive framesFrom : GalaxyInstance.t -> list num -> GalaxyInstance.t -> Prop :=
| frames_done (i : GalaxyInstance.t) : framesFrom i [] i
| frames_step (i i1 i2 : GalaxyInstance.t) (now : num) (nows : list num)
    (rng : Rng) (w w1 : World.t) :
    ThreeScene.animateInstance now i rng w = Normal ((i1, true), w1) ->
    framesFrom i1 nows i2 ->
    framesFrom i (now :: nows) i2.

(** An instance for the examples, as the generation effect makes them: one
    star point and one dust point. *)
Definition examplePoints (id : nat) (opacity : num) : THREE.Points.t :=
  THREE.Points.mk id
    (THREE.BufferGeometry.mk [Fin 0; Fin 0; Fin 0] [Fin 1; Fin 1; Fin 1])
    (THREE.PointsMaterial.mk 0.1 opacity THREE.AdditiveBlending)
    (THREE.Euler.mk 0 0 0) (THREE.Vector3.mk 1 1 1).

Definition exampleInstance : GalaxyInstance.t :=
  {| GalaxyInstance.group :=
       THREE.Group.mk 2 (THREE.Vector3.mk 10 20 30) (THREE.Euler.mk 0 0 0)
         (THREE.Vector3.mk 1 1 1) [0%nat; 1%nat];
     GalaxyInstance.baseOrbitSpeed := 0.0005;
     GalaxyInstance.baseArmSpeed := 0.001;
     GalaxyInstance.starSystem := examplePoints 0 1;
     GalaxyInstance.dustSystem := Some (examplePoints 1 0.3);
     GalaxyInstance.disintegrationTriggerTime := None;
     GalaxyInstance.disintegrationDelay := 0;
     GalaxyInstance.isDisintegrating := false;
     GalaxyInstance.disintegrationAnimationStartTime := None;
     GalaxyInstance.disintegrationDuration := 0;
     GalaxyInstance.disintegrationTargetCamPos := None;
     GalaxyInstance.disintegrationInitialGroupPos := None;
     GalaxyInstance.disintegrationRandomScaleFactor := 1;
     GalaxyInstance.originalStarMaterialOpacity := 1;
     GalaxyInstance.originalDustMaterialOpacity := Some (Fin 0.3) |}.

(** The example primed at time 1000 with a delay of 500 milliseconds. *)
Definition examplePrimed : GalaxyInstance.t :=
  GalaxyInstance.set_disintegrationDelay 500
    (GalaxyInstance.set_disintegrationTriggerTime (Some (Fin 1000)) exampleInstance).

(** The example disintegrating since time 0 for 2 seconds, from its place
    toward the first position of the camera. *)
Definition exampleDisintegrating : GalaxyInstance.t :=
  GalaxyInstance.set_disintegrationRandomScaleFactor 3
    (GalaxyInstance.set_disintegrationInitialGroupPos (Some (THREE.Vector3.mk 10 20 30))
       (GalaxyInstance.set_disintegrationTargetCamPos (Some (THREE.Vector3.mk 0 45 180))
          (GalaxyInstance.set_disintegrationDuration 2
             (GalaxyInstance.set_disintegrationAnimationStartTime (Some (Fin 0))
                (GalaxyInstance.set_isDisintegrating true
                   (GalaxyInstance.set_disintegrationTriggerTime (Some (Fin 0))
                      exampleInstance)))))).

(** The mounted component with the multipliers of App.tsx and the given
    galaxies, after the three objects of the example instance were made. *)
Definition exampleWorld (instances : list GalaxyInstance.t) : World.t :=
  World.set_object3DId 3
    (World.set_galaxyInstancesRef instances (ThreeScene.mounted 0.03 0.03)).

(** Draws that are all [u]. *)
Definition constantDraws (u : R) : Rng := fun _ => u.

(** The point number [j] of a position buffer. *)
Definition pointAt (buffer : list num) (j : nat) : option THREE.Vector3.t :=
  match buffer !! (j * 3)%nat, buffer !! (j * 3 + 1)%nat, buffer !! (j * 3 + 2)%nat with
  | Some x, Some y, Some z => Some (THREE.Vector3.mk x y z)
  | _, _, _ => None
  end.

(** Every point of a position buffer satisfies [P]. *)
Definition everyPoint (P : THREE.Vector3.t -> Prop) (buffer : list num) : Prop :=
  forall j : nat,
    (j * 3 + 2 < length buffer)%nat -> exists p, pointAt buffer j = Some p /\ P p.

(** Parameters whose fields, the radius apart, are finite numbers, with at
    least one arm: this is the case of all generated parameters. *)
Definition finiteShape (params : GalaxyParams) : Prop :=
  exists th arms tight width core amp freq dustThick : R,
    thickness params = Fin th
    /\ numArms params = Fin arms /\ (1 <= arms)%R
    /\ armTightness params = Fin tight
    /\ armAngularWidth params = Fin width
    /\ coreRatio params = Fin core
    /\ wobbleAmplitude params = Fin amp
    /\ wobbleFrequency params = Fin freq
    /\ dustThicknessMultiplier params = Fin dustThick.

(** A position all of whose coordinates are finite. *)
Definition finitePosition (p : THREE.Vector3.t) : Prop :=
  exists x y z : R, p = THREE.Vector3.mk (Fin x) (Fin y) (Fin z).

(** The position the builder gives every point of a galaxy of radius 0. *)
Definition degeneratePosition : THREE.Vector3.t := THREE.Vector3.mk (Fin 0) NaN (Fin 0).

(** Parameters for the examples, within the generated ranges, with the
    given radius and star count. *)
Definition exampleParams (radius' numStarPoints' : num) : GalaxyParams :=
  {| radius := radius';
     thickness := (radius' * 0.05)%js;
     numArms := 3;
     armTightness := 0.5;
     armAngularWidth := 1;
     coreRatio := 0.1;
     centerBrightColor := THREE.Color.mk 1 0.9 0.8;
     armBaseColor := THREE.Color.mk 0.3 0.4 0.8;
     armEdgeColor := THREE.Color.mk 0.4 0.5 0.7;
     nebulaColor := THREE.Color.mk 0.9 0.4 0.6;
     nebulaProbability := 0.1;
     starPointSize := 0.02;
     numStarPoints := numStarPoints';
     dustColor := THREE.Color.mk 0.1 0.1 0.1;
     dustNebulaColor := THREE.Color.mk 0.2 0.1 0.1;
     dustNebulaProbability := 0.05;
     dustPointSizeMultiplier := 5;
     dustOpacity := 0.3;
     dustThicknessMultiplier := 1.5;
     wobbleAmplitude := 0.1;
     wobbleFrequency := 2;
     baseArmSpeed := 0.001;
     baseOrbitSpeed := 0.0005 |}.

(** What disposing an instance releases: the geometry and the material of
    its stars and of its dust. *)
Definition disposeEvents (instance : GalaxyInstance.t) : list DisposeEvent :=
  [GeometryDisposed (THREE.Points.id (GalaxyInstance.starSystem instance));
   MaterialDisposed (THREE.Points.id (GalaxyInstance.starSystem instance))]
  ++ match GalaxyInstance.dustSystem instance with
     | Some dust => [GeometryDisposed (THREE.Points.id dust); MaterialDisposed (THREE.Points.id dust)]
     | None => []
     end.

(** An instance as the generation effect places it in a universe of the
    given spread: at a distance between 0.05 and 0.9 times the spread from
    the centre, with a uniform scale between 0.4 and 1.2, neither primed nor
    disintegrating. *)
Definition freshlyPlaced (spread : R) (instance : GalaxyInstance.t) : Prop :=
  (exists x y z r : R,
      THREE.Group.position (GalaxyInstance.group instance) = THREE.Vector3.mk (Fin x) (Fin y) (Fin z)
      /\ R_sqrt.sqrt (x * x + y * y + z * z) = r
      /\ (0.05 * spread <= r <= 0.9 * spread)%R)
  /\ (exists sc : R,
        THREE.Group.scale (GalaxyInstance.group instance) = THREE.Vector3.mk (Fin sc) (Fin sc) (Fin sc)
        /\ (0.4 <= sc <= 1.2)%R)
  /\ GalaxyInstance.disintegrationTriggerTime instance = None
  /\ GalaxyInstance.isDisintegrating instance = false
  /\ GalaxyInstance.disintegrationAnimationStartTime instance = None.

(** [w] after [n] more draws. *)
Definition afterDraws (n : nat) (w : World.t) : World.t :=
  World.set_randomCalls (n + World.randomCalls w) w.

(** A colour whose components are finite and lie in [0, hi]. *)
Definition colorWithin (hi : R) (c : THREE.Color.t) : Prop :=
  exists r g b : R,
    c = THREE.Color.mk (Fin r) (Fin g) (Fin b)
    /\ (0 <= r <= hi)%R /\ (0 <= g <= hi)%R /\ (0 <= b <= hi)%R.

(** The colour number [j] of a colour buffer. *)
Definition colorAt (buffer : list num) (j : nat) : option THREE.Color.t :=
  match buffer !! (j * 3)%nat, buffer !! (j * 3 + 1)%nat, buffer !! (j * 3 + 2)%nat with
  | Some r, Some g, Some b => Some (THREE.Color.mk r g b)
  | _, _, _ => None
  end.

(** Every colour of a colour buffer satisfies [P]. *)
Definition everyColor (P : THREE.Color.t -> Prop) (buffer : list num) : Prop :=
  forall j : nat,
    (j * 3 + 2 < length buffer)%nat -> exists c, colorAt buffer j = Some c /\ P c.

(** A position at the distance [d] from the vertical axis, with |y| at most
    [h]: [lo <= d <= hi]. *)
Definition withinDisc (lo hi h : R) (p : THREE.Vector3.t) : Prop :=
  exists x y z : R,
    p = THREE.Vector3.mk (Fin x) (Fin y) (Fin z)
    /\ (lo <= R_sqrt.sqrt (x * x + z * z) <= hi)%R
    /\ (Rabs y <= h)%R.

(** A position at a distance from the origin between [lo] and [hi]. *)
Definition withinShell (lo hi : R) (p : THREE.Vector3.t) : Prop :=
  exists x y z : R,
    p = THREE.Vector3.mk (Fin x) (Fin y) (Fin z)
    /\ (lo <= R_sqrt.sqrt (x * x + y * y + z * z) <= hi)%R.

(** [primed] is [instance] as the trigger effect leaves it at [triggerTime]:
    a delay from [0, 3000], not disintegrating, nothing else changed. *)
Definition primedAt (triggerTime : num) (instance primed : GalaxyInstance.t) : Prop :=
  exists delay : R,
    (0 <= delay < 3000)%R
    /\ primed
       = GalaxyInstance.set_disintegrationAnimationStartTime None
           (GalaxyInstance.set_isDisintegrating false
              (GalaxyInstance.set_disintegrationDelay (Fin delay)
                 (GalaxyInstance.set_disintegrationTriggerTime (Some triggerTime)
                    instance))).

(** What a frame can change of the looks of an instance besides its
    rotations: the position of the group, the scales and the opacities. *)
Definition looks (instance : GalaxyInstance.t)
    : THREE.Vector3.t * THREE.Vector3.t * num * option (THREE.Vector3.t * num) :=
  (THREE.Group.position (GalaxyInstance.group instance),
   THREE.Points.scale (GalaxyInstance.starSystem instance),
   THREE.PointsMaterial.opacity (THREE.Points.material (GalaxyInstance.starSystem instance)),
   (fun dust => (THREE.Points.scale dust,
                 THREE.PointsMaterial.opacity (THREE.Points.material dust)))
     <$> GalaxyInstance.dustSystem instance).

(** The ids of the objects of an instance: its stars, its dust, its group. *)
Definition objectIds (instance : GalaxyInstance.t) : list nat :=
  THREE.Points.id (GalaxyInstance.starSystem instance)
  :: match GalaxyInstance.dustSystem instance with
     | Some dust => [THREE.Points.id dust]
     | None => []
     end
  ++ [THREE.Group.id (GalaxyInstance.group instance)].

(** What identifies an instance through its life: the ids of its objects,
    its base speeds, its original opacities and its geometries. *)
Definition identity (instance : GalaxyInstance.t)
    : list nat * num * num * num * option num
      * THREE.BufferGeometry.t * option THREE.BufferGeometry.t :=
  (objectIds instance,
   GalaxyInstance.baseOrbitSpeed instance,
   GalaxyInstance.baseArmSpeed instance,
   GalaxyInstance.originalStarMaterialOpacity instance,
   GalaxyInstance.originalDustMaterialOpacity instance,
   THREE.Points.geometry (GalaxyInstance.starSystem instance),
   THREE.Points.geometry <$> GalaxyInstance.dustSystem instance).

(** A dim colour in which blue is the largest and red the smallest
    component. *)
Definition blueDominant (c : THREE.Color.t) : Prop :=
  exists r g b : R,
    c = THREE.Color.mk (Fin r) (Fin g) (Fin b)
    /\ (0.1 <= r <= g)%R /\ (g <= b)%R /\ (b <= 0.6)%R.

(** What [disposePoints] releases of the object a ref holds. *)
Definition pointsEvents (pointsObject : option THREE.Points.t) : list DisposeEvent :=
  match pointsObject with
  | Some p => [GeometryDisposed (THREE.Points.id p); MaterialDisposed (THREE.Points.id p)]
  | None => []
  end.

(** The scene without the object a ref holds. *)
Definition without (pointsObject : option THREE.Points.t) (scene : THREE.Scene.t)
    : THREE.Scene.t :=
  match pointsObject with
  | Some p => THREE.Scene.remove (THREE.Points.id p) scene
  | None => scene
  end.

(** ** Arithmetic of finite numbers *)

Section Finite.
Import JS.
Local Open Scope num_scope.

Lemma Rltb_true (a b : R) : (a < b)%R -> Rltb a b = true.
Proof. intros H. unfold Rltb. destruct (Rlt_dec a b); [reflexivity | contradiction]. Qed.

Lemma Rltb_false (a b : R) : (b <= a)%R -> Rltb a b = false.
Proof. intros H. unfold Rltb. destruct (Rlt_dec a b); [lra | reflexivity]. Qed.

Lemma Rleb_true (a b : R) : (a <= b)%R -> Rleb a b = true.
Proof. intros H. unfold Rleb. destruct (Rle_dec a b); [reflexivity | contradiction]. Qed.

Lemma Rleb_false (a b : R) : (b < a)%R -> Rleb a b = false.
Proof. intros H. unfold Rleb. destruct (Rle_dec a b); [lra | reflexivity]. Qed.

Lemma Reqb_true (a b : R) : a = b -> Reqb a b = true.
Proof. intros H. unfold Reqb. destruct (Req_dec_T a b); [reflexivity | contradiction]. Qed.

Lemma Reqb_false (a b : R) : a <> b -> Reqb a b = false.
Proof. intros H. unfold Reqb. destruct (Req_dec_T a b); [contradiction | reflexivity]. Qed.

Lemma Rltb_spec (a b : R) : Rltb a b = true <-> (a < b)%R.
Proof. unfold Rltb. destruct (Rlt_dec a b); split; intros; try easy. Qed.

Lemma Rleb_spec (a b : R) : Rleb a b = true <-> (a <= b)%R.
Proof. unfold Rleb. destruct (Rle_dec a b); split; intros; try easy. Qed.

Lemma div_Fin (a b : R) : b <> 0%R -> Fin a / Fin b = Fin (a / b).
Proof. intros H. unfold div. rewrite (Reqb_false b 0 H). reflexivity. Qed.

Lemma div_zero_zero (a b : R) : a = 0%R -> b = 0%R -> Fin a / Fin b = NaN.
Proof. intros Ha Hb. unfold div. rewrite (Reqb_true b 0 Hb), (Reqb_true a 0 Ha). reflexivity. Qed.

Lemma min_Fin (a b : R) : Math.min (Fin a) (Fin b) = Fin (Rmin a b).
Proof.
  unfold Math.min, lt, Rltb, Rmin.
  destruct (Rlt_dec b a), (Rle_dec a b); try reflexivity; f_equal; lra.
Qed.

Lemma max_Fin (a b : R) : Math.max (Fin a) (Fin b) = Fin (Rmax a b).
Proof.
  unfold Math.max, lt, Rltb, Rmax.
  destruct (Rlt_dec a b), (Rle_dec a b); try reflexivity; f_equal; lra.
Qed.

Lemma pow_Fin (x y : R) :
  (0 <= x)%R -> (0 < y)%R -> Math.pow (Fin x) (Fin y) = Fin (rpow x y).
Proof.
  intros Hx Hy. unfold Math.pow, Math.pow_fin, rpow.
  rewrite (Reqb_false y 0) by lra.
  destruct (Req_dec_T x 0) as [->|Hne].
  - rewrite (Rltb_false 0 0) by lra. rewrite (Reqb_true 0 0) by reflexivity.
    rewrite (Rltb_true 0 y) by lra. reflexivity.
  - rewrite (Rltb_true 0 x) by lra. reflexivity.
Qed.

Lemma rpow_bounds (x y : R) : (0 <= x < 1)%R -> (0 < y)%R -> (0 <= rpow x y < 1)%R.
Proof.
  intros Hx Hy. unfold rpow. destruct (Req_dec_T x 0) as [->|Hne]; [lra|].
  split.
  - left. apply exp_pos.
  - unfold Rpower. rewrite <- exp_0. apply exp_increasing.
    assert (ln x < 0)%R by (rewrite <- ln_1; apply ln_increasing; lra).
    nra.
Qed.

Lemma acos_Fin (x : R) : (-1 <= x <= 1)%R -> Math.acos (Fin x) = Fin (Ratan.acos x).
Proof.
  intros [H1 H2]. unfold Math.acos.
  rewrite (Rleb_true _ _ H1), (Rleb_true _ _ H2). reflexivity.
Qed.

Lemma floor_bounds (x : R) (a b : Z) :
  (IZR a <= x < IZR b)%R -> (a <= Zfloor x < b)%Z.
Proof.
  intros [Ha Hb]. split.
  - apply Zfloor_lub. exact Ha.
  - apply lt_IZR. pose proof (Zfloor_bound x). lra.
Qed.

Lemma mul_one (a : num) (x : R) : x = 1%R -> a * Fin x = a.
Proof.
  intros ->. destruct a; cbn; unfold scale_inf; try reflexivity.
  - f_equal. lra.
  - rewrite (Reqb_false 1 0) by lra. rewrite (Rltb_false 1 0) by lra. reflexivity.
  - rewrite (Reqb_false 1 0) by lra. rewrite (Rltb_false 1 0) by lra. reflexivity.
Qed.

Lemma lt_not_ge (a b : num) : (a <? b) = true -> (a >=? b) = false.
Proof.
  unfold ge, le, lt. destruct a as [x| | |], b as [y| | |]; try easy.
  intros H. apply Rltb_spec in H. apply Rleb_false. exact H.
Qed.

Lemma disintegrationProgress_Fin (t t0 d : R) :
  d <> 0%R ->
  ThreeScene.disintegrationProgress (Fin t) (Fin t0) (Fin d)
  = Fin (Rmin 1 ((t - t0) / 1000 / d)).
Proof.
  intros Hd. unfold ThreeScene.disintegrationProgress. cbn [sub add neg].
  rewrite div_Fin by lra. rewrite div_Fin by exact Hd. rewrite min_Fin. reflexivity.
Qed.

End Finite.

(** ** Rules for computations *)

Section Rules.
Import JS.
Local Open Scope num_scope.

Lemma wp_ret {A : Type} (a : A) rng w (Q : A -> World.t -> Prop) :
  Q a w -> wp (mret a) rng w Q.
Proof. intros H. exact H. Qed.

Lemma wp_bind {A B : Type} (m : M A) (k : A -> M B) rng w (Q : B -> World.t -> Prop) :
  wp m rng w (fun a w' => wp (k a) rng w' Q) -> wp (m ≫= k) rng w Q.
Proof.
  unfold wp, mbind, M_bind. destruct (m rng w) as [[a w']|e]; intros H; exact H.
Qed.

Lemma wp_mono {A : Type} (m : M A) rng w (P Q : A -> World.t -> Prop) :
  wp m rng w P -> (forall a w', P a w' -> Q a w') -> wp m rng w Q.
Proof.
  unfold wp. destruct (m rng w) as [[a w']|e]; intros H HPQ; [apply HPQ, H | exact H].
Qed.

Lemma wp_result {A : Type} (m : M A) rng w (Q : A -> World.t -> Prop) :
  wp m rng w Q <-> exists a w', m rng w = Normal (a, w') /\ Q a w'.
Proof.
  unfold wp. destruct (m rng w) as [[a w']|e]; split.
  - intros H. exists a, w'. split; [reflexivity | exact H].
  - intros (a0 & w0 & Heq & H). inversion Heq. subst. exact H.
  - intros [].
  - intros (a0 & w0 & Heq & H). discriminate.
Qed.

Lemma wp_get rng w (Q : World.t -> World.t -> Prop) : Q w w -> wp get rng w Q.
Proof. intros H. exact H. Qed.

Lemma wp_modify f rng w (Q : unit -> World.t -> Prop) :
  Q tt (f w) -> wp (modify f) rng w Q.
Proof. intros H. exact H. Qed.

Lemma wp_random rng w (Q : num -> World.t -> Prop) :
  Q (Fin (rng (World.randomCalls w)))
    (World.set_randomCalls (S (World.randomCalls w)) w) ->
  wp Math_random rng w Q.
Proof. intros H. exact H. Qed.

Lemma wp_newObject3D rng w (Q : nat -> World.t -> Prop) :
  Q (World.object3DId w) (World.set_object3DId (S (World.object3DId w)) w) ->
  wp newObject3D rng w Q.
Proof. intros H. exact H. Qed.

Lemma drawsOnly_refl w : drawsOnly w w.
Proof. destruct w. reflexivity. Qed.

Lemma drawsOnly_draw w n : drawsOnly w (World.set_randomCalls n w).
Proof. destruct w. reflexivity. Qed.

Lemma drawsOnly_trans w1 w2 w3 : drawsOnly w1 w2 -> drawsOnly w2 w3 -> drawsOnly w1 w3.
Proof.
  unfold drawsOnly. intros H12 H23. rewrite H23. rewrite H12.
  destruct w1. reflexivity.
Qed.

Lemma drawsOnly_allocOnly w w' : drawsOnly w w' -> allocOnly w w'.
Proof.
  unfold drawsOnly, allocOnly. intros H. rewrite H. destruct w. cbn. split; [reflexivity | lia].
Qed.

Lemma allocOnly_refl w : allocOnly w w.
Proof. apply drawsOnly_allocOnly, drawsOnly_refl. Qed.

Lemma allocOnly_trans w1 w2 w3 : allocOnly w1 w2 -> allocOnly w2 w3 -> allocOnly w1 w3.
Proof.
  unfold allocOnly. intros [H12 L12] [H23 L23]. split; [|lia].
  rewrite H23 at 1. rewrite H12 at 1. destruct w1. reflexivity.
Qed.

(** A draw of [rand(min, max)] between finite bounds in the right order. *)
Lemma wp_rand (lo hi : R) rng w (Q : num -> World.t -> Prop) :
  uniform rng ->
  (lo <= hi)%R ->
  (forall v w', (lo <= v <= hi)%R -> (lo < hi -> v < hi)%R -> drawsOnly w w' ->
                World.randomCalls w' = S (World.randomCalls w) ->
                v = (rng (World.randomCalls w) * (hi - lo) + lo)%R -> Q (Fin v) w') ->
  wp (GalaxyUtils.rand (Fin lo) (Fin hi)) rng w Q.
Proof.
  intros Hu Hle HQ. unfold GalaxyUtils.rand.
  apply wp_bind, wp_random. apply wp_ret. cbn.
  pose proof (Hu (World.randomCalls w)) as Hd.
  apply HQ.
  - nra.
  - intros Hlt. nra.
  - apply drawsOnly_draw.
  - destruct w. reflexivity.
  - unfold Rminus. reflexivity.
Qed.

(** A draw of [randInt(min, max)] between integers. *)
Lemma wp_randInt (lo hi : Z) rng w (Q : num -> World.t -> Prop) :
  uniform rng ->
  (lo <= hi)%Z ->
  (forall k w', (lo <= k <= hi)%Z -> drawsOnly w w' -> Q (Fin (IZR k)) w') ->
  wp (GalaxyUtils.randInt (Fin (IZR lo)) (Fin (IZR hi))) rng w Q.
Proof.
  intros Hu Hle HQ. unfold GalaxyUtils.randInt.
  apply wp_bind. cbn [add].
  apply wp_rand; [exact Hu | apply IZR_le in Hle; lra |].
  intros v w' Hv Hlt Hw _ _. apply wp_ret. cbn [Math.floor].
  apply HQ; [|exact Hw].
  assert (lo <= Zfloor v < hi + 1)%Z; [|lia].
  apply floor_bounds. rewrite plus_IZR. split; [lra|]. apply Hlt.
  apply IZR_le in Hle. lra.
Qed.

(** A draw of any [rand(min, max)] completes. *)
Lemma wp_rand_any (lo hi : num) rng w (Q : num -> World.t -> Prop) :
  (forall v w', drawsOnly w w' -> Q v w') -> wp (GalaxyUtils.rand lo hi) rng w Q.
Proof.
  intros HQ. unfold GalaxyUtils.rand. apply wp_bind, wp_random, wp_ret.
  apply HQ, drawsOnly_draw.
Qed.

Lemma wp_random_any rng w (Q : num -> World.t -> Prop) :
  (forall v w', drawsOnly w w' -> Q v w') -> wp Math_random rng w Q.
Proof. intros HQ. apply wp_random, HQ, drawsOnly_draw. Qed.

Lemma wp_randomHSL_any (h s l : M num) rng w (Q : THREE.Color.t -> World.t -> Prop) :
  (forall w0 P, (forall v w', drawsOnly w0 w' -> P v w') -> wp h rng w0 P) ->
  (forall w0 P, (forall v w', drawsOnly w0 w' -> P v w') -> wp s rng w0 P) ->
  (forall w0 P, (forall v w', drawsOnly w0 w' -> P v w') -> wp l rng w0 P) ->
  (forall c w', drawsOnly w w' -> Q c w') ->
  wp (GalaxyUtils.randomHSL h s l) rng w Q.
Proof.
  intros Hh Hs Hl HQ. unfold GalaxyUtils.randomHSL.
  apply wp_bind, Hh. intros h' w1 H1.
  apply wp_bind, Hs. intros s' w2 H2.
  apply wp_bind, Hl. intros l' w3 H3.
  apply wp_ret, HQ. eauto using drawsOnly_trans.
Qed.

Lemma wp_of_eq {A : Type} (m : M A) rng w a w' (Q : A -> World.t -> Prop) :
  m rng w = Normal (a, w') -> Q a w' -> wp m rng w Q.
Proof. intros Heq H. unfold wp. rewrite Heq. exact H. Qed.

(** [mapM] visits the elements in order; [I] holds of the world between the
    visits and [P] relates an element to its result. *)
Lemma wp_mapM {A B : Type} (f : A -> M B) (l : list A) rng w
    (I : World.t -> Prop) (P : A -> B -> Prop) :
  I w ->
  (forall a w0, In a l -> I w0 -> wp (f a) rng w0 (fun b w1 => P a b /\ I w1)) ->
  wp (mapM f l) rng w (fun bs w' => Forall2 P l bs /\ I w').
Proof.
  revert w. induction l as [|a l IH]; intros w HI Hf.
  - apply wp_ret. split; [constructor | exact HI].
  - cbn [mapM]. apply wp_bind.
    eapply wp_mono; [apply (Hf a w); [left; reflexivity | exact HI]|].
    intros b w1 [HP HI1]. apply wp_bind.
    eapply wp_mono; [apply (IH w1 HI1); intros a0 w0 Hin; apply Hf; right; exact Hin|].
    intros bs w2 [HF HI2]. apply wp_ret. split; [constructor; assumption | exact HI2].
Qed.

Lemma Forall2_In_l {A B : Type} (P : A -> B -> Prop) (l : list A) (bs : list B) (a : A) :
  Forall2 P l bs -> In a l -> exists b, In b bs /\ P a b.
Proof.
  induction 1 as [|x y l bs Hxy HF IH]; intros Hin; [destruct Hin|].
  destruct Hin as [->|Hin].
  - exists y. split; [left; reflexivity | exact Hxy].
  - destruct (IH Hin) as (b & Hb & HP). exists b. split; [right; exact Hb | exact HP].
Qed.

(** The rule of the [for] loop, with an invariant over the loop variable,
    the loop state and the world. *)
Lemma wp_forLoop {S : Type} (n from : nat) (body : nat -> S -> M S) (s : S) rng w
    (I : nat -> S -> World.t -> Prop) (Q : S -> World.t -> Prop) :
  I from s w ->
  (forall i s0 w0, (from <= i < from + n)%nat -> I i s0 w0 ->
                   wp (body i s0) rng w0 (fun s1 w1 => I (Datatypes.S i) s1 w1)) ->
  (forall s' w', I (from + n)%nat s' w' -> Q s' w') ->
  wp (forLoop n from body s) rng w Q.
Proof.
  revert from s w. induction n as [|n IH]; intros from s w HI Hbody HQ.
  - apply wp_ret, HQ. rewrite Nat.add_0_r. exact HI.
  - cbn [forLoop]. apply wp_bind.
    eapply wp_mono; [apply Hbody; [lia | exact HI]|].
    intros s1 w1 HI1. apply IH.
    + exact HI1.
    + intros i s0 w0 Hi. apply Hbody. lia.
    + intros s' w' H. apply HQ. replace (from + Datatypes.S n)%nat with (Datatypes.S from + n)%nat by lia.
      exact H.
Qed.

Lemma drawsOnly_object3DId w w' :
  drawsOnly w w' -> World.object3DId w' = World.object3DId w.
Proof. unfold drawsOnly. intros ->. destruct w. reflexivity. Qed.

Lemma allocOnly_newObject w :
  allocOnly w (World.set_object3DId (S (World.object3DId w)) w).
Proof. unfold allocOnly. destruct w. cbn. split; [reflexivity | lia]. Qed.

(** A draw, as a finite number in [0, 1). *)
Lemma wp_random_uniform rng w (Q : num -> World.t -> Prop) :
  uniform rng ->
  (forall (u : R) w', (0 <= u < 1)%R -> drawsOnly w w' -> Q (Fin u) w') ->
  wp Math_random rng w Q.
Proof. intros Hu HQ. apply wp_random, HQ; [apply Hu | apply drawsOnly_draw]. Qed.

End Rules.

(** ** The parameter generator *)

Section ParameterGenerator.
Import JS GalaxyUtils.
Local Open Scope num_scope.

Ltac any_draw :=
  let w0 := fresh "w0" in
  let P := fresh "P" in
  let HP := fresh "HP" in
  intros w0 P HP;
  first
    [ apply wp_rand_any; exact HP
    | apply wp_random_any; exact HP
    | apply wp_ret, HP, drawsOnly_refl
    | apply wp_bind, wp_rand_any; intros; apply wp_ret, HP; assumption ].

Ltac chain :=
  match goal with
  | Hw : drawsOnly ?w ?w1, Hs : drawsOnly ?w1 ?w2 |- _ =>
      let H := fresh "Hw" in
      pose proof (drawsOnly_trans _ _ _ Hw Hs) as H; clear Hw Hs
  end.

Ltac skip_draw :=
  apply wp_bind;
  first
    [ apply wp_rand_any; intros ? ? ?
    | apply wp_random_any; intros ? ? ?
    | apply wp_randomHSL_any; [any_draw | any_draw | any_draw | intros ? ? ?] ];
  chain.

(** What the generator guarantees about the fields the builder divides by or
    counts with. *)
Lemma generated_params (universeRadius : R) rng w (Q : GalaxyParams -> World.t -> Prop) :
  uniform rng ->
  (0 < universeRadius)%R ->
  (forall params w' (r p q : R) (arms points : Z),
      radius params = Fin r ->
      (0 < r)%R -> (0.02 * universeRadius <= r <= 0.08 * universeRadius)%R ->
      nebulaProbability params = Fin p -> (0.05 <= p <= 0.25)%R ->
      dustNebulaProbability params = Fin q -> (0.02 <= q <= 0.1)%R ->
      numArms params = Fin (IZR arms) -> (2 <= arms <= 5)%Z ->
      numStarPoints params = Fin (IZR points) -> (4000 <= points <= 12000)%Z ->
      drawsOnly w w' ->
      Q params w') ->
  wp (generateRandomGalaxyParameters (Fin universeRadius)) rng w Q.
Proof.
  intros Hu HR HQ. unfold generateRandomGalaxyParameters. cbn [mul].
  pose proof (drawsOnly_refl w) as Hw.
  apply wp_bind, wp_rand; [exact Hu | lra |].
  intros r w1 Hr _ Hw1 _ _. chain.
  do 3 skip_draw.
  apply wp_bind, (wp_randInt 2 5); [exact Hu | lia |]. intros arms w2 Harms ?. chain.
  do 7 skip_draw.
  apply wp_bind, wp_rand; [exact Hu | lra |]. intros p w3 Hp _ ? _ _. chain.
  skip_draw.
  apply wp_bind, (wp_randInt 4000 12000); [exact Hu | lia |]. intros points w4 Hpoints ?. chain.
  do 2 skip_draw.
  apply wp_bind, wp_rand; [exact Hu | lra |]. intros q w5 Hq _ ? _ _. chain.
  do 7 skip_draw.
  apply wp_ret.
  apply (HQ _ _ r p q arms points); cbn; try reflexivity; try lra; try lia; try assumption.
Qed.



End ParameterGenerator.

(** ** The frame loop *)

Section FrameLoop.
Import JS THREE GalaxyUtils ThreeScene.
Local Open Scope num_scope.

(** The rotation substep completes; it changes the three rotations about
    the vertical axis by the amounts of lines 123-126 and draws the jitter
    of the dust. *)
Lemma rotationSubstep_result (instance : GalaxyInstance.t) rng w :
  let orbit := World.galaxyOrbitSpeedMultiplierRefCurrent w in
  let arm := World.armInternalSpeedMultiplierRefCurrent w in
  let jitter := Fin (rng (World.randomCalls w)) * (1.1 - 0.9) + 0.9 in
  let gy := Euler.y (Group.rotation (GalaxyInstance.group instance))
            + GalaxyInstance.baseOrbitSpeed instance * orbit * 100 in
  let sy := Euler.y (Points.rotation (GalaxyInstance.starSystem instance))
            + GalaxyInstance.baseArmSpeed instance * arm * 100 in
  let dy := (fun dust : Points.t =>
               Euler.y (Points.rotation dust)
               + GalaxyInstance.baseArmSpeed instance * arm * 100 * jitter)
            <$> GalaxyInstance.dustSystem instance in
  exists w',
    rotationSubstep instance rng w = Normal (withRotationY gy sy dy instance, w')
    /\ drawsOnly w w'.
Proof.
  intros orbit arm jitter gy sy dy.
  unfold rotationSubstep. destruct instance as [g bo ba star dust tt dl dis st du tg ini sf os od].
  destruct dust as [dust|].
  - eexists. split; [reflexivity | apply drawsOnly_draw].
  - exists w. split; [reflexivity | apply drawsOnly_refl].
Qed.

Lemma withRotationY_twice gy sy dy gy' sy' dy' (instance : GalaxyInstance.t) :
  exists dy'',
    withRotationY gy' sy' dy' (withRotationY gy sy dy instance)
    = withRotationY gy' sy' dy'' instance.
Proof.
  destruct instance as [g bo ba star dust tt dl dis st du tg ini sf os od].
  destruct dust as [dust|], dy as [v|], dy' as [v'|];
    try (exists None; reflexivity); try (exists (Some v'); reflexivity).
  exists (Some v). reflexivity.
Qed.

Lemma withRotationY_same (instance : GalaxyInstance.t) :
  withRotationY (Euler.y (Group.rotation (GalaxyInstance.group instance)))
    (Euler.y (Points.rotation (GalaxyInstance.starSystem instance))) None instance
  = instance.
Proof.
  destruct instance as [[gid gp [gx gy gz] gs gc] bo ba [sid sg sm [sx sy sz] ss]
                          dust tt dl dis st du tg ini sf os od].
  destruct dust; reflexivity.
Qed.

(** An instance that is not primed or is already disintegrating passes the
    primed substep unchanged. *)
Lemma primedSubstep_idle now (instance : GalaxyInstance.t) rng w :
  GalaxyInstance.disintegrationTriggerTime instance = None
  \/ GalaxyInstance.isDisintegrating instance = true ->
  primedSubstep now instance rng w = Normal (instance, w).
Proof.
  unfold primedSubstep. intros [H|H]; rewrite H.
  - reflexivity.
  - destruct (GalaxyInstance.disintegrationTriggerTime instance); reflexivity.
Qed.

Lemma primedSubstep_waiting now (instance : GalaxyInstance.t) triggerTime rng w :
  GalaxyInstance.disintegrationTriggerTime instance = Some triggerTime ->
  GalaxyInstance.isDisintegrating instance = false ->
  (now >=? triggerTime + GalaxyInstance.disintegrationDelay instance) = false ->
  primedSubstep now instance rng w = Normal (instance, w).
Proof. unfold primedSubstep. intros -> -> ->. reflexivity. Qed.

Lemma primedSubstep_due now (instance : GalaxyInstance.t) triggerTime rng w :
  GalaxyInstance.disintegrationTriggerTime instance = Some triggerTime ->
  GalaxyInstance.isDisintegrating instance = false ->
  (now >=? triggerTime + GalaxyInstance.disintegrationDelay instance) = true ->
  primedSubstep now instance rng w = startDisintegration now instance rng w.
Proof. unfold primedSubstep. intros -> -> ->. reflexivity. Qed.

(** A frame of an instance that is neither primed nor disintegrating, or
    that is primed and whose delay has not passed: only the rotations
    change. *)
Lemma animateInstance_rotation_only now (instance : GalaxyInstance.t) rng w :
  GalaxyInstance.isDisintegrating instance = false ->
  (forall triggerTime,
      GalaxyInstance.disintegrationTriggerTime instance = Some triggerTime ->
      (now >=? triggerTime + GalaxyInstance.disintegrationDelay instance) = false) ->
  exists gy sy dy w',
    animateInstance now instance rng w
    = Normal ((withRotationY gy sy dy instance, true), w')
    /\ drawsOnly w w'.
Proof.
  intros Hdis Hwait.
  destruct (rotationSubstep_result instance rng w) as (w' & Hrot & Hw).
  cbv zeta in Hrot. eexists _, _, _, w'. split; [|exact Hw].
  unfold animateInstance, mbind, M_bind. rewrite Hrot.
  match goal with |- context [primedSubstep now ?i rng w'] => set (i1 := i) end.
  assert (Hp : primedSubstep now i1 rng w' = Normal (i1, w')).
  { destruct (GalaxyInstance.disintegrationTriggerTime instance) as [triggerTime|] eqn:Htt.
    - apply (primedSubstep_waiting _ _ triggerTime); [exact Htt | exact Hdis |].
      apply Hwait. reflexivity.
    - apply primedSubstep_idle. left. exact Htt. }
  rewrite Hp. unfold disintegratingSubstep.
  change (GalaxyInstance.isDisintegrating i1) with (GalaxyInstance.isDisintegrating instance).
  rewrite Hdis. reflexivity.
Qed.

Lemma wp_sceneRemove object rng w (Q : unit -> World.t -> Prop) :
  Q tt (World.set_sceneRef (Scene.remove object <$> World.sceneRef w) w) ->
  wp (sceneRemove object) rng w Q.
Proof. intros H. exact H. Qed.

Lemma wp_disposePoints p rng w (Q : unit -> World.t -> Prop) :
  Q tt (World.set_sceneRef (Scene.remove (Points.id p) <$> World.sceneRef w)
          (World.set_disposeLog
             ((World.disposeLog w ++ [GeometryDisposed (Points.id p)])
              ++ [MaterialDisposed (Points.id p)]) w)) ->
  wp (disposePoints (Some p)) rng w Q.
Proof. intros H. exact H. Qed.

Lemma disposeInstance_total (instance : GalaxyInstance.t) rng w :
  exists w', disposeInstance instance rng w = Normal (tt, w').
Proof.
  unfold disposeInstance. destruct (GalaxyInstance.dustSystem instance); eexists; reflexivity.
Qed.

Lemma startDisintegration_total now (instance : GalaxyInstance.t) rng w :
  exists i' w', startDisintegration now instance rng w = Normal (i', w').
Proof.
  unfold startDisintegration.
  destruct instance as [g bo ba star dust tt dl dis st du tg ini sf os od].
  destruct dust as [dust|], od as [od|]; eexists _, _; reflexivity.
Qed.

(** A frame of an instance always completes. *)
Lemma animateInstance_total now (instance : GalaxyInstance.t) rng w :
  exists r w', animateInstance now instance rng w = Normal (r, w').
Proof.
  destruct (rotationSubstep_result instance rng w) as (w1 & Hrot & _).
  cbv zeta in Hrot. unfold animateInstance, mbind, M_bind. rewrite Hrot.
  match goal with |- context [primedSubstep now ?i rng w1] => set (i1 := i) end.
  assert (Hp : exists i2 w2, primedSubstep now i1 rng w1 = Normal (i2, w2)).
  { unfold primedSubstep.
    destruct (GalaxyInstance.disintegrationTriggerTime i1);
      [|eexists _, _; reflexivity].
    destruct (negb (GalaxyInstance.isDisintegrating i1));
      [|eexists _, _; reflexivity].
    destruct (now >=? _); [apply startDisintegration_total | eexists _, _; reflexivity]. }
  destruct Hp as (i2 & w2 & ->).
  unfold disintegratingSubstep.
  destruct (GalaxyInstance.isDisintegrating i2); [|eexists _, _; reflexivity].
  destruct (GalaxyInstance.disintegrationAnimationStartTime i2); [|eexists _, _; reflexivity].
  destruct (_ >=? 1); [|eexists _, _; reflexivity].
  destruct (disposeInstance_total i2 rng w2) as (w3 & Hd).
  unfold mbind, M_bind. rewrite Hd. eexists _, _; reflexivity.
Qed.

(** C10: a frame of an instance that is neither primed nor disintegrating
    changes nothing but the rotation about the vertical axis of its group,
    its stars and its dust (position, scales, opacities, geometry and every
    disintegration field stay), changes nothing of the world but the count of
    draws, and keeps the instance in the collection. *)
Theorem active_instance_frame (now : num) (instance : GalaxyInstance.t)
    (rng : Rng) (w : World.t) :
  GalaxyInstance.disintegrationTriggerTime instance = None ->
  GalaxyInstance.isDisintegrating instance = false ->
  (exists gy sy dy w',
      animateInstance now instance rng w
      = Normal ((withRotationY gy sy dy instance, true), w')
      /\ drawsOnly w w')
  /\ (In instance (World.galaxyInstancesRef w) ->
      exists gy sy dy w',
        animate now rng w = Normal (tt, w')
        /\ In (withRotationY gy sy dy instance) (World.galaxyInstancesRef w')).
Proof.
  intros Htt Hdis.
  assert (Hone : forall (a : GalaxyInstance.t) w0,
             GalaxyInstance.disintegrationTriggerTime a = None ->
             GalaxyInstance.isDisintegrating a = false ->
             exists gy sy dy w',
               animateInstance now a rng w0 = Normal ((withRotationY gy sy dy a, true), w')
               /\ drawsOnly w0 w').
  { intros a w0 Ha Hb. apply animateInstance_rotation_only; [exact Hb|].
    intros triggerTime H. rewrite Ha in H. discriminate. }
  split; [apply Hone; assumption|].
  intros Hin.
  assert (Hwp : wp (animate now) rng w (fun _ w' =>
            exists gy sy dy, In (withRotationY gy sy dy instance)
                               (World.galaxyInstancesRef w'))).
  { unfold animate. apply wp_bind, wp_get. apply wp_bind.
    eapply wp_mono.
    - apply (wp_mapM (animateInstance now) _ rng w (fun _ => True)
               (fun a b =>
                  GalaxyInstance.disintegrationTriggerTime a = None ->
                  GalaxyInstance.isDisintegrating a = false ->
                  exists gy sy dy, b = (withRotationY gy sy dy a, true)));
        [exact I|].
      intros a w0 _ _.
      destruct (GalaxyInstance.disintegrationTriggerTime a) as [triggerTime|] eqn:Ha;
        [|destruct (GalaxyInstance.isDisintegrating a) eqn:Hb].
      + destruct (animateInstance_total now a rng w0) as (r & w' & Heq).
        eapply wp_of_eq; [exact Heq|]. split; [|exact I]. intros H. discriminate.
      + destruct (animateInstance_total now a rng w0) as (r & w' & Heq).
        eapply wp_of_eq; [exact Heq|]. split; [|exact I]. intros _ H. discriminate.
      + destruct (Hone a w0 Ha Hb) as (gy & sy & dy & w' & Heq & _).
        eapply wp_of_eq; [exact Heq|]. split; [|exact I].
        intros _ _. exists gy, sy, dy. reflexivity.
    - intros visited w' [HF _]. apply wp_modify.
      destruct (Forall2_In_l _ _ _ _ HF Hin) as (b & Hb & HP).
      destruct (HP Htt Hdis) as (gy & sy & dy & ->).
      exists gy, sy, dy. destruct w'. cbn. unfold stillActiveGalaxies.
      apply in_map_iff. exists (withRotationY gy sy dy instance, true).
      split; [reflexivity|]. apply filter_In. split; [exact Hb | reflexivity]. }
  apply wp_result in Hwp. destruct Hwp as ([] & w' & Heq & gy & sy & dy & H).
  exists gy, sy, dy, w'. split; [exact Heq | exact H].
Qed.

Ltac frame_cbn :=
  cbn -[JS.add JS.sub JS.mul JS.div JS.lt JS.le JS.gt JS.ge Math.min
        disintegrationProgress scaleProgress fadedOpacity Vector3.lerpVectors].

(** The opacity formula at the three progress values the specification
    names. *)
Lemma fadedOpacity_values (o : R) :
  fadedOpacity (Fin o) (Fin 0) = Fin o
  /\ fadedOpacity (Fin o) (Fin 0.5) = Fin (0.75 * o)
  /\ fadedOpacity (Fin o) (Fin 1) = Fin 0.
Proof. unfold fadedOpacity. cbn. repeat split; f_equal; lra. Qed.

(** The fields of an instance a frame below the threshold leaves alone. *)
Lemma withRotationY_fields gy sy dy (instance : GalaxyInstance.t) :
  let i' := withRotationY gy sy dy instance in
  GalaxyInstance.disintegrationTriggerTime i'
  = GalaxyInstance.disintegrationTriggerTime instance
  /\ GalaxyInstance.disintegrationDelay i' = GalaxyInstance.disintegrationDelay instance
  /\ GalaxyInstance.isDisintegrating i' = GalaxyInstance.isDisintegrating instance
  /\ Group.position (GalaxyInstance.group i')
     = Group.position (GalaxyInstance.group instance)
  /\ GalaxyInstance.originalStarMaterialOpacity i'
     = GalaxyInstance.originalStarMaterialOpacity instance
  /\ GalaxyInstance.originalDustMaterialOpacity i'
     = GalaxyInstance.originalDustMaterialOpacity instance
  /\ (GalaxyInstance.dustSystem i' = None <-> GalaxyInstance.dustSystem instance = None).
Proof.
  destruct instance as [g bo ba star dust tt dl dis st du tg ini sf os od].
  destruct dust as [dust|], dy as [v|]; cbn; repeat split; intros; congruence.
Qed.

(** The disintegrating substep below progress 1. *)
Lemma disintegratingSubstep_running now (instance : GalaxyInstance.t) startTime rng w :
  GalaxyInstance.isDisintegrating instance = true ->
  GalaxyInstance.disintegrationAnimationStartTime instance = Some startTime ->
  (disintegrationProgress now startTime (GalaxyInstance.disintegrationDuration instance)
   >=? 1) = false ->
  disintegratingSubstep now instance rng w
  = Normal ((applyProgress
               (disintegrationProgress now startTime
                  (GalaxyInstance.disintegrationDuration instance)) instance, true), w).
Proof. unfold disintegratingSubstep. intros -> -> ->. reflexivity. Qed.

(** The disintegrating substep at progress 1 or above: the instance is
    disposed and leaves the collection. *)
Lemma disintegratingSubstep_finished now (instance : GalaxyInstance.t) startTime rng w :
  GalaxyInstance.isDisintegrating instance = true ->
  GalaxyInstance.disintegrationAnimationStartTime instance = Some startTime ->
  (disintegrationProgress now startTime (GalaxyInstance.disintegrationDuration instance)
   >=? 1) = true ->
  exists w', disintegratingSubstep now instance rng w = Normal ((instance, false), w').
Proof.
  unfold disintegratingSubstep. intros -> -> ->.
  destruct (disposeInstance_total instance rng w) as (w' & Hd).
  exists w'. unfold mbind, M_bind. rewrite Hd. reflexivity.
Qed.

(** What [applyProgress] sets. *)
Lemma applyProgress_fields progress (instance : GalaxyInstance.t) initial target :
  GalaxyInstance.disintegrationInitialGroupPos instance = Some initial ->
  GalaxyInstance.disintegrationTargetCamPos instance = Some target ->
  let instance' := applyProgress progress instance in
  let s := scaleProgress progress (GalaxyInstance.disintegrationRandomScaleFactor instance) in
  Group.position (GalaxyInstance.group instance')
  = Vector3.lerpVectors initial target progress
  /\ Points.scale (GalaxyInstance.starSystem instance') = Vector3.mk s s s
  /\ PointsMaterial.opacity (Points.material (GalaxyInstance.starSystem instance'))
     = fadedOpacity (GalaxyInstance.originalStarMaterialOpacity instance) progress
  /\ match GalaxyInstance.dustSystem instance with
     | None => GalaxyInstance.dustSystem instance' = None
     | Some _ =>
         exists dust',
           GalaxyInstance.dustSystem instance' = Some dust'
           /\ Points.scale dust' = Vector3.mk s s s
           /\ forall original,
                GalaxyInstance.originalDustMaterialOpacity instance = Some original ->
                PointsMaterial.opacity (Points.material dust')
                = fadedOpacity original progress
     end.
Proof.
  destruct instance as [g bo ba star dust tt dl dis st du tg ini sf os od].
  cbn [GalaxyInstance.disintegrationInitialGroupPos
       GalaxyInstance.disintegrationTargetCamPos].
  intros -> ->. unfold applyProgress.
  destruct dust as [dust|], od as [od|]; frame_cbn;
    (split; [reflexivity|]); (split; [reflexivity|]); (split; [reflexivity|]);
    try reflexivity;
    (eexists; split; [reflexivity|]; split; [reflexivity|]); intros original [=].
  subst. reflexivity.
Qed.

(** The frame of a disintegrating instance whose progress is below 1. *)
Lemma animateInstance_disintegrating (now startTime : num) (initial target : Vector3.t)
    (instance : GalaxyInstance.t) (rng : Rng) (w : World.t) :
  GalaxyInstance.isDisintegrating instance = true ->
  GalaxyInstance.disintegrationAnimationStartTime instance = Some startTime ->
  GalaxyInstance.disintegrationInitialGroupPos instance = Some initial ->
  GalaxyInstance.disintegrationTargetCamPos instance = Some target ->
  let progress :=
    Math.min 1 (((now - startTime) / 1000)
                / GalaxyInstance.disintegrationDuration instance) in
  (progress <? 1) = true ->
  exists instance' w',
    animateInstance now instance rng w = Normal ((instance', true), w')
    /\ Group.position (GalaxyInstance.group instance')
       = Vector3.lerpVectors initial target progress
    /\ (let s := 1 + progress * GalaxyInstance.disintegrationRandomScaleFactor instance in
        Points.scale (GalaxyInstance.starSystem instance') = Vector3.mk s s s
        /\ match GalaxyInstance.dustSystem instance with
           | None => GalaxyInstance.dustSystem instance' = None
           | Some _ =>
               exists dust',
                 GalaxyInstance.dustSystem instance' = Some dust'
                 /\ Points.scale dust' = Vector3.mk s s s
                 /\ forall original,
                      GalaxyInstance.originalDustMaterialOpacity instance = Some original ->
                      PointsMaterial.opacity (Points.material dust')
                      = original * (1 - progress * progress)
           end)
    /\ PointsMaterial.opacity (Points.material (GalaxyInstance.starSystem instance'))
       = GalaxyInstance.originalStarMaterialOpacity instance * (1 - progress * progress)
    /\ (forall o : R,
          fadedOpacity (Fin o) (Fin 0) = Fin o
          /\ fadedOpacity (Fin o) (Fin 0.5) = Fin (0.75 * o)
          /\ fadedOpacity (Fin o) (Fin 1) = Fin 0).
Proof.
  intros Hdis Hstart Hini Htgt progress Hlt.
  apply lt_not_ge in Hlt.
  destruct (rotationSubstep_result instance rng w) as (w1 & Hrot & _).
  cbv zeta in Hrot.
  match type of Hrot with _ = Normal (?i, _) => set (rotated := i) in * end.
  assert (Hrun : animateInstance now instance rng w
                 = Normal ((applyProgress progress rotated, true), w1)).
  { unfold animateInstance. unfold mbind at 1. unfold M_bind at 1. rewrite Hrot.
    unfold mbind, M_bind.
    rewrite primedSubstep_idle by (right; exact Hdis).
    apply (disintegratingSubstep_running now rotated startTime);
      [exact Hdis | exact Hstart | exact Hlt]. }
  exists (applyProgress progress rotated), w1. split; [exact Hrun|].
  destruct (applyProgress_fields progress rotated initial target Hini Htgt)
    as (Hpos & Hscale & Hop & Hdust).
  split; [exact Hpos|]. split; [|split; [exact Hop | apply fadedOpacity_values]].
  split; [exact Hscale|].
  unfold rotated in Hdust.
  destruct (withRotationY_fields
              (Euler.y (Group.rotation (GalaxyInstance.group instance))
               + GalaxyInstance.baseOrbitSpeed instance
                 * World.galaxyOrbitSpeedMultiplierRefCurrent w * 100)
              (Euler.y (Points.rotation (GalaxyInstance.starSystem instance))
               + GalaxyInstance.baseArmSpeed instance
                 * World.armInternalSpeedMultiplierRefCurrent w * 100)
              ((fun dust : Points.t =>
                  Euler.y (Points.rotation dust)
                  + GalaxyInstance.baseArmSpeed instance
                    * World.armInternalSpeedMultiplierRefCurrent w * 100
                    * (Fin (rng (World.randomCalls w)) * (1.1 - 0.9) + 0.9))
               <$> GalaxyInstance.dustSystem instance) instance)
    as (_ & _ & _ & _ & _ & _ & Hnone).
  cbv zeta in Hnone. fold rotated in Hnone, Hdust.
  destruct (GalaxyInstance.dustSystem instance) as [dust|] eqn:Hd.
  - destruct (GalaxyInstance.dustSystem rotated) as [rdust|] eqn:Hrd.
    + exact Hdust.
    + destruct Hnone as [Hnone _]. specialize (Hnone eq_refl). discriminate.
  - destruct Hnone as [_ Hnone]. rewrite (Hnone eq_refl) in Hdust. exact Hdust.
Qed.




Lemma claimedProgress_Fin (t t0 d : R) :
  d <> 0%R ->
  claimedProgress (Fin t) (Fin t0) (Fin d) = Fin (Rmin 1 ((t - t0) / d)).
Proof.
  intros Hd. unfold claimedProgress. cbn [sub add neg].
  rewrite div_Fin by exact Hd. rewrite min_Fin. reflexivity.
Qed.

(** C3: for a start time and a positive duration, the progress does not
    decrease as the time of the frame grows, and it is exactly 1 from the
    time [startTime + duration * 1000] milliseconds on, that is, within
    [duration] seconds; the same holds of the progress read without the
    conversion of the milliseconds. *)
Theorem progress_monotone_and_complete (startTime duration : R) :
  (0 < duration)%R ->
  (forall t1 t2 : R,
      (t1 <= t2)%R ->
      exists p1 p2 : R,
        disintegrationProgress (Fin t1) (Fin startTime) (Fin duration) = Fin p1
        /\ disintegrationProgress (Fin t2) (Fin startTime) (Fin duration) = Fin p2
        /\ (p1 <= p2)%R)
  /\ (forall t : R,
        (startTime + duration * 1000 <= t)%R ->
        disintegrationProgress (Fin t) (Fin startTime) (Fin duration) = Fin 1)
  /\ (forall t1 t2 : R,
        (t1 <= t2)%R ->
        exists p1 p2 : R,
          claimedProgress (Fin t1) (Fin startTime) (Fin duration) = Fin p1
          /\ claimedProgress (Fin t2) (Fin startTime) (Fin duration) = Fin p2
          /\ (p1 <= p2)%R)
  /\ (forall t : R,
        (startTime + duration * 1000 <= t)%R ->
        claimedProgress (Fin t) (Fin startTime) (Fin duration) = Fin 1).
Proof.
  intros Hd. assert (Hinv : (0 < / duration)%R) by (apply Rinv_0_lt_compat; exact Hd).
  split; [|split; [|split]].
  - intros t1 t2 Hle. eexists _, _.
    split; [apply disintegrationProgress_Fin; lra|].
    split; [apply disintegrationProgress_Fin; lra|].
    assert ((t1 - startTime) / 1000 / duration <= (t2 - startTime) / 1000 / duration)%R.
    { unfold Rdiv. apply Rmult_le_compat_r; [lra|]. lra. }
    unfold Rmin. repeat destruct (Rle_dec _ _); lra.
  - intros t Ht. rewrite disintegrationProgress_Fin by lra. f_equal.
    apply Rmin_left. unfold Rdiv.
    replace 1%R with (duration * / duration)%R by (apply Rinv_r; lra).
    apply Rmult_le_compat_r; lra.
  - intros t1 t2 Hle. eexists _, _.
    split; [apply claimedProgress_Fin; lra|].
    split; [apply claimedProgress_Fin; lra|].
    assert ((t1 - startTime) / duration <= (t2 - startTime) / duration)%R.
    { unfold Rdiv. apply Rmult_le_compat_r; [lra|]. lra. }
    unfold Rmin. repeat destruct (Rle_dec _ _); lra.
  - intros t Ht. rewrite claimedProgress_Fin by lra. f_equal.
    apply Rmin_left. unfold Rdiv.
    replace 1%R with (duration * / duration)%R by (apply Rinv_r; lra).
    apply Rmult_le_compat_r; [lra | nra].
Qed.

Lemma progress_monotone_and_complete_witness :
  (forall t1 t2 : R,
      (t1 <= t2)%R ->
      exists p1 p2 : R,
        disintegrationProgress (Fin t1) (Fin 500) (Fin 2) = Fin p1
        /\ disintegrationProgress (Fin t2) (Fin 500) (Fin 2) = Fin p2
        /\ (p1 <= p2)%R)
  /\ (forall t : R,
        (500 + 2 * 1000 <= t)%R ->
        disintegrationProgress (Fin t) (Fin 500) (Fin 2) = Fin 1).
Proof.
  destruct (progress_monotone_and_complete 500 2) as (Hmono & Hdone & _).
  - lra.
  - split; [exact Hmono | exact Hdone].
Defined.

Lemma rotationsY_withRotationY gy sy dy (instance : GalaxyInstance.t) :
  rotationsY (withRotationY gy sy dy instance)
  = (gy, sy,
     match GalaxyInstance.dustSystem instance, dy with
     | Some _, Some v => Some v
     | Some dust, None => Some (Euler.y (Points.rotation dust))
     | None, _ => None
     end).
Proof.
  destruct instance as [g bo ba star dust tt dl dis st du tg ini sf os od].
  destruct dust as [dust|], dy as [v|]; reflexivity.
Qed.

Lemma applyProgress_rotationsY progress (instance : GalaxyInstance.t) :
  rotationsY (applyProgress progress instance) = rotationsY instance.
Proof.
  destruct instance as [g bo ba star dust tt dl dis st du tg ini sf os od].
  destruct dust as [dust|], od as [od|], tg as [tg|], ini as [ini|]; reflexivity.
Qed.

Lemma startDisintegration_rotationsY now (instance : GalaxyInstance.t) rng w :
  exists i' w',
    startDisintegration now instance rng w = Normal (i', w')
    /\ rotationsY i' = rotationsY instance.
Proof.
  unfold startDisintegration.
  destruct instance as [g bo ba star dust tt dl dis st du tg ini sf os od].
  destruct dust as [dust|], od as [od|]; eexists _, _; split; reflexivity.
Qed.

(** The substeps after the rotation leave the rotations alone. *)
Lemma after_rotation_rotationsY now (instance : GalaxyInstance.t) rng w :
  exists i' keep w',
    (primedSubstep now instance ≫= disintegratingSubstep now) rng w
    = Normal ((i', keep), w')
    /\ rotationsY i' = rotationsY instance.
Proof.
  assert (Hp : exists i2 w2, primedSubstep now instance rng w = Normal (i2, w2)
                             /\ rotationsY i2 = rotationsY instance).
  { unfold primedSubstep.
    destruct (GalaxyInstance.disintegrationTriggerTime instance);
      [|eexists _, _; split; reflexivity].
    destruct (negb (GalaxyInstance.isDisintegrating instance));
      [|eexists _, _; split; reflexivity].
    destruct (now >=? _);
      [apply startDisintegration_rotationsY | eexists _, _; split; reflexivity]. }
  destruct Hp as (i2 & w2 & Hp & Hr). unfold mbind, M_bind. rewrite Hp. rewrite <- Hr.
  unfold disintegratingSubstep.
  destruct (GalaxyInstance.isDisintegrating i2); [|eexists _, _, _; split; reflexivity].
  destruct (GalaxyInstance.disintegrationAnimationStartTime i2);
    [|eexists _, _, _; split; reflexivity].
  destruct (_ >=? 1).
  - destruct (disposeInstance_total i2 rng w2) as (w3 & Hd).
    unfold mbind, M_bind. rewrite Hd. eexists _, _, _; split; reflexivity.
  - eexists _, _, _; split; [reflexivity | apply applyProgress_rotationsY].
Qed.



(** Frames below the threshold of a primed instance only rotate it. *)
Lemma framesFrom_waiting (instance waiting : GalaxyInstance.t) (nows : list num)
    (triggerTime : num) :
  framesFrom instance nows waiting ->
  GalaxyInstance.disintegrationTriggerTime instance = Some triggerTime ->
  GalaxyInstance.isDisintegrating instance = false ->
  Forall (fun now =>
            (now >=? triggerTime + GalaxyInstance.disintegrationDelay instance) = false)
         nows ->
  exists gy sy dy, waiting = withRotationY gy sy dy instance.
Proof.
  induction 1 as [i | i i1 i2 now nows rng w w1 Hstep Hrest IH]; intros Htt Hdis Hall.
  - eexists _, _, None. symmetry. apply withRotationY_same.
  - inversion Hall as [|? ? Hnow Hnows]; subst.
    destruct (animateInstance_rotation_only now i rng w Hdis) as (gy & sy & dy & w' & Heq & _).
    { intros t0 Ht0. rewrite Htt in Ht0. injection Ht0 as <-. exact Hnow. }
    rewrite Heq in Hstep. injection Hstep as <- _.
    destruct (withRotationY_fields gy sy dy i) as (Ht & Hd & Hi & _).
    cbv zeta in Ht, Hd, Hi.
    destruct IH as (gy' & sy' & dy' & ->).
    + rewrite Ht. exact Htt.
    + rewrite Hi. exact Hdis.
    + rewrite Hd. exact Hnows.
    + destruct (withRotationY_twice gy sy dy gy' sy' dy' i) as (dy'' & ->).
      eexists _, _, _. reflexivity.
Qed.

(** What [applyProgress] does at progress 0 to an instance that has just
    started to disintegrate. *)
Lemma fadedOpacity_zero (a : num) : fadedOpacity a (Fin 0) = a.
Proof. unfold fadedOpacity. cbn [sub add neg mul]. apply mul_one. lra. Qed.

Lemma scaleProgress_zero (s : R) : scaleProgress (Fin 0) (Fin s) = Fin 1.
Proof. unfold scaleProgress. cbn [add mul]. f_equal. lra. Qed.

(** What [startDisintegration] sets and what it leaves. *)
Lemma startDisintegration_fields now (instance : GalaxyInstance.t) rng w camera :
  uniform rng ->
  World.cameraRef w = Some camera ->
  exists i' w' (d s : R),
    startDisintegration now instance rng w = Normal (i', w')
    /\ GalaxyInstance.isDisintegrating i' = true
    /\ GalaxyInstance.disintegrationAnimationStartTime i' = Some now
    /\ GalaxyInstance.disintegrationTargetCamPos i'
       = Some (PerspectiveCamera.position camera)
    /\ GalaxyInstance.disintegrationInitialGroupPos i'
       = Some (Group.position (GalaxyInstance.group instance))
    /\ GalaxyInstance.disintegrationDuration i' = Fin d /\ (2 <= d <= 4.5)%R
    /\ GalaxyInstance.disintegrationRandomScaleFactor i' = Fin s /\ (2.5 <= s <= 7)%R
    /\ GalaxyInstance.originalStarMaterialOpacity i'
       = GalaxyInstance.originalStarMaterialOpacity instance
    /\ GalaxyInstance.originalDustMaterialOpacity i'
       = GalaxyInstance.originalDustMaterialOpacity instance
    /\ (GalaxyInstance.dustSystem i' = None <-> GalaxyInstance.dustSystem instance = None).
Proof.
  intros Hu Hcam.
  destruct instance as [g bo ba star dust tt dl dis st du tg ini sf os od].
  destruct w as [rc oid dlog sc cam gi om am].
  cbn [World.cameraRef] in Hcam. subst cam.
  pose proof (Hu rc) as Hd1.
  pose proof (Hu (S rc)) as Hd2.
  exists (fst match startDisintegration now
                      (GalaxyInstance.mk g bo ba star dust tt dl dis st du tg ini sf os od)
                      rng (World.mk rc oid dlog sc (Some camera) gi om am) with
               | Normal r => r
               | Throw _ =>
                   (GalaxyInstance.mk g bo ba star dust tt dl dis st du tg ini sf os od,
                    World.mk rc oid dlog sc (Some camera) gi om am)
               end),
         (World.mk (S (S rc)) oid dlog sc (Some camera) gi om am),
         (rng rc * (4.5 - 2.0) + 2.0)%R, (rng (S rc) * (7.0 - 2.5) + 2.5)%R.
  unfold startDisintegration, rand, mbind, M_bind, mret, M_ret, get, Math_random.
  destruct dust as [dust|], od as [od|]; frame_cbn;
    repeat split; try reflexivity; try nra; try discriminate.
Qed.

(** What [applyProgress] leaves and what it sets at progress 0. *)
Lemma applyProgress_zero (instance : GalaxyInstance.t) (s : R) :
  GalaxyInstance.disintegrationRandomScaleFactor instance = Fin s ->
  let i' := applyProgress (Fin 0) instance in
  GalaxyInstance.isDisintegrating i' = GalaxyInstance.isDisintegrating instance
  /\ GalaxyInstance.disintegrationAnimationStartTime i'
     = GalaxyInstance.disintegrationAnimationStartTime instance
  /\ GalaxyInstance.disintegrationTargetCamPos i'
     = GalaxyInstance.disintegrationTargetCamPos instance
  /\ GalaxyInstance.disintegrationInitialGroupPos i'
     = GalaxyInstance.disintegrationInitialGroupPos instance
  /\ GalaxyInstance.disintegrationDuration i'
     = GalaxyInstance.disintegrationDuration instance
  /\ GalaxyInstance.disintegrationRandomScaleFactor i' = Fin s
  /\ PointsMaterial.opacity (Points.material (GalaxyInstance.starSystem i'))
     = GalaxyInstance.originalStarMaterialOpacity instance
  /\ Points.scale (GalaxyInstance.starSystem i') = Vector3.mk 1 1 1
  /\ match GalaxyInstance.dustSystem instance,
           GalaxyInstance.originalDustMaterialOpacity instance with
     | Some _, Some original =>
         exists dust',
           GalaxyInstance.dustSystem i' = Some dust'
           /\ PointsMaterial.opacity (Points.material dust') = original
           /\ Points.scale dust' = Vector3.mk 1 1 1
     | _, _ => True
     end.
Proof.
  destruct instance as [g bo ba star dust tt dl dis st du tg ini sf os od].
  cbn [GalaxyInstance.disintegrationRandomScaleFactor]. intros ->.
  unfold applyProgress.
  destruct dust as [dust|], od as [od|], tg as [tg|], ini as [ini|]; frame_cbn;
    rewrite ?fadedOpacity_zero, ?scaleProgress_zero;
    repeat (split; [reflexivity|]); try exact I;
    (eexists; split; [reflexivity|]; split; reflexivity).
Qed.

(** The frame in which the delay of a primed instance has passed. *)
Lemma animateInstance_due (t : R) (instance : GalaxyInstance.t) (triggerTime : num)
    rng w camera :
  uniform rng ->
  World.cameraRef w = Some camera ->
  GalaxyInstance.disintegrationTriggerTime instance = Some triggerTime ->
  GalaxyInstance.isDisintegrating instance = false ->
  (Fin t >=? triggerTime + GalaxyInstance.disintegrationDelay instance) = true ->
  exists instance' w',
    animateInstance (Fin t) instance rng w = Normal ((instance', true), w')
    /\ GalaxyInstance.isDisintegrating instance' = true
    /\ GalaxyInstance.disintegrationAnimationStartTime instance' = Some (Fin t)
    /\ GalaxyInstance.disintegrationTargetCamPos instance'
       = Some (PerspectiveCamera.position camera)
    /\ GalaxyInstance.disintegrationInitialGroupPos instance'
       = Some (Group.position (GalaxyInstance.group instance))
    /\ (exists d : R,
          GalaxyInstance.disintegrationDuration instance' = Fin d /\ (2 <= d <= 4.5)%R)
    /\ (exists s : R,
          GalaxyInstance.disintegrationRandomScaleFactor instance' = Fin s
          /\ (2.5 <= s <= 7)%R)
    /\ PointsMaterial.opacity (Points.material (GalaxyInstance.starSystem instance'))
       = GalaxyInstance.originalStarMaterialOpacity instance
    /\ Points.scale (GalaxyInstance.starSystem instance') = Vector3.mk 1 1 1
    /\ match GalaxyInstance.dustSystem instance,
             GalaxyInstance.originalDustMaterialOpacity instance with
       | Some _, Some original =>
           exists dust',
             GalaxyInstance.dustSystem instance' = Some dust'
             /\ PointsMaterial.opacity (Points.material dust') = original
             /\ Points.scale dust' = Vector3.mk 1 1 1
       | _, _ => True
       end.
Proof.
  intros Hu Hcam Htt Hdis Hdue.
  destruct (rotationSubstep_result instance rng w) as (w1 & Hrot & Hw1).
  cbv zeta in Hrot.
  match type of Hrot with _ = Normal (?i, _) => set (rotated := i) in * end.
  assert (Hcam1 : World.cameraRef w1 = Some camera).
  { rewrite Hw1. destruct w. exact Hcam. }
  destruct (startDisintegration_fields (Fin t) rotated rng w1 camera Hu Hcam1)
    as (i2 & w2 & d & s & Hstart & Hdis2 & Hst2 & Htg2 & Hini2 & Hdu2 & Hd & Hsf2 & Hs
        & Hos2 & Hod2 & Hnone2).
  assert (Hprog : disintegrationProgress (Fin t) (Fin t)
                    (GalaxyInstance.disintegrationDuration i2) = Fin 0).
  { rewrite Hdu2. rewrite disintegrationProgress_Fin by lra. f_equal.
    replace ((t - t) / 1000 / d)%R with 0%R by (unfold Rdiv; ring).
    apply Rmin_right. lra. }
  assert (Hge : (Fin 0 >=? 1) = false) by (cbn [ge le]; apply Rleb_false; lra).
  destruct (applyProgress_zero i2 s Hsf2)
    as (Ha & Hb & Hc & Hd' & He & Hf & Hg & Hh & Hdust).
  cbv zeta in Ha, Hb, Hc, Hd', He, Hf, Hg, Hh, Hdust.
  exists (applyProgress (Fin 0) i2), w2.
  split.
  { unfold animateInstance. unfold mbind at 1. unfold M_bind at 1. rewrite Hrot.
    unfold mbind, M_bind.
    rewrite (primedSubstep_due _ _ triggerTime); [|exact Htt|exact Hdis|exact Hdue].
    rewrite Hstart.
    rewrite (disintegratingSubstep_running _ _ (Fin t)); [|exact Hdis2|exact Hst2|].
    - rewrite Hprog. reflexivity.
    - rewrite Hprog. exact Hge. }
  split; [rewrite Ha; exact Hdis2|].
  split; [rewrite Hb; exact Hst2|].
  split; [rewrite Hc; exact Htg2|].
  split; [rewrite Hd'; exact Hini2|].
  split; [exists d; split; [rewrite He; exact Hdu2 | exact Hd]|].
  split; [exists s; split; [exact Hf | exact Hs]|].
  split; [rewrite Hg; exact Hos2|].
  split; [exact Hh|].
  change (GalaxyInstance.originalDustMaterialOpacity instance)
    with (GalaxyInstance.originalDustMaterialOpacity rotated).
  rewrite <- Hod2.
  assert (Hnone : GalaxyInstance.dustSystem rotated = None
                  -> GalaxyInstance.dustSystem instance = None).
  { apply withRotationY_fields. }
  destruct (GalaxyInstance.dustSystem instance) as [dust|]; [|exact I].
  destruct (GalaxyInstance.originalDustMaterialOpacity i2) as [original|]; [|exact I].
  destruct (GalaxyInstance.dustSystem i2) as [dust2|] eqn:Hdust2; [exact Hdust|].
  exfalso. destruct Hnone2 as [Hn _]. specialize (Hnone (Hn eq_refl)). discriminate.
Qed.



Lemma active_instance_frame_witness :
  (exists gy sy dy w',
      animateInstance (Fin 16) exampleInstance (constantDraws 0)
        (exampleWorld [exampleInstance])
      = Normal ((withRotationY gy sy dy exampleInstance, true), w')
      /\ drawsOnly (exampleWorld [exampleInstance]) w')
  /\ (In exampleInstance (World.galaxyInstancesRef (exampleWorld [exampleInstance])) ->
      exists gy sy dy w',
        animate (Fin 16) (constantDraws 0) (exampleWorld [exampleInstance])
        = Normal (tt, w')
        /\ In (withRotationY gy sy dy exampleInstance) (World.galaxyInstancesRef w')).
Proof.
  apply (active_instance_frame (Fin 16) exampleInstance (constantDraws 0)
           (exampleWorld [exampleInstance])); reflexivity.
Defined.

(** The trigger effect primes an instance: it gets the trigger time and a
    delay drawn from [0, 3000] milliseconds, and it is not disintegrating. *)
Lemma primeInstance_primes (triggerTime : num) (instance : GalaxyInstance.t) rng w :
  uniform rng ->
  exists primed w' (delay : R),
    primeInstance triggerTime instance rng w = Normal (primed, w')
    /\ GalaxyInstance.disintegrationTriggerTime primed = Some triggerTime
    /\ GalaxyInstance.disintegrationDelay primed = Fin delay
    /\ (0 <= delay <= 3000)%R
    /\ GalaxyInstance.isDisintegrating primed = false
    /\ GalaxyInstance.disintegrationAnimationStartTime primed = None.
Proof.
  intros Hu. pose proof (Hu (World.randomCalls w)) as Hd.
  eexists _, _, (rng (World.randomCalls w) * (3000 - 0) + 0)%R.
  split; [reflexivity|]. repeat split; nra.
Qed.

End FrameLoop.

(** ** The geometry builder *)

Section GeometryBuilder.
Import JS THREE GalaxyUtils.
Local Open Scope num_scope.

Ltac chain :=
  match goal with
  | Hw : drawsOnly ?w ?w1, Hs : drawsOnly ?w1 ?w2 |- _ =>
      let H := fresh "Hw" in
      pose proof (drawsOnly_trans _ _ _ Hw Hs) as H; clear Hw Hs
  end.

(** One step of a computation whose value does not matter. *)
Ltac any_step :=
  lazymatch goal with
  | |- wp (mret _) _ _ _ => apply wp_ret
  | |- wp (_ ≫= _) _ _ _ => apply wp_bind
  | |- wp Math_random _ _ _ => apply wp_random_any; intros ? ? ?; chain
  | |- wp (rand _ _) _ _ _ => apply wp_rand_any; intros ? ? ?; chain
  | |- wp (if ?b then _ else _) _ _ _ => destruct b
  | |- wp (let '(_, _) := _ in _) _ _ _ => cbv beta iota
  | |- wp ((fun _ => _) _) _ _ _ => cbv beta iota
  end.

Lemma getArmWobble_any params radialDist currentRadius armIdx rng w
    (Q : num -> World.t -> Prop) :
  (forall v w', drawsOnly w w' -> Q v w') ->
  wp (getArmWobble params radialDist currentRadius armIdx) rng w Q.
Proof.
  intros HQ. pose proof (drawsOnly_refl w) as Hw.
  unfold getArmWobble. cbv zeta. repeat any_step. apply HQ. assumption.
Qed.

Lemma starPosition_any params rng w (Q : Vector3.t * num -> World.t -> Prop) :
  (forall r w', drawsOnly w w' -> Q r w') -> wp (starPosition params) rng w Q.
Proof.
  intros HQ. pose proof (drawsOnly_refl w) as Hw.
  unfold starPosition. cbv zeta.
  repeat first [ any_step | apply getArmWobble_any; intros ? ? ?; chain ];
    apply HQ; assumption.
Qed.

Lemma starColor_any params nrc rng w (Q : Color.t -> World.t -> Prop) :
  (forall c w', drawsOnly w w' -> Q c w') -> wp (starColor params nrc) rng w Q.
Proof.
  intros HQ. pose proof (drawsOnly_refl w) as Hw.
  unfold starColor. cbv zeta. repeat any_step; apply HQ; assumption.
Qed.

Lemma dustPosition_any params rng w (Q : Vector3.t * num -> World.t -> Prop) :
  (forall r w', drawsOnly w w' -> Q r w') -> wp (dustPosition params) rng w Q.
Proof.
  intros HQ. pose proof (drawsOnly_refl w) as Hw.
  unfold dustPosition. cbv zeta.
  repeat first [ any_step | apply getArmWobble_any; intros ? ? ?; chain ];
    apply HQ; assumption.
Qed.

Lemma dustParticleColor_any params nrc rng w (Q : Color.t -> World.t -> Prop) :
  (forall c w', drawsOnly w w' -> Q c w') -> wp (dustParticleColor params nrc) rng w Q.
Proof.
  intros HQ. pose proof (drawsOnly_refl w) as Hw.
  unfold dustParticleColor. cbv zeta. repeat any_step; apply HQ; assumption.
Qed.

Lemma writePoint_length i p c positions colors :
  length (fst (writePoint i p c (positions, colors))) = length positions
  /\ length (snd (writePoint i p c (positions, colors))) = length colors.
Proof. cbn. rewrite !length_insert. split; reflexivity. Qed.

Lemma pointAt_writePoint_eq i p c positions colors :
  (i * 3 + 2 < length positions)%nat ->
  pointAt (fst (writePoint i p c (positions, colors))) i = Some p.
Proof.
  intros Hlen. unfold pointAt. cbn [writePoint fst].
  rewrite list_lookup_insert_ne by lia.
  rewrite list_lookup_insert_ne by lia.
  rewrite list_lookup_insert_eq by lia.
  rewrite list_lookup_insert_ne by lia.
  rewrite list_lookup_insert_eq by (rewrite length_insert; lia).
  rewrite list_lookup_insert_eq by (rewrite !length_insert; lia).
  destruct p. reflexivity.
Qed.

Lemma pointAt_writePoint_ne i j p c positions colors :
  i <> j ->
  pointAt (fst (writePoint i p c (positions, colors))) j = pointAt positions j.
Proof.
  intros Hne. unfold pointAt. cbn [writePoint fst].
  rewrite !list_lookup_insert_ne by lia. reflexivity.
Qed.

Lemma iterations_IZR (k : Z) : (0 <= k)%Z -> iterations (Fin (IZR k)) = Z.to_nat k.
Proof.
  intros _. unfold iterations, Zceil. rewrite ZfloorNZ. f_equal. lia.
Qed.

Lemma Ztrunc_IZR (k : Z) : (0 <= k)%Z -> Ztrunc (IZR k) = k.
Proof.
  intros Hk. unfold Ztrunc. rewrite Rltb_false by (apply IZR_le in Hk; lra).
  apply ZfloorZ.
Qed.

(** Allocating the array of a count that is a natural number. *)
Lemma wp_Float32Array (k : Z) rng w (Q : list num -> World.t -> Prop) :
  (0 <= k)%Z ->
  (3 * k <= 2 ^ 53 - 1)%Z ->
  Q (replicate (Z.to_nat k * 3) (Fin 0)) w ->
  wp (Float32Array (Fin (IZR k) * 3)) rng w Q.
Proof.
  intros Hk Hmax HQ. cbn [mul]. unfold Float32Array.
  replace (IZR k * 3)%R with (IZR (k * 3)) by (rewrite mult_IZR; reflexivity).
  rewrite Ztrunc_IZR by lia.
  destruct (k * 3 <? 0)%Z eqn:H1; [apply Z.ltb_lt in H1; lia|].
  destruct (2 ^ 53 - 1 <? k * 3)%Z eqn:H2; [apply Z.ltb_lt in H2; lia|].
  cbn [orb]. apply wp_ret.
  replace (Z.to_nat (k * 3)) with (Z.to_nat k * 3)%nat by lia. exact HQ.
Qed.

(** A loop that fills a buffer of [n] points, each of which satisfies [P]. *)
Lemma wp_fill (P : Vector3.t -> Prop) (n : nat)
    (body : nat -> list num * list num -> M (list num * list num))
    (positions colors : list num) rng w (Q : list num * list num -> World.t -> Prop) :
  length positions = (n * 3)%nat ->
  length colors = (n * 3)%nat ->
  (forall i buffers w0 R,
      (forall p c w1, drawsOnly w0 w1 -> P p -> R (writePoint i p c buffers) w1) ->
      wp (body i buffers) rng w0 R) ->
  (forall positions' colors' w',
      drawsOnly w w' ->
      length positions' = (n * 3)%nat -> length colors' = (n * 3)%nat ->
      everyPoint P positions' ->
      Q (positions', colors') w') ->
  wp (forLoop n 0 body (positions, colors)) rng w Q.
Proof.
  intros Hp Hc Hbody HQ.
  apply (wp_forLoop n 0 body (positions, colors) rng w
           (fun i buffers w' =>
              drawsOnly w w'
              /\ length (fst buffers) = (n * 3)%nat
              /\ length (snd buffers) = (n * 3)%nat
              /\ forall j, (j < i)%nat -> (j * 3 + 2 < n * 3)%nat ->
                           exists p, pointAt (fst buffers) j = Some p /\ P p)).
  - split; [apply drawsOnly_refl|]. split; [exact Hp|]. split; [exact Hc|].
    intros j Hj. lia.
  - intros i [pos col] w0 Hi (Hw0 & Hlp & Hlc & Hpts). cbn [fst snd] in *.
    apply Hbody. intros p c w1 Hw1 HP.
    destruct (writePoint_length i p c pos col) as [Hl1 Hl2].
    split; [eapply drawsOnly_trans; eassumption|].
    split; [rewrite Hl1; exact Hlp|]. split; [rewrite Hl2; exact Hlc|].
    intros j Hj Hjn. destruct (Nat.eq_dec i j) as [<-|Hne].
    + exists p. split; [apply pointAt_writePoint_eq; lia | exact HP].
    + rewrite pointAt_writePoint_ne by exact Hne. apply Hpts; lia.
  - intros [pos col] w' (Hw' & Hlp & Hlc & Hpts). cbn [fst snd] in *.
    apply HQ; try assumption.
    intros j Hj. rewrite Hlp in Hj. apply Hpts; lia.
Qed.

Lemma starBody_spec (P : Vector3.t -> Prop) params rng :
  (forall w0 R,
      (forall p nrc w1, drawsOnly w0 w1 -> P p -> R (p, nrc) w1) ->
      wp (starPosition params) rng w0 R) ->
  forall i buffers w0 R,
    (forall p c w1, drawsOnly w0 w1 -> P p -> R (writePoint i p c buffers) w1) ->
    wp (starBody params i buffers) rng w0 R.
Proof.
  intros Hpos i buffers w0 R HR. unfold starBody.
  apply wp_bind, Hpos. intros p nrc w1 Hw1 HP. cbv beta iota.
  apply wp_bind, starColor_any. intros c w2 Hw2. apply wp_ret.
  apply HR; [eapply drawsOnly_trans; eassumption | exact HP].
Qed.

Lemma dustBody_spec (P : Vector3.t -> Prop) params rng :
  (forall w0 R,
      (forall p nrc w1, drawsOnly w0 w1 -> P p -> R (p, nrc) w1) ->
      wp (dustPosition params) rng w0 R) ->
  forall i buffers w0 R,
    (forall p c w1, drawsOnly w0 w1 -> P p -> R (writePoint i p c buffers) w1) ->
    wp (dustBody params i buffers) rng w0 R.
Proof.
  intros Hpos i buffers w0 R HR. unfold dustBody.
  apply wp_bind, Hpos. intros p nrc w1 Hw1 HP. cbv beta iota.
  apply wp_bind, dustParticleColor_any. intros c w2 Hw2. apply wp_ret.
  apply HR; [eapply drawsOnly_trans; eassumption | exact HP].
Qed.

(** The builder, for a star count that is a natural number [k] whose array
    can be allocated, and for properties [Pstar] and [Pdust] that every
    generated star and dust position has. *)
Lemma createSingleGalaxyGroup_spec (Pstar Pdust : Vector3.t -> Prop) params (k : Z)
    rng w (Q : GalaxyBuild -> World.t -> Prop) :
  uniform rng ->
  numStarPoints params = Fin (IZR k) ->
  (0 <= k)%Z ->
  (3 * k <= 2 ^ 53 - 1)%Z ->
  (forall w0 R,
      (forall p nrc w1, drawsOnly w0 w1 -> Pstar p -> R (p, nrc) w1) ->
      wp (starPosition params) rng w0 R) ->
  (forall w0 R,
      (forall p nrc w1, drawsOnly w0 w1 -> Pdust p -> R (p, nrc) w1) ->
      wp (dustPosition params) rng w0 R) ->
  (forall build w' (u : R) (c : Z),
      u = (rng (World.randomCalls w) * (6 - 3) + 3)%R ->
      (3 <= u < 6)%R ->
      c = Zfloor (IZR k / u) ->
      numDustPoints params (Fin u) = Fin (IZR c) ->
      (0 <= c <= k)%Z ->
      allocOnly w w' ->
      Points.id (build_starSystem build) = World.object3DId w ->
      length (BufferGeometry.position (Points.geometry (build_starSystem build)))
      = (Z.to_nat k * 3)%nat ->
      length (BufferGeometry.color (Points.geometry (build_starSystem build)))
      = (Z.to_nat k * 3)%nat ->
      everyPoint Pstar (BufferGeometry.position (Points.geometry (build_starSystem build))) ->
      build_originalStarMaterialOpacity build = Fin 1 ->
      PointsMaterial.opacity (Points.material (build_starSystem build)) = Fin 1 ->
      match build_dustSystem build with
      | None => c = 0%Z /\ build_originalDustMaterialOpacity build = None
      | Some dust =>
          (0 < c)%Z
          /\ build_originalDustMaterialOpacity build = Some (dustOpacity params)
          /\ PointsMaterial.opacity (Points.material dust) = dustOpacity params
          /\ Points.id dust = S (World.object3DId w)
          /\ length (BufferGeometry.position (Points.geometry dust))
             = (Z.to_nat c * 3)%nat
          /\ length (BufferGeometry.color (Points.geometry dust)) = (Z.to_nat c * 3)%nat
          /\ everyPoint Pdust (BufferGeometry.position (Points.geometry dust))
      end ->
      Q build w') ->
  wp (createSingleGalaxyGroup params) rng w Q.
Proof.
  intros Hu Hn Hk Hmax Hstar Hdust HQ. unfold createSingleGalaxyGroup.
  apply wp_bind. apply (wp_rand 3 6); [exact Hu | lra |].
  intros u w1 Hu1 Hu2 Hw1 _ Hueq. cbv zeta.
  assert (Hupos : (3 <= u < 6)%R) by lra.
  set (c := Zfloor (IZR k / u)).
  assert (Hc : numDustPoints params (Fin u) = Fin (IZR c)).
  { unfold numDustPoints. rewrite Hn. rewrite div_Fin by lra. reflexivity. }
  assert (Hcb : (0 <= c <= k)%Z).
  { assert (Hkr : (0 <= IZR k)%R) by (apply IZR_le; exact Hk).
    assert (Hinv : (0 < / u)%R) by (apply Rinv_0_lt_compat; lra).
    assert (Hinv1 : (/ u <= 1)%R).
    { rewrite <- Rinv_1. apply Rinv_le_contravar; lra. }
    split.
    - apply Zfloor_lub. unfold Rdiv. nra.
    - apply le_IZR. pose proof (Zfloor_bound (IZR k / u)) as Hb. fold c in Hb.
      unfold Rdiv in Hb. nra. }
  rewrite Hc. rewrite Hn.
  apply wp_bind, wp_Float32Array; [exact Hk | exact Hmax |].
  apply wp_bind, wp_Float32Array; [exact Hk | exact Hmax |].
  apply wp_bind. rewrite iterations_IZR by exact Hk.
  apply (wp_fill Pstar); [apply length_replicate | apply length_replicate
                         | apply starBody_spec, Hstar |].
  intros starPositions starColors w2 Hw2 Hlp Hlc Hpts. cbv beta iota.
  unfold newPoints at 1. apply wp_bind, wp_bind, wp_newObject3D, wp_ret.
  assert (Hid2 : World.object3DId w2 = World.object3DId w).
  { rewrite (drawsOnly_object3DId _ _ Hw2). apply drawsOnly_object3DId, Hw1. }
  assert (Ha3 : allocOnly w (World.set_object3DId (S (World.object3DId w2)) w2)).
  { eapply allocOnly_trans; [apply drawsOnly_allocOnly; eapply drawsOnly_trans; eassumption|].
    apply allocOnly_newObject. }
  cbn [gt lt]. destruct (Rlt_dec 0 (IZR c)) as [Hpos|Hnpos].
  - rewrite Rltb_true by exact Hpos. apply lt_IZR in Hpos.
    apply wp_bind, wp_Float32Array; [lia | lia |].
    apply wp_bind, wp_Float32Array; [lia | lia |].
    apply wp_bind. rewrite iterations_IZR by lia.
    apply (wp_fill Pdust); [apply length_replicate | apply length_replicate
                           | apply dustBody_spec, Hdust |].
    intros dustPositions dustColors w4 Hw4 Hlp4 Hlc4 Hpts4. cbv beta iota.
    unfold newPoints. apply wp_bind, wp_bind, wp_newObject3D, wp_ret. apply wp_ret.
    apply (HQ _ _ u c); try assumption; try reflexivity.
    + eapply allocOnly_trans; [exact Ha3|].
      eapply allocOnly_trans; [apply drawsOnly_allocOnly; exact Hw4|].
      apply allocOnly_newObject.
    + cbn. repeat split; try assumption.
      rewrite (drawsOnly_object3DId _ _ Hw4). destruct w2. cbn in *. congruence.
  - rewrite Rltb_false by lra. apply wp_ret.
    apply (HQ _ _ u c); try assumption; try reflexivity.
    cbn. split; [|reflexivity].
    assert (c <= 0)%Z by (apply le_IZR; lra). lia.
Qed.

Local Arguments JS.add !a !b.
Local Arguments JS.neg !a.
Local Arguments JS.sub !a !b.
Local Arguments JS.mul !a !b.
Local Arguments JS.lt !a !b.
Local Arguments JS.gt !a !b.
Local Arguments Math.floor !a.
Local Arguments Math.sin !a.
Local Arguments Math.cos !a.

(** Bounds of the minima and maxima in the goal, for the side conditions. *)
Ltac note_bounds :=
  repeat match goal with
    | |- context [Rmin ?a ?b] =>
        lazymatch goal with
        | H : (Rmin a b <= a)%R |- _ => fail
        | _ => pose proof (Rmin_l a b)
        end
    | |- context [Rmax ?a ?b] =>
        lazymatch goal with
        | H : (a <= Rmax a b)%R |- _ => fail
        | _ => pose proof (Rmax_l a b)
        end
    end.

Ltac side := note_bounds; first [lra | nra].

Ltac fin_simpl :=
  repeat first
    [ progress cbn [add sub mul neg Math.floor Math.sin Math.cos gt lt Math.PI]
    | rewrite max_Fin
    | rewrite min_Fin
    | rewrite div_Fin by side
    | rewrite pow_Fin by side ].

Tactic Notation "draw" constr(Hu) "as" ident(x) ident(H) :=
  apply wp_bind, wp_random_uniform; [exact Hu|]; intros x ? H ?; chain; cbv beta.

Lemma starPosition_finite params (r : R) rng :
  uniform rng -> finiteShape params -> radius params = Fin r -> (0 < r)%R ->
  forall w0 K,
    (forall p nrc w1, drawsOnly w0 w1 -> finitePosition p -> K (p, nrc) w1) ->
    wp (starPosition params) rng w0 K.
Proof.
  intros Hu (th & arms & tight & width & core & amp & freq & dth
             & Hth & Harms & Ha1 & Htight & Hwidth & Hcore & Hamp & Hfreq & Hdth) Hr Hr0
         w0 K HR.
  pose proof (drawsOnly_refl w0) as Hw.
  unfold starPosition, starRadialDistance, getArmWobble, rand. cbv zeta.
  rewrite Hth, Harms, Htight, Hwidth, Hcore, Hamp, Hfreq, Hr.
  draw Hu as u Hu1. fin_simpl.
  apply wp_bind.
  apply (wp_mono _ _ _ (fun v w' => exists e rd : R,
                            v = (Fin e, Fin rd) /\ (0.7 <= e)%R /\ drawsOnly w0 w')).
  { destruct (Rltb 0.7 u).
    - draw Hu as e0 He0. apply wp_ret. fin_simpl. eexists _, _. split; [reflexivity|].
      split; [lra | assumption].
    - apply wp_ret. exists 1.0%R, (rpow u 1.6 * r)%R. split; [reflexivity|].
      split; [lra | assumption]. }
  intros [ext rd1] w2 (e & rd & [= -> ->] & He & ?). cbv beta iota.
  draw Hu as a Ha. draw Hu as o Ho. fin_simpl.
  apply wp_bind.
  apply (wp_mono _ _ _ (fun v w' => exists ang : R, v = Fin ang /\ drawsOnly w0 w')).
  { destruct (_ && _).
    - apply wp_bind, wp_bind. draw Hu as ph Hph. apply wp_ret. apply wp_ret. fin_simpl.
      apply wp_ret. fin_simpl. eexists. split; [reflexivity | assumption].
    - apply wp_ret. eexists. split; [reflexivity | assumption]. }
  intros angle1 w3 (ang1 & -> & ?). cbv beta.
  apply wp_bind.
  apply (wp_mono _ _ _ (fun v w' => exists ang rd' : R,
                            v = (Fin ang, Fin rd') /\ drawsOnly w0 w')).
  { destruct (Rltb rd (r * core)).
    - draw Hu as c Hc. draw Hu as d Hd. fin_simpl. destruct (Rltb _ 0.7).
      + draw Hu as e1 He1. apply wp_ret. fin_simpl. eexists _, _. split; [reflexivity | assumption].
      + apply wp_ret. fin_simpl. eexists _, _. split; [reflexivity | assumption].
    - apply wp_ret. eexists _, _. split; [reflexivity | assumption]. }
  intros [angle radial] w4 (ang & rd' & [= -> ->] & ?). cbv beta iota.
  draw Hu as y1 Hy1. draw Hu as y2 Hy2. apply wp_ret. fin_simpl.
  apply HR; [assumption|].
  destruct (Rltb 0.7 _); fin_simpl; eexists _, _, _; reflexivity.
Qed.

Lemma dustPosition_finite params (r : R) rng :
  uniform rng -> finiteShape params -> radius params = Fin r -> (0 < r)%R ->
  forall w0 K,
    (forall p nrc w1, drawsOnly w0 w1 -> finitePosition p -> K (p, nrc) w1) ->
    wp (dustPosition params) rng w0 K.
Proof.
  intros Hu (th & arms & tight & width & core & amp & freq & dth
             & Hth & Harms & Ha1 & Htight & Hwidth & Hcore & Hamp & Hfreq & Hdth) Hr Hr0
         w0 K HR.
  pose proof (drawsOnly_refl w0) as Hw.
  unfold dustPosition, dustRadialDistance, getArmWobble, rand. cbv zeta.
  rewrite Hth, Harms, Htight, Hwidth, Hcore, Hamp, Hfreq, Hr, Hdth.
  draw Hu as u Hu1. fin_simpl.
  apply wp_bind.
  apply (wp_mono _ _ _ (fun v w' => exists e rd : R,
                            v = (Fin e, Fin rd) /\ (0.7 <= e)%R /\ drawsOnly w0 w')).
  { destruct (Rltb 0.65 u).
    - draw Hu as e0 He0. apply wp_ret. fin_simpl. eexists _, _. split; [reflexivity|].
      split; [lra | assumption].
    - apply wp_ret. eexists 1.0%R, _. split; [reflexivity|].
      split; [lra | assumption]. }
  intros [ext rd1] w2 (e & rd & [= -> ->] & He & ?). cbv beta iota.
  draw Hu as a Ha. draw Hu as t Ht. draw Hu as o Ho. fin_simpl.
  apply wp_bind.
  apply (wp_mono _ _ _ (fun v w' => exists ang : R, v = Fin ang /\ drawsOnly w0 w')).
  { destruct (_ && _).
    - apply wp_bind, wp_bind. draw Hu as ph Hph. apply wp_ret. apply wp_ret. fin_simpl.
      apply wp_ret. fin_simpl. eexists. split; [reflexivity | assumption].
    - apply wp_ret. eexists. split; [reflexivity | assumption]. }
  intros angle1 w3 (ang1 & -> & ?). cbv beta.
  apply wp_bind.
  apply (wp_mono _ _ _ (fun v w' => exists ang rd' : R,
                            v = (Fin ang, Fin rd') /\ drawsOnly w0 w')).
  { destruct (Rltb rd (r * core * 1.8)).
    - draw Hu as c Hc. fin_simpl. destruct (Rltb _ 0.5).
      + draw Hu as d Hd. apply wp_ret. fin_simpl.
        eexists _, _. split; [reflexivity | assumption].
      + draw Hu as d Hd. apply wp_ret. fin_simpl.
        eexists _, _. split; [reflexivity | assumption].
    - apply wp_ret. eexists _, _. split; [reflexivity | assumption]. }
  intros [angle radial] w4 (ang & rd' & [= -> ->] & ?). cbv beta iota.
  draw Hu as y1 Hy1. draw Hu as y2 Hy2. apply wp_ret. fin_simpl.
  apply HR; [assumption|].
  destruct (Rltb 0.8 _); fin_simpl; eexists _, _, _; reflexivity.
Qed.

Lemma pow_NaN (y : R) : y <> 0%R -> Math.pow NaN (Fin y) = NaN.
Proof. intros H. unfold Math.pow. rewrite Reqb_false by exact H. reflexivity. Qed.

Lemma starPosition_zero_radius params rng :
  uniform rng -> finiteShape params -> radius params = Fin 0 ->
  forall w0 K,
    (forall p nrc w1, drawsOnly w0 w1 -> p = degeneratePosition -> K (p, nrc) w1) ->
    wp (starPosition params) rng w0 K.
Proof.
  intros Hu (th & arms & tight & width & core & amp & freq & dth
             & Hth & Harms & Ha1 & Htight & Hwidth & Hcore & Hamp & Hfreq & Hdth) Hr
         w0 K HR.
  pose proof (drawsOnly_refl w0) as Hw.
  unfold starPosition, starRadialDistance, getArmWobble, rand. cbv zeta.
  rewrite Hth, Harms, Htight, Hwidth, Hcore, Hamp, Hfreq, Hr.
  draw Hu as u Hu1. fin_simpl.
  apply wp_bind.
  apply (wp_mono _ _ _ (fun v w' => exists e : R,
                            v = (Fin e, Fin 0) /\ (0.7 <= e)%R /\ drawsOnly w0 w')).
  { destruct (Rltb 0.7 u).
    - draw Hu as e0 He0. apply wp_ret. fin_simpl. eexists.
      split; [f_equal; f_equal; ring|]. split; [lra | assumption].
    - apply wp_ret. exists 1.0%R. split; [f_equal; f_equal; ring|].
      split; [lra | assumption]. }
  intros [ext rd1] w2 (e & [= -> ->] & He & ?). cbv beta iota.
  draw Hu as a Ha. draw Hu as o Ho. fin_simpl.
  rewrite (Rltb_false (0 * core * 1.2) 0) by lra. cbn [andb].
  apply wp_bind, wp_ret.
  rewrite (Rltb_false 0 (0 * core)) by lra.
  apply wp_bind, wp_ret. cbv beta iota.
  draw Hu as y1 Hy1. draw Hu as y2 Hy2. apply wp_ret. fin_simpl.
  rewrite (div_zero_zero 0 (0 * 1.25)) by lra.
  cbn [Math.min mul sub add neg]. rewrite pow_NaN by lra. cbn [mul gt lt].
  apply HR; [assumption|].
  unfold degeneratePosition. f_equal; f_equal; ring.
Qed.

Lemma dustPosition_zero_radius params rng :
  uniform rng -> finiteShape params -> radius params = Fin 0 ->
  forall w0 K,
    (forall p nrc w1, drawsOnly w0 w1 -> p = degeneratePosition -> K (p, nrc) w1) ->
    wp (dustPosition params) rng w0 K.
Proof.
  intros Hu (th & arms & tight & width & core & amp & freq & dth
             & Hth & Harms & Ha1 & Htight & Hwidth & Hcore & Hamp & Hfreq & Hdth) Hr
         w0 K HR.
  pose proof (drawsOnly_refl w0) as Hw.
  unfold dustPosition, dustRadialDistance, getArmWobble, rand. cbv zeta.
  rewrite Hth, Harms, Htight, Hwidth, Hcore, Hamp, Hfreq, Hr, Hdth.
  draw Hu as u Hu1. fin_simpl.
  apply wp_bind.
  apply (wp_mono _ _ _ (fun v w' => exists e : R,
                            v = (Fin e, Fin 0) /\ (0.7 <= e)%R /\ drawsOnly w0 w')).
  { destruct (Rltb 0.65 u).
    - draw Hu as e0 He0. apply wp_ret. fin_simpl. eexists.
      split; [f_equal; f_equal; ring|]. split; [lra | assumption].
    - apply wp_ret. exists 1.0%R. split; [f_equal; f_equal; ring|].
      split; [lra | assumption]. }
  intros [ext rd1] w2 (e & [= -> ->] & He & ?). cbv beta iota.
  draw Hu as a Ha. draw Hu as t Ht. draw Hu as o Ho. fin_simpl.
  rewrite (Rltb_false (0 * core * 1.5) 0) by lra. cbn [andb].
  apply wp_bind, wp_ret.
  rewrite (Rltb_false 0 (0 * core * 1.8)) by lra.
  apply wp_bind, wp_ret. cbv beta iota.
  draw Hu as y1 Hy1. draw Hu as y2 Hy2. apply wp_ret. fin_simpl.
  rewrite (div_zero_zero 0 (0 * 1.25)) by lra.
  cbn [Math.min mul sub add neg]. rewrite pow_NaN by lra. cbn [mul gt lt].
  apply HR; [assumption|].
  unfold degeneratePosition. f_equal; f_equal; ring.
Qed.

Lemma planar_distance (d a : R) :
  (0 <= d)%R ->
  R_sqrt.sqrt (d * Rtrigo_def.cos a * (d * Rtrigo_def.cos a)
               + d * Rtrigo_def.sin a * (d * Rtrigo_def.sin a)) = d.
Proof.
  intros Hd.
  replace (d * Rtrigo_def.cos a * (d * Rtrigo_def.cos a)
           + d * Rtrigo_def.sin a * (d * Rtrigo_def.sin a))%R
    with (d * d)%R.
  - apply sqrt_square. exact Hd.
  - pose proof (sin2_cos2 a) as H. unfold Rsqr in H. nra.
Qed.

Lemma rpow_nonneg (x y : R) : (0 <= x)%R -> (0 <= rpow x y)%R.
Proof.
  intros Hx. unfold rpow. destruct (Req_dec_T x 0); [lra|]. left. apply exp_pos.
Qed.

(** A star point without edge extension and outside the core lies at the
    distance first computed. *)
Lemma starPosition_plain params (r : R) rng w0 :
  uniform rng -> finiteShape params -> radius params = Fin r -> (0 < r)%R ->
  (rng (World.randomCalls w0) <= 0.7)%R ->
  (starRadialDistance params (Fin (rng (World.randomCalls w0)))
   <? radius params * coreRatio params) = false ->
  wp (starPosition params) rng w0
    (fun '(p, _) _ =>
       exists x y z : R,
         p = Vector3.mk (Fin x) (Fin y) (Fin z)
         /\ R_sqrt.sqrt (x * x + z * z) = (rpow (rng (World.randomCalls w0)) 1.6 * r)%R).
Proof.
  intros Hu (th & arms & tight & width & core & amp & freq & dth
             & Hth & Harms & Ha1 & Htight & Hwidth & Hcore & Hamp & Hfreq & Hdth) Hr Hr0
         Hext Hcore0.
  pose proof (drawsOnly_refl w0) as Hw.
  pose proof (Hu (World.randomCalls w0)) as Hu0.
  revert Hcore0.
  unfold starPosition, starRadialDistance, getArmWobble, rand. cbv zeta.
  rewrite Hth, Harms, Htight, Hwidth, Hcore, Hamp, Hfreq, Hr.
  set (u := rng (World.randomCalls w0)) in *.
  fin_simpl. intros Hcore0.
  apply wp_bind, wp_random. fold u. cbv beta. fin_simpl.
  rewrite (Rltb_false 0.7 u) by lra.
  apply wp_bind, wp_ret. cbv beta iota.
  pose proof (drawsOnly_draw w0 (S (World.randomCalls w0))) as Hw1. chain.
  draw Hu as a Ha. draw Hu as o Ho. fin_simpl.
  apply wp_bind.
  apply (wp_mono _ _ _ (fun v w' => exists ang : R, v = Fin ang /\ drawsOnly w0 w')).
  { destruct (_ && _).
    - apply wp_bind, wp_bind. draw Hu as ph Hph. apply wp_ret. apply wp_ret. fin_simpl.
      apply wp_ret. fin_simpl. eexists. split; [reflexivity | assumption].
    - apply wp_ret. eexists. split; [reflexivity | assumption]. }
  intros angle1 w3 (ang1 & -> & ?). cbv beta.
  rewrite Hcore0.
  apply wp_bind, wp_ret. cbv beta iota.
  draw Hu as y1 Hy1. draw Hu as y2 Hy2. apply wp_ret. fin_simpl.
  assert (Hd : (0 <= rpow u 1.6 * r)%R).
  { pose proof (rpow_nonneg u 1.6 (proj1 Hu0)). nra. }
  destruct (Rltb 0.7 _); fin_simpl; eexists _, _, _; (split; [reflexivity|]);
    apply planar_distance; exact Hd.
Qed.

Lemma dustPosition_plain params (r : R) rng w0 :
  uniform rng -> finiteShape params -> radius params = Fin r -> (0 < r)%R ->
  (rng (World.randomCalls w0) <= 0.65)%R ->
  (dustRadialDistance params (Fin (rng (World.randomCalls w0)))
   <? radius params * coreRatio params * 1.8) = false ->
  wp (dustPosition params) rng w0
    (fun '(p, _) _ =>
       exists x y z : R,
         p = Vector3.mk (Fin x) (Fin y) (Fin z)
         /\ R_sqrt.sqrt (x * x + z * z)
            = (rpow (rng (World.randomCalls w0)) 1.3 * r * 0.95 + r * 0.05)%R).
Proof.
  intros Hu (th & arms & tight & width & core & amp & freq & dth
             & Hth & Harms & Ha1 & Htight & Hwidth & Hcore & Hamp & Hfreq & Hdth) Hr Hr0
         Hext Hcore0.
  pose proof (drawsOnly_refl w0) as Hw.
  pose proof (Hu (World.randomCalls w0)) as Hu0.
  revert Hcore0.
  unfold dustPosition, dustRadialDistance, getArmWobble, rand. cbv zeta.
  rewrite Hth, Harms, Htight, Hwidth, Hcore, Hamp, Hfreq, Hr, Hdth.
  set (u := rng (World.randomCalls w0)) in *.
  fin_simpl. intros Hcore0.
  apply wp_bind, wp_random. fold u. cbv beta. fin_simpl.
  rewrite (Rltb_false 0.65 u) by lra.
  apply wp_bind, wp_ret. cbv beta iota.
  pose proof (drawsOnly_draw w0 (S (World.randomCalls w0))) as Hw1. chain.
  draw Hu as a Ha. draw Hu as t Ht. draw Hu as o Ho. fin_simpl.
  apply wp_bind.
  apply (wp_mono _ _ _ (fun v w' => exists ang : R, v = Fin ang /\ drawsOnly w0 w')).
  { destruct (_ && _).
    - apply wp_bind, wp_bind. draw Hu as ph Hph. apply wp_ret. apply wp_ret. fin_simpl.
      apply wp_ret. fin_simpl. eexists. split; [reflexivity | assumption].
    - apply wp_ret. eexists. split; [reflexivity | assumption]. }
  intros angle1 w3 (ang1 & -> & ?). cbv beta.
  rewrite Hcore0.
  apply wp_bind, wp_ret. cbv beta iota.
  draw Hu as y1 Hy1. draw Hu as y2 Hy2. apply wp_ret. fin_simpl.
  assert (Hd : (0 <= rpow u 1.3 * r * 0.95 + r * 0.05)%R).
  { pose proof (rpow_nonneg u 1.3 (proj1 Hu0)). nra. }
  destruct (Rltb 0.8 _); fin_simpl; eexists _, _, _; (split; [reflexivity|]);
    apply planar_distance; exact Hd.
Qed.

Lemma exampleParams_finiteShape (r : R) (n : num) : finiteShape (exampleParams (Fin r) n).
Proof.
  exists (r * 0.05)%R, 3%R, 0.5%R, 1%R, 0.1%R, 0.1%R, 2%R, 1.5%R.
  repeat split; try reflexivity. lra.
Qed.

(** C6, as amended: the radial distance of a point before the edge
    extension is progress^1.6 * radius for a star and progress^1.3 * radius *
    0.95 + radius * 0.05 for dust, where progress is the draw from [0, 1);
    a generated point that gets no edge extension and no core adjustment lies
    at that distance from the vertical axis. *)
Theorem radial_distance_before_extension (params : GalaxyParams) (r : R)
    (rng : Rng) (w : World.t) :
  uniform rng ->
  finiteShape params ->
  radius params = Fin r ->
  (0 < r)%R ->
  let progress := rng (World.randomCalls w) in
  starRadialDistance params (Fin progress) = Fin (rpow progress 1.6 * r)
  /\ dustRadialDistance params (Fin progress)
     = Fin (rpow progress 1.3 * r * 0.95 + r * 0.05)
  /\ ((progress <= 0.7)%R ->
      (starRadialDistance params (Fin progress) <? radius params * coreRatio params)
      = false ->
      exists p nrc w',
        starPosition params rng w = Normal ((p, nrc), w')
        /\ exists x y z : R,
             p = Vector3.mk (Fin x) (Fin y) (Fin z)
             /\ R_sqrt.sqrt (x * x + z * z) = (rpow progress 1.6 * r)%R)
  /\ ((progress <= 0.65)%R ->
      (dustRadialDistance params (Fin progress)
       <? radius params * coreRatio params * 1.8) = false ->
      exists p nrc w',
        dustPosition params rng w = Normal ((p, nrc), w')
        /\ exists x y z : R,
             p = Vector3.mk (Fin x) (Fin y) (Fin z)
             /\ R_sqrt.sqrt (x * x + z * z)
                = (rpow progress 1.3 * r * 0.95 + r * 0.05)%R).
Proof.
  intros Hu Hshape Hr Hr0 progress.
  pose proof (Hu (World.randomCalls w)) as Hp. fold progress in Hp.
  split; [|split; [|split]].
  - unfold starRadialDistance. rewrite Hr. rewrite pow_Fin by lra. reflexivity.
  - unfold dustRadialDistance. rewrite Hr. rewrite pow_Fin by lra. reflexivity.
  - intros Hext Hcore.
    pose proof (starPosition_plain params r rng w Hu Hshape Hr Hr0 Hext Hcore) as Hwp.
    apply wp_result in Hwp. destruct Hwp as ([p nrc] & w' & Hrun & Hpt).
    exists p, nrc, w'. split; [exact Hrun | exact Hpt].
  - intros Hext Hcore.
    pose proof (dustPosition_plain params r rng w Hu Hshape Hr Hr0 Hext Hcore) as Hwp.
    apply wp_result in Hwp. destruct Hwp as ([p nrc] & w' & Hrun & Hpt).
    exists p, nrc, w'. split; [exact Hrun | exact Hpt].
Qed.

Lemma radial_distance_before_extension_witness :
  starRadialDistance (exampleParams 5 4000) (Fin 0.5) = Fin (rpow 0.5 1.6 * 5)
  /\ dustRadialDistance (exampleParams 5 4000) (Fin 0.5)
     = Fin (rpow 0.5 1.3 * 5 * 0.95 + 5 * 0.05).
Proof.
  destruct (radial_distance_before_extension (exampleParams 5 4000) 5
              (constantDraws 0.5) (exampleWorld []))
    as (Hstar & Hdust & _).
  - intros n. unfold constantDraws. lra.
  - apply exampleParams_finiteShape.
  - reflexivity.
  - lra.
  - split; [exact Hstar | exact Hdust].
Defined.

(** The claim as worded fails for dust: at progress 0 and radius 5 the
    builder starts from the distance 0.25, not from 0^1.3 * 5 = 0. *)
Lemma dust_radial_distance_is_not_the_power :
  dustRadialDistance (exampleParams 5 4000) (Fin 0)
  <> (Math.pow (Fin 0) 1.3 * radius (exampleParams 5 4000))%js.
Proof.
  unfold dustRadialDistance. cbn [exampleParams radius].
  rewrite pow_Fin by lra. cbn [mul add]. intros [= H].
  unfold rpow in H. destruct (Req_dec_T 0 0) as [_|Hne]; [lra | contradiction].
Qed.



Lemma builder_positions_spec (P : Vector3.t -> Prop) params (k : Z) rng w :
  uniform rng ->
  numStarPoints params = Fin (IZR k) ->
  (0 <= k)%Z ->
  (3 * k <= 2 ^ 53 - 1)%Z ->
  (forall w0 K,
      (forall p nrc w1, drawsOnly w0 w1 -> P p -> K (p, nrc) w1) ->
      wp (starPosition params) rng w0 K) ->
  (forall w0 K,
      (forall p nrc w1, drawsOnly w0 w1 -> P p -> K (p, nrc) w1) ->
      wp (dustPosition params) rng w0 K) ->
  exists build w',
    createSingleGalaxyGroup params rng w = Normal (build, w')
    /\ length (BufferGeometry.position (Points.geometry (build_starSystem build)))
       = (3 * Z.to_nat k)%nat
    /\ everyPoint P (BufferGeometry.position (Points.geometry (build_starSystem build)))
    /\ forall dust,
         build_dustSystem build = Some dust ->
         (exists c : nat,
             length (BufferGeometry.position (Points.geometry dust)) = (3 * c)%nat)
         /\ everyPoint P (BufferGeometry.position (Points.geometry dust)).
Proof.
  intros Hu Hn Hk Hmax Hstar Hdust. apply wp_result.
  apply (createSingleGalaxyGroup_spec P P params k); try assumption.
  intros build w' u c _ _ _ _ _ _ _ Hlen _ Hpts _ _ Hd.
  split; [lia|]. split; [exact Hpts|].
  intros dust Hdeq. rewrite Hdeq in Hd.
  destruct Hd as (_ & _ & _ & _ & Hlp & _ & Hdpts).
  split; [exists (Z.to_nat c); lia | exact Hdpts].
Qed.


Lemma pointAt_coordinates buffer j p :
  pointAt buffer j = Some p ->
  buffer !! (j * 3)%nat = Some (Vector3.x p)
  /\ buffer !! (j * 3 + 1)%nat = Some (Vector3.y p)
  /\ buffer !! (j * 3 + 2)%nat = Some (Vector3.z p).
Proof.
  unfold pointAt.
  destruct (buffer !! (j * 3)%nat), (buffer !! (j * 3 + 1)%nat),
    (buffer !! (j * 3 + 2)%nat); try discriminate.
  intros [= <-]. repeat split.
Qed.



End GeometryBuilder.

(** ** The generation effect *)

Section Regeneration.
Import JS THREE GalaxyUtils ThreeScene.
Local Open Scope num_scope.

Lemma allocOnly_fields w w' :
  allocOnly w w' ->
  World.sceneRef w' = World.sceneRef w
  /\ World.disposeLog w' = World.disposeLog w
  /\ World.galaxyInstancesRef w' = World.galaxyInstancesRef w
  /\ (World.object3DId w <= World.object3DId w')%nat.
Proof.
  intros [Heq Hle]. rewrite Heq. destruct w. cbn in *. repeat split. exact Hle.
Qed.

Lemma sphere_norm (r phi theta : R) :
  (0 <= r)%R ->
  let x := (r * Rtrigo_def.sin phi * Rtrigo_def.cos theta)%R in
  let y := (r * Rtrigo_def.sin phi * Rtrigo_def.sin theta)%R in
  let z := (r * Rtrigo_def.cos phi)%R in
  R_sqrt.sqrt (x * x + y * y + z * z) = r.
Proof.
  intros Hr x y z.
  replace (x * x + y * y + z * z)%R with (r * r)%R.
  - apply sqrt_square. exact Hr.
  - unfold x, y, z.
    pose proof (sin2_cos2 phi) as H1. pose proof (sin2_cos2 theta) as H2.
    unfold Rsqr in H1, H2.
    replace (r * Rtrigo_def.sin phi * Rtrigo_def.cos theta
             * (r * Rtrigo_def.sin phi * Rtrigo_def.cos theta)
             + r * Rtrigo_def.sin phi * Rtrigo_def.sin theta
               * (r * Rtrigo_def.sin phi * Rtrigo_def.sin theta)
             + r * Rtrigo_def.cos phi * (r * Rtrigo_def.cos phi))%R
      with (r * r * (Rtrigo_def.sin phi * Rtrigo_def.sin phi
                     * (Rtrigo_def.sin theta * Rtrigo_def.sin theta
                        + Rtrigo_def.cos theta * Rtrigo_def.cos theta)
                     + Rtrigo_def.cos phi * Rtrigo_def.cos phi))%R by ring.
    rewrite H2. rewrite Rmult_1_r. rewrite H1. ring.
Qed.

Lemma newGalaxyInstance_spec (s : R) rng w (K : GalaxyInstance.t -> World.t -> Prop) :
  uniform rng ->
  (0 < s)%R ->
  (forall instance w1 (x y z r sc : R),
      allocOnly w w1 ->
      (World.object3DId w <= Group.id (GalaxyInstance.group instance)
       < World.object3DId w1)%nat ->
      Group.position (GalaxyInstance.group instance)
      = Vector3.mk (Fin x) (Fin y) (Fin z) ->
      R_sqrt.sqrt (x * x + y * y + z * z) = r ->
      (0.05 * s <= r <= 0.9 * s)%R ->
      Group.scale (GalaxyInstance.group instance) = Vector3.mk (Fin sc) (Fin sc) (Fin sc) ->
      (0.4 <= sc <= 1.2)%R ->
      GalaxyInstance.disintegrationTriggerTime instance = None ->
      GalaxyInstance.isDisintegrating instance = false ->
      GalaxyInstance.disintegrationAnimationStartTime instance = None ->
      K instance
        (World.set_sceneRef
           (Scene.add (Group.id (GalaxyInstance.group instance)) <$> World.sceneRef w1)
           w1)) ->
  wp (newGalaxyInstance (Fin s)) rng w K.
Proof.
  intros Hu Hs HK. unfold newGalaxyInstance.
  apply wp_bind, generated_params; [exact Hu | exact Hs |].
  intros params w1 r0 p0 q0 arms points _ _ _ _ _ _ _ _ _ Hpoints Hpb Hw1.
  apply wp_bind.
  apply (createSingleGalaxyGroup_spec (fun _ => True) (fun _ => True) params points);
    [exact Hu | exact Hpoints | lia | lia | | |].
  { intros w0 K0 HK0. apply starPosition_any. intros [p nrc] w' Hw'.
    apply HK0; [exact Hw' | exact I]. }
  { intros w0 K0 HK0. apply dustPosition_any. intros [p nrc] w' Hw'.
    apply HK0; [exact Hw' | exact I]. }
  intros build w2 u c _ _ _ _ _ Hw2 _ _ _ _ _ _ _.
  apply wp_bind, wp_newObject3D. cbv zeta.
  pose proof (allocOnly_newObject w2) as Hw3.
  set (w3 := World.set_object3DId (S (World.object3DId w2)) w2) in *.
  cbn [mul].
  apply wp_bind, wp_rand; [exact Hu | lra |].
  intros r w4 Hr _ Hw4 _ _.
  apply wp_bind, wp_random_uniform; [exact Hu|]. intros p w5 Hp Hw5.
  apply wp_bind, wp_random_uniform; [exact Hu|]. intros t w6 Ht Hw6.
  apply wp_bind, wp_rand_any. intros rx w7 Hw7.
  apply wp_bind, wp_rand_any. intros ry w8 Hw8.
  apply wp_bind, wp_rand_any. intros rz w9 Hw9.
  apply wp_bind, wp_rand; [exact Hu | lra |].
  intros sc w10 Hsc _ Hw10 _ _.
  apply wp_bind. unfold sceneAdd. apply wp_modify. apply wp_ret.
  assert (Hd : drawsOnly w3 w10) by eauto 10 using drawsOnly_trans.
  assert (Ha : allocOnly w w10).
  { eapply allocOnly_trans; [apply drawsOnly_allocOnly; exact Hw1|].
    eapply allocOnly_trans; [exact Hw2|].
    eapply allocOnly_trans; [exact Hw3|]. apply drawsOnly_allocOnly. exact Hd. }
  cbn [sub add neg mul]. rewrite acos_Fin by lra.
  unfold Math.PI. cbn [mul Math.sin Math.cos Vector3.set].
  match goal with |- K ?i _ => eapply (HK i w10 _ _ _ r sc) end;
    try reflexivity; try assumption.
  - cbn [GalaxyInstance.group Group.id].
    rewrite (drawsOnly_object3DId _ _ Hd). unfold w3.
    destruct Hw2 as [_ Hle]. apply drawsOnly_object3DId in Hw1.
    destruct w2. cbn in *. lia.
  - apply sphere_norm. lra.
  - lra.
Qed.

Lemma In_remove c child sc :
  In c (Scene.children (Scene.remove child sc)) <-> In c (Scene.children sc) /\ c <> child.
Proof.
  unfold Scene.remove. cbn [Scene.children]. rewrite filter_In.
  destruct (Nat.eqb_spec c child); cbn; split; intros [H1 H2]; split; congruence.
Qed.

Lemma disposeInstance_effect (instance : GalaxyInstance.t) rng w sc :
  World.sceneRef w = Some sc ->
  exists w' sc',
    disposeInstance instance rng w = Normal (tt, w')
    /\ World.disposeLog w' = World.disposeLog w ++ disposeEvents instance
    /\ World.sceneRef w' = Some sc'
    /\ (forall c, In c (Scene.children sc') ->
                  In c (Scene.children sc)
                  /\ c <> Group.id (GalaxyInstance.group instance))
    /\ World.object3DId w' = World.object3DId w.
Proof.
  intros Hsc. unfold disposeInstance, disposeEvents.
  destruct w as [rc oid dlog sref cam gi om am]. cbn [World.sceneRef] in Hsc. subst sref.
  destruct (GalaxyInstance.dustSystem instance) as [dust|].
  - eexists _, _. split; [reflexivity|]. cbn.
    split; [rewrite <- !app_assoc; reflexivity|]. split; [reflexivity|].
    split; [|reflexivity].
    intros c Hc. apply In_remove in Hc. destruct Hc as [Hc Hne].
    apply In_remove in Hc. destruct Hc as [Hc _].
    apply In_remove in Hc. destruct Hc as [Hc _]. split; assumption.
  - eexists _, _. split; [reflexivity|]. cbn.
    split; [rewrite <- !app_assoc; reflexivity|]. split; [reflexivity|].
    split; [|reflexivity].
    intros c Hc. apply In_remove in Hc. destruct Hc as [Hc Hne].
    apply In_remove in Hc. destruct Hc as [Hc _]. split; assumption.
Qed.

Lemma disposeAll_spec (l : list GalaxyInstance.t) rng w sc :
  World.sceneRef w = Some sc ->
  wp (mapM disposeInstance l) rng w
    (fun _ w' =>
       (forall old e, In old l -> In e (disposeEvents old) -> In e (World.disposeLog w'))
       /\ (forall e, In e (World.disposeLog w) -> In e (World.disposeLog w'))
       /\ (exists sc',
              World.sceneRef w' = Some sc'
              /\ forall c, In c (Scene.children sc') ->
                           In c (Scene.children sc)
                           /\ forall old, In old l ->
                                          c <> Group.id (GalaxyInstance.group old))
       /\ World.object3DId w' = World.object3DId w).
Proof.
  revert w sc. induction l as [|a l IH]; intros w sc Hsc.
  - apply wp_ret. split; [intros old e []|]. split; [auto|].
    split; [|reflexivity]. exists sc. split; [exact Hsc|]. intros c Hc.
    split; [exact Hc | intros old []].
  - cbn [mapM]. apply wp_bind.
    destruct (disposeInstance_effect a rng w sc Hsc)
      as (w1 & sc1 & Hrun & Hlog & Hsc1 & Hch & Hid).
    eapply wp_of_eq; [exact Hrun|].
    apply wp_bind. eapply wp_mono; [apply (IH w1 sc1 Hsc1)|].
    intros r w2 (Hev & Hmono & (sc2 & Hsc2 & Hch2) & Hid2). apply wp_ret.
    split; [|split; [|split]].
    + intros old e [<-|Hin] He.
      * apply Hmono. rewrite Hlog. apply in_or_app. right. exact He.
      * apply (Hev old e Hin He).
    + intros e He. apply Hmono. rewrite Hlog. apply in_or_app. left. exact He.
    + exists sc2. split; [exact Hsc2|]. intros c Hc.
      destruct (Hch2 c Hc) as [Hc1 Hne]. destruct (Hch c Hc1) as [Hc0 Hnea].
      split; [exact Hc0|]. intros old [<-|Hin]; [exact Hnea | apply Hne, Hin].
    + rewrite Hid2. exact Hid.
Qed.

Lemma iterations_INR (n : nat) : iterations (Fin (INR n)) = n.
Proof. rewrite INR_IZR_INZ. rewrite iterations_IZR by lia. apply Nat2Z.id. Qed.

(** C9: a regeneration pass with a count n and a spread s above 0 leaves
    exactly n instances in the collection; every prior instance has its
    geometry and material disposed, is no longer in the collection and its
    group is no longer in the scene; every new instance is at a distance r
    from the centre with 0.05 * s <= r <= 0.9 * s, has a uniform scale in
    [0.4, 1.2] and is neither primed nor disintegrating. *)
Theorem regeneration_replaces_collection (n : nat) (s : R) (rng : Rng) (w : World.t)
    (scene : Scene.t) :
  uniform rng ->
  (0 < s)%R ->
  World.sceneRef w = Some scene ->
  (forall old, In old (World.galaxyInstancesRef w) ->
               (Group.id (GalaxyInstance.group old) < World.object3DId w)%nat) ->
  exists w',
    regenerateGalaxies (Fin s) (Fin (INR n)) rng w = Normal (tt, w')
    /\ length (World.galaxyInstancesRef w') = n
    /\ (forall new, In new (World.galaxyInstancesRef w') -> freshlyPlaced s new)
    /\ (forall old,
          In old (World.galaxyInstancesRef w) ->
          (forall e, In e (disposeEvents old) -> In e (World.disposeLog w'))
          /\ ~ In old (World.galaxyInstancesRef w')
          /\ exists scene',
               World.sceneRef w' = Some scene'
               /\ ~ In (Group.id (GalaxyInstance.group old)) (Scene.children scene')).
Proof.
  intros Hu Hs Hsc Hold.
  assert (Hwp : wp (regenerateGalaxies (Fin s) (Fin (INR n))) rng w
            (fun _ w' =>
               length (World.galaxyInstancesRef w') = n
               /\ (forall new, In new (World.galaxyInstancesRef w') ->
                     freshlyPlaced s new
                     /\ (World.object3DId w <= Group.id (GalaxyInstance.group new))%nat)
               /\ (forall old e, In old (World.galaxyInstancesRef w) ->
                                 In e (disposeEvents old) -> In e (World.disposeLog w'))
               /\ exists scene',
                    World.sceneRef w' = Some scene'
                    /\ forall c, In c (Scene.children scene') ->
                         (forall old, In old (World.galaxyInstancesRef w) ->
                                      c <> Group.id (GalaxyInstance.group old))
                         \/ (World.object3DId w <= c)%nat)).
  { unfold regenerateGalaxies. apply wp_bind, wp_get. rewrite Hsc.
    apply wp_bind. eapply wp_mono; [apply (disposeAll_spec _ rng w scene Hsc)|].
    intros done w1 (Hev & _ & (sc1 & Hsc1 & Hch1) & Hid1).
    apply wp_bind, wp_modify. rewrite iterations_INR.
    set (w2 := World.set_galaxyInstancesRef [] w1).
    apply (wp_forLoop n 0 _ tt rng w2
             (fun i _ w' =>
                length (World.galaxyInstancesRef w') = i
                /\ (forall new, In new (World.galaxyInstancesRef w') ->
                      freshlyPlaced s new
                      /\ (World.object3DId w <= Group.id (GalaxyInstance.group new))%nat)
                /\ World.disposeLog w' = World.disposeLog w1
                /\ (World.object3DId w <= World.object3DId w')%nat
                /\ exists sc',
                     World.sceneRef w' = Some sc'
                     /\ forall c, In c (Scene.children sc') ->
                          In c (Scene.children sc1) \/ (World.object3DId w <= c)%nat)).
    - unfold w2. destruct w1. cbn in *. split; [reflexivity|].
      split; [intros new []|]. split; [reflexivity|]. split; [lia|].
      exists sc1. split; [exact Hsc1|]. intros c Hc. left. exact Hc.
    - intros i [] w0 _ (Hlen & Hnew & Hlog & Hoid & (sc0 & Hsc0 & Hch0)).
      apply wp_bind, newGalaxyInstance_spec; [exact Hu | exact Hs |].
      intros instance wa x y z r sc Ha Hgid Hpos Hnorm Hr Hscale Hscb Htt Hdis Hst.
      unfold pushInstance. apply wp_modify.
      destruct (allocOnly_fields _ _ Ha) as (Hsa & Hla & Hia & Hoa).
      destruct wa as [rc oid dlog sref cam gi om am]. cbn in *. subst sref dlog gi.
      rewrite Hsc0. cbn.
      split; [rewrite length_app; cbn; lia|].
      split.
      { intros new Hin. apply in_app_or in Hin. destruct Hin as [Hin|[<-|[]]].
        - apply Hnew, Hin.
        - split; [|lia]. unfold freshlyPlaced.
          split; [exists x, y, z, r; repeat split; try assumption; lra|].
          split; [exists sc; split; assumption|]. repeat split; assumption. }
      split; [exact Hlog|]. split; [lia|].
      eexists. split; [reflexivity|]. cbn. intros c Hc.
      apply in_app_or in Hc. destruct Hc as [Hc|[<-|[]]]; [apply Hch0, Hc | right; lia].
    - intros [] w' (Hlen & Hnew & Hlog & Hoid & (sc' & Hsc' & Hch')).
      split; [exact Hlen|]. split; [exact Hnew|].
      split; [intros old e Hin He; rewrite Hlog; apply (Hev old e Hin He)|].
      exists sc'. split; [exact Hsc'|]. intros c Hc.
      destruct (Hch' c Hc) as [Hc1|Hge]; [left | right; exact Hge].
      intros old Hin. apply (Hch1 c Hc1), Hin. }
  apply wp_result in Hwp.
  destruct Hwp as ([] & w' & Hrun & Hlen & Hnew & Hev & (scene' & Hsc' & Hch)).
  exists w'. split; [exact Hrun|]. split; [exact Hlen|].
  split; [intros new Hin; apply Hnew, Hin|].
  intros old Hin. split; [intros e He; apply (Hev old e Hin He)|].
  pose proof (Hold old Hin) as Hlt.
  split.
  - intros Hin'. destruct (Hnew old Hin') as [_ Hge]. lia.
  - exists scene'. split; [exact Hsc'|]. intros Hc.
    destruct (Hch _ Hc) as [Hne|Hge]; [apply (Hne old Hin); reflexivity | lia].
Qed.

Lemma regeneration_replaces_collection_witness :
  exists w',
    regenerateGalaxies (Fin 150) (Fin (INR 40)) (constantDraws 0)
      (exampleWorld [exampleInstance])
    = Normal (tt, w')
    /\ length (World.galaxyInstancesRef w') = 40%nat.
Proof.
  destruct (regeneration_replaces_collection 40 150 (constantDraws 0)
              (exampleWorld [exampleInstance]) (Scene.mk []))
    as (w' & Hrun & Hlen & _).
  - intros n. unfold constantDraws. lra.
  - lra.
  - reflexivity.
  - intros old [<-|[]]. cbn. lia.
  - exists w'. split; [exact Hrun | exact Hlen].
Defined.

End Regeneration.

(** ** Colours of three.js *)

Section Colours.
Import JS THREE.
Local Open Scope num_scope.

Local Arguments JS.add !a !b.
Local Arguments JS.neg !a.
Local Arguments JS.sub !a !b.
Local Arguments JS.mul !a !b.
Local Arguments JS.lt !a !b.
Local Arguments JS.gt !a !b.
Local Arguments JS.le !a !b.
Local Arguments JS.eqb !a !b.

(** The fractional part of a number, as [x % 1] computes it. *)
Lemma rem_one (x : R) :
  exists f : R, Fin x %% 1 = Fin f /\ (-1 < f < 1)%R /\ (0 <= x -> 0 <= f)%R.
Proof.
  unfold rem. rewrite (Reqb_false 1 0) by lra. eexists. split; [reflexivity|].
  replace (x / 1)%R with x by (unfold Rdiv; rewrite Rinv_1; ring).
  unfold Ztrunc. destruct (Rlt_dec x 0) as [Hneg|Hpos].
  - rewrite (Rltb_true x 0 Hneg). pose proof (Zceil_bound x). split; [lra|]. lra.
  - rewrite (Rltb_false x 0) by lra. pose proof (Zfloor_bound x). split; [lra|].
    intros _. lra.
Qed.

Lemma euclideanModulo_one (h : R) :
  exists h' : R, Color.euclideanModulo (Fin h) 1 = Fin h' /\ (0 <= h' < 1)%R.
Proof.
  unfold Color.euclideanModulo.
  destruct (rem_one h) as (f & -> & Hf & _). cbn [add].
  destruct (rem_one (f + 1)) as (g & -> & Hg & Hg0).
  exists g. split; [reflexivity|]. split; [apply Hg0; lra | lra].
Qed.

Lemma clamp_unit (s : R) :
  exists s' : R, Color.clamp (Fin s) 0 1 = Fin s' /\ (0 <= s' <= 1)%R.
Proof.
  unfold Color.clamp. rewrite min_Fin, max_Fin. eexists. split; [reflexivity|].
  split; [apply Rmax_l|].
  apply Rmax_lub; [lra | apply Rmin_l].
Qed.

Lemma hue2rgb_between (lo hi t : R) :
  (lo <= hi)%R -> (-1 <= t <= 2)%R ->
  exists v : R, Color.hue2rgb (Fin lo) (Fin hi) (Fin t) = Fin v /\ (lo <= v <= hi)%R.
Proof.
  intros Hle Ht. unfold Color.hue2rgb.
  rewrite !div_Fin by lra. cbn [lt gt add sub neg mul].
  assert (Ht1 : exists t1 : R,
             (if Rltb t 0 then Fin (t + 1) else Fin t) = Fin t1 /\ (0 <= t1 <= 2)%R).
  { destruct (Rlt_dec t 0) as [H0|H0].
    - rewrite (Rltb_true t 0 H0). eexists. split; [reflexivity | lra].
    - rewrite (Rltb_false t 0) by lra. eexists. split; [reflexivity | lra]. }
  destruct Ht1 as (t1 & -> & Ht1). cbn [lt gt].
  assert (Ht2 : exists t2 : R,
             (if Rltb 1 t1 then Fin t1 - 1 else Fin t1) = Fin t2 /\ (0 <= t2 <= 1)%R).
  { destruct (Rlt_dec 1 t1) as [H1|H1].
    - rewrite (Rltb_true 1 t1 H1). cbn [sub add neg]. eexists. split; [reflexivity | lra].
    - rewrite (Rltb_false 1 t1) by lra. eexists. split; [reflexivity | lra]. }
  destruct Ht2 as (t2 & -> & Ht2). cbn [lt gt add sub neg mul].
  destruct (Rlt_dec t2 (1 / 6)) as [H6|H6].
  - rewrite (Rltb_true _ _ H6). eexists. split; [reflexivity|]. nra.
  - rewrite (Rltb_false t2 (1 / 6)) by lra.
    destruct (Rlt_dec t2 (1 / 2)) as [H2|H2].
    + rewrite (Rltb_true _ _ H2). eexists. split; [reflexivity|]. lra.
    + rewrite (Rltb_false t2 (1 / 2)) by lra.
      destruct (Rlt_dec t2 (2 / 3)) as [H3|H3].
      * rewrite (Rltb_true _ _ H3). eexists. split; [reflexivity|]. nra.
      * rewrite (Rltb_false t2 (2 / 3)) by lra. eexists. split; [reflexivity|]. lra.
Qed.

(** [setHSL] at finite arguments gives a colour with components in [0, 1]. *)
Lemma setHSL_within (h s l : R) : colorWithin 1 (Color.setHSL (Fin h) (Fin s) (Fin l)).
Proof.
  unfold Color.setHSL.
  destruct (euclideanModulo_one h) as (h' & -> & Hh).
  destruct (clamp_unit s) as (s' & -> & Hs).
  destruct (clamp_unit l) as (l' & -> & Hl).
  cbv zeta. cbn [eqb]. destruct (Reqb s' 0).
  - exists l', l', l'. split; [reflexivity|]. lra.
  - rewrite !div_Fin by lra. cbn [le add sub neg mul].
    assert (Hpq : exists lo hi : R,
               (if Rleb l' 0.5 then Fin (l' * (1 + s')) else Fin (l' + s' + - (l' * s')))
               = Fin hi
               /\ lo = (2 * l' + - hi)%R /\ (0 <= lo <= hi)%R /\ (hi <= 1)%R).
    { destruct (Rle_dec l' 0.5) as [H5|H5].
      - rewrite (Rleb_true _ _ H5). eexists _, _. split; [reflexivity|].
        split; [reflexivity|]. nra.
      - rewrite (Rleb_false l' 0.5) by lra. eexists _, _. split; [reflexivity|].
        split; [reflexivity|]. nra. }
    destruct Hpq as (lo & hi & -> & Hlo & Hb & Hhi). cbn [add sub neg mul]. rewrite <- Hlo.
    destruct (hue2rgb_between lo hi (h' + 1 / 3)) as (r & -> & Hr); [lra | lra |].
    destruct (hue2rgb_between lo hi h') as (g & -> & Hg); [lra | lra |].
    destruct (hue2rgb_between lo hi (h' + - (1 / 3))) as (b & -> & Hbb); [lra | lra |].
    exists r, g, b. split; [reflexivity|]. lra.
Qed.

Lemma getHSL_finite (c : Color.t) :
  colorWithin 1 c ->
  exists h s l : R, Color.getHSL c = Color.mkHSL (Fin h) (Fin s) (Fin l).
Proof.
  intros (r & g & b & -> & Hr & Hg & Hb). unfold Color.getHSL. cbn [Color.r Color.g Color.b].
  rewrite !max_Fin, !min_Fin. cbv zeta. cbn [add sub neg eqb].
  set (mx := Rmax (Rmax r g) b). set (mn := Rmin (Rmin r g) b).
  assert (Hmx : (mn <= mx)%R /\ (0 <= mn)%R /\ (mx <= 1)%R).
  { unfold mx, mn. 
    pose proof (Rmin_l (Rmin r g) b). pose proof (Rmin_l r g).
    pose proof (Rmax_l (Rmax r g) b). pose proof (Rmax_l r g).
    split; [lra|]. split.
    - apply Rmin_glb; [apply Rmin_glb|]; lra.
    - apply Rmax_lub; [apply Rmax_lub|]; lra. }
  rewrite !div_Fin by lra.
  destruct (Req_dec_T mn mx) as [Heq|Hne].
  - rewrite (Reqb_true _ _ Heq). eexists _, _, _. reflexivity.
  - rewrite (Reqb_false _ _ Hne). cbn [le add sub neg].
    assert (Hs : exists s : R,
               (if Rleb ((mn + mx) / 2) 0.5
                then Fin (mx + - mn) / Fin (mx + mn)
                else Fin (mx + - mn) / Fin (2 + - mx + - mn)) = Fin s).
    { destruct (Rle_dec ((mn + mx) / 2) 0.5) as [H5|H5].
      - rewrite (Rleb_true _ _ H5). rewrite div_Fin by lra. eexists. reflexivity.
      - rewrite (Rleb_false ((mn + mx) / 2) 0.5) by lra. rewrite div_Fin by lra.
        eexists. reflexivity. }
    destruct Hs as (s & ->).
    assert (Hh : exists h : R,
               (if Reqb mx r
                then Fin (g + - b) / Fin (mx + - mn) + (if g <? b then 6 else 0)
                else if Reqb mx g then Fin (b + - r) / Fin (mx + - mn) + 2
                     else Fin (r + - g) / Fin (mx + - mn) + 4) = Fin h).
    { rewrite !div_Fin by lra. destruct (Reqb mx r).
      - cbn [lt]. destruct (Rltb g b); cbn [add]; eexists; reflexivity.
      - destruct (Reqb mx g); cbn [add]; eexists; reflexivity. }
    destruct Hh as (h & ->). rewrite div_Fin by lra. eexists _, _, _. reflexivity.
Qed.

Lemma offsetHSL_within (dh ds dl : R) (c : Color.t) :
  colorWithin 1 c -> colorWithin 1 (Color.offsetHSL (Fin dh) (Fin ds) (Fin dl) c).
Proof.
  intros Hc. unfold Color.offsetHSL.
  destruct (getHSL_finite c Hc) as (h & s & l & ->). cbn [Color.h Color.s Color.l add].
  apply setHSL_within.
Qed.

Lemma lerpColors_within (c1 c2 : Color.t) (a : R) :
  colorWithin 1 c1 -> colorWithin 1 c2 -> (0 <= a <= 1)%R ->
  colorWithin 1 (Color.lerpColors c1 c2 (Fin a)).
Proof.
  intros (r1 & g1 & b1 & -> & ? & ? & ?) (r2 & g2 & b2 & -> & ? & ? & ?) Ha.
  unfold Color.lerpColors. cbn. eexists _, _, _. split; [reflexivity|]. nra.
Qed.

Lemma lerp_within (c1 c2 : Color.t) (a : R) :
  colorWithin 1 c1 -> colorWithin 1 c2 -> (0 <= a <= 1)%R ->
  colorWithin 1 (Color.lerp c2 (Fin a) c1).
Proof.
  intros (r1 & g1 & b1 & -> & ? & ? & ?) (r2 & g2 & b2 & -> & ? & ? & ?) Ha.
  unfold Color.lerp. cbn. eexists _, _, _. split; [reflexivity|]. nra.
Qed.

Lemma multiplyScalar_within (c : Color.t) (k hi : R) :
  colorWithin 1 c -> (0 <= k <= hi)%R ->
  colorWithin hi (Color.multiplyScalar (Fin k) c).
Proof.
  intros (r & g & b & -> & ? & ? & ?) Hk.
  unfold Color.multiplyScalar. cbn. eexists _, _, _. split; [reflexivity|]. nra.
Qed.

End Colours.

(** ** The parameter generator, field by field *)

Section GeneratorRanges.
Import JS THREE GalaxyUtils.
Local Open Scope num_scope.

Lemma afterDraws_add (n m : nat) w : afterDraws n (afterDraws m w) = afterDraws (n + m) w.
Proof. unfold afterDraws, World.set_randomCalls. cbn. f_equal. lia. Qed.

Lemma drawsOnly_afterDraws (n : nat) w : drawsOnly w (afterDraws n w).
Proof. apply drawsOnly_draw. Qed.

Lemma wp_random_exact rng w (Q : num -> World.t -> Prop) :
  uniform rng ->
  (forall u : R, (0 <= u < 1)%R -> u = rng (World.randomCalls w) ->
                 Q (Fin u) (afterDraws 1 w)) ->
  wp Math_random rng w Q.
Proof. intros Hu HQ. apply wp_random. apply HQ; [apply Hu | reflexivity]. Qed.

Lemma wp_rand_exact (lo hi : R) rng w (Q : num -> World.t -> Prop) :
  uniform rng ->
  (lo < hi)%R ->
  (forall v : R, (lo <= v < hi)%R -> v = (rng (World.randomCalls w) * (hi - lo) + lo)%R ->
                 Q (Fin v) (afterDraws 1 w)) ->
  wp (rand (Fin lo) (Fin hi)) rng w Q.
Proof.
  intros Hu Hlt HQ. unfold rand. apply wp_bind, wp_random_exact; [exact Hu|].
  intros u Hu0 Hueq. apply wp_ret. cbn. apply HQ; [nra|]. rewrite Hueq. reflexivity.
Qed.

Lemma wp_randInt_exact (lo hi : Z) rng w (Q : num -> World.t -> Prop) :
  uniform rng ->
  (lo <= hi)%Z ->
  (forall k : Z, (lo <= k <= hi)%Z ->
                 k = (lo + Zfloor (rng (World.randomCalls w) * IZR (hi - lo + 1)))%Z ->
                 Q (Fin (IZR k)) (afterDraws 1 w)) ->
  wp (randInt (Fin (IZR lo)) (Fin (IZR hi))) rng w Q.
Proof.
  intros Hu Hle HQ. unfold randInt. apply wp_bind. cbn [add].
  apply wp_rand_exact; [exact Hu | apply IZR_le in Hle; lra |].
  intros v Hv Hveq. apply wp_ret. cbn [Math.floor].
  assert (Hk : Zfloor v = (lo + Zfloor (rng (World.randomCalls w) * IZR (hi - lo + 1)))%Z).
  { rewrite Hveq.
    replace (IZR hi + 1 - IZR lo)%R with (IZR (hi - lo + 1))
      by (rewrite plus_IZR, minus_IZR; lra).
    rewrite Zfloor_addz. lia. }
  apply HQ; [|exact Hk].
  assert (lo <= Zfloor v < hi + 1)%Z; [|lia].
  apply floor_bounds. rewrite plus_IZR. lra.
Qed.

Lemma rem_Fin (x m : R) : m <> 0%R -> exists f : R, Fin x %% Fin m = Fin f.
Proof. intros Hm. unfold rem. rewrite (Reqb_false m 0 Hm). eexists. reflexivity. Qed.


Tactic Notation "draw_rand" constr(Hu) "as" ident(v) ident(H) :=
  apply wp_bind, wp_rand_exact; [exact Hu | lra |]; intros v H _; cbv beta.

(** Everything the generator guarantees, after its 35 draws. *)
Lemma generated_params_all (universeRadius : R) rng w
    (Q : GalaxyParams -> World.t -> Prop) :
  uniform rng ->
  (0 < universeRadius)%R ->
  (forall params (r ratio tight width core np sizeRatio dnp dsize dop dth amp freq
                  arm orbit : R) (arms points : Z),
      radius params = Fin r ->
      (0.02 * universeRadius <= r < 0.08 * universeRadius)%R ->
      thickness params = Fin (r * ratio) -> (0.04 <= ratio < 0.1)%R ->
      numArms params = Fin (IZR arms) -> (2 <= arms <= 5)%Z ->
      armTightness params = Fin tight -> (0.15 <= tight < 0.8)%R ->
      armAngularWidth params = Fin width -> (0.4 <= width < 1.5)%R ->
      coreRatio params = Fin core -> (0.05 <= core < 0.15)%R ->
      colorWithin 1 (centerBrightColor params) ->
      colorWithin 1 (armBaseColor params) ->
      colorWithin 1 (armEdgeColor params) ->
      colorWithin 1 (nebulaColor params) ->
      nebulaProbability params = Fin np -> (0.05 <= np < 0.25)%R ->
      starPointSize params = Fin (sizeRatio * (r / 5)) -> (0.01 <= sizeRatio < 0.03)%R ->
      numStarPoints params = Fin (IZR points) -> (4000 <= points <= 12000)%Z ->
      colorWithin 1 (dustColor params) ->
      colorWithin 1 (dustNebulaColor params) ->
      dustNebulaProbability params = Fin dnp -> (0.02 <= dnp < 0.1)%R ->
      dustPointSizeMultiplier params = Fin dsize -> (3 <= dsize < 8)%R ->
      dustOpacity params = Fin dop -> (0.2 <= dop < 0.5)%R ->
      dustThicknessMultiplier params = Fin dth -> (1.2 <= dth < 2)%R ->
      wobbleAmplitude params = Fin amp -> (0.05 <= amp < 0.2)%R ->
      wobbleFrequency params = Fin freq -> (1.5 <= freq < 4)%R ->
      baseArmSpeed params = Fin arm -> (-0.0015 <= arm < 0.0015)%R ->
      baseOrbitSpeed params = Fin orbit -> (-0.0008 <= orbit < 0.0008)%R ->
      Q params (afterDraws 35 w)) ->
  wp (generateRandomGalaxyParameters (Fin universeRadius)) rng w Q.
Proof.
  intros Hu HR HQ. unfold generateRandomGalaxyParameters, randomHSL. cbn [mul].
  draw_rand Hu as r Hr.
  apply wp_bind, wp_random_exact; [exact Hu|]. intros hue Hhue _. cbv beta.
  draw_rand Hu as shift Hshift. cbn [add]. cbv zeta.
  destruct (rem_Fin (hue + shift) 1.0) as (nebulaHue & HnebulaHue); [lra|].
  rewrite HnebulaHue.
  draw_rand Hu as ratio Hratio.
  apply wp_bind, (wp_randInt_exact 2 5); [exact Hu | lia |]. intros arms Harms _. cbv beta.
  draw_rand Hu as tight Htight.
  draw_rand Hu as width Hwidth.
  draw_rand Hu as core Hcore.
  (* centerBrightColor *)
  apply wp_bind.
  draw_rand Hu as h1 Hh1. draw_rand Hu as s1 Hs1. draw_rand Hu as l1 Hl1. apply wp_ret.
  (* armBaseColor *)
  apply wp_bind.
  apply wp_bind, wp_ret.
  draw_rand Hu as s2 Hs2. draw_rand Hu as l2 Hl2. apply wp_ret.
  (* armEdgeColor *)
  apply wp_bind.
  apply wp_bind. draw_rand Hu as d3 Hd3. apply wp_ret. cbn [add].
  destruct (rem_Fin (hue + d3) 1.0) as (h3 & Hh3); [lra|]. rewrite Hh3.
  draw_rand Hu as s3 Hs3. draw_rand Hu as l3 Hl3. apply wp_ret.
  (* nebulaColor *)
  apply wp_bind.
  apply wp_bind, wp_ret.
  draw_rand Hu as s4 Hs4. draw_rand Hu as l4 Hl4. apply wp_ret.
  draw_rand Hu as np Hnp.
  draw_rand Hu as sizeRatio HsizeRatio.
  apply wp_bind, (wp_randInt_exact 4000 12000); [exact Hu | lia |].
  intros points Hpoints _. cbv beta.
  (* dustColor *)
  apply wp_bind.
  apply wp_bind, wp_random_exact; [exact Hu|]. intros h5 Hh5 _. cbv beta.
  draw_rand Hu as s5 Hs5. draw_rand Hu as l5 Hl5. apply wp_ret.
  (* dustNebulaColor *)
  apply wp_bind.
  apply wp_bind, wp_random_exact; [exact Hu|]. intros h6 Hh6 _. cbv beta.
  draw_rand Hu as s6 Hs6. draw_rand Hu as l6 Hl6. apply wp_ret.
  draw_rand Hu as dnp Hdnp.
  draw_rand Hu as dsize Hdsize.
  draw_rand Hu as dop Hdop.
  draw_rand Hu as dth Hdth.
  draw_rand Hu as amp Hamp.
  draw_rand Hu as freq Hfreq.
  draw_rand Hu as arm Harm.
  draw_rand Hu as orbit Horbit.
  apply wp_ret.
  rewrite !afterDraws_add. cbn [Nat.add].
  apply (HQ _ r ratio tight width core np sizeRatio dnp dsize dop dth amp freq arm orbit
            arms points);
    cbn [radius thickness numArms armTightness armAngularWidth coreRatio centerBrightColor
         armBaseColor armEdgeColor nebulaColor nebulaProbability starPointSize numStarPoints
         dustColor dustNebulaColor dustNebulaProbability dustPointSizeMultiplier dustOpacity
         dustThicknessMultiplier wobbleAmplitude wobbleFrequency baseArmSpeed baseOrbitSpeed
         mul];
    try reflexivity; try assumption; try lra; try apply setHSL_within.
  rewrite div_Fin by lra. reflexivity.
Qed.





(** X3: the six colours of generated parameters are colours: every component is
    a number in [0, 1]. *)
Theorem generated_colours_are_colours (universeRadius : R) (rng : Rng) (w : World.t) :
  (0 < universeRadius)%R ->
  uniform rng ->
  exists params w',
    generateRandomGalaxyParameters (Fin universeRadius) rng w = Normal (params, w')
    /\ colorWithin 1 (centerBrightColor params)
    /\ colorWithin 1 (armBaseColor params)
    /\ colorWithin 1 (armEdgeColor params)
    /\ colorWithin 1 (nebulaColor params)
    /\ colorWithin 1 (dustColor params)
    /\ colorWithin 1 (dustNebulaColor params).
Proof.
  intros HR Hu. apply wp_result.
  apply generated_params_all; [exact Hu | exact HR |].
  intros params r ratio tight width core np sizeRatio dnp dsize dop dth amp freq arm orbit
         arms points _ _ _ _ _ _ _ _ _ _ _ _ H1 H2 H3 H4 _ _ _ _ _ _ H5 H6
         _ _ _ _ _ _ _ _ _ _ _ _ _ _ _ _.
  repeat split; assumption.
Qed.

Lemma generated_colours_are_colours_witness :
  exists params w',
    generateRandomGalaxyParameters (Fin 150) (constantDraws 0.5) (exampleWorld [])
    = Normal (params, w')
    /\ colorWithin 1 (centerBrightColor params)
    /\ colorWithin 1 (dustColor params).
Proof.
  destruct (generated_colours_are_colours 150 (constantDraws 0.5) (exampleWorld []))
    as (params & w' & Hrun & H1 & _ & _ & _ & H5 & _).
  - lra.
  - intros n. unfold constantDraws. lra.
  - exists params, w'. split; [exact Hrun|]. split; assumption.
Defined.

End GeneratorRanges.

(** ** The geometry builder: extent, colours and counts *)

Section BuilderMore.
Import JS THREE GalaxyUtils.
Local Open Scope num_scope.

Lemma colorAt_writePoint_eq i p c positions colors :
  (i * 3 + 2 < length colors)%nat ->
  colorAt (snd (writePoint i p c (positions, colors))) i = Some c.
Proof.
  intros Hlen. unfold colorAt. cbn [writePoint snd].
  rewrite list_lookup_insert_ne by lia.
  rewrite list_lookup_insert_ne by lia.
  rewrite list_lookup_insert_eq by lia.
  rewrite list_lookup_insert_ne by lia.
  rewrite list_lookup_insert_eq by (rewrite length_insert; lia).
  rewrite list_lookup_insert_eq by (rewrite !length_insert; lia).
  destruct c. reflexivity.
Qed.

Lemma colorAt_writePoint_ne i j p c positions colors :
  i <> j ->
  colorAt (snd (writePoint i p c (positions, colors))) j = colorAt colors j.
Proof.
  intros Hne. unfold colorAt. cbn [writePoint snd].
  rewrite !list_lookup_insert_ne by lia. reflexivity.
Qed.

(** A loop that fills the two buffers of [n] points, each position of which
    satisfies [P] and each colour [C]. *)
Lemma wp_fill_both (P : Vector3.t -> Prop) (C : Color.t -> Prop) (n : nat)
    (body : nat -> list num * list num -> M (list num * list num))
    (positions colors : list num) rng w (Q : list num * list num -> World.t -> Prop) :
  length positions = (n * 3)%nat ->
  length colors = (n * 3)%nat ->
  (forall i buffers w0 K,
      (forall p c w1, drawsOnly w0 w1 -> P p -> C c -> K (writePoint i p c buffers) w1) ->
      wp (body i buffers) rng w0 K) ->
  (forall positions' colors' w',
      drawsOnly w w' ->
      length positions' = (n * 3)%nat -> length colors' = (n * 3)%nat ->
      everyPoint P positions' -> everyColor C colors' ->
      Q (positions', colors') w') ->
  wp (forLoop n 0 body (positions, colors)) rng w Q.
Proof.
  intros Hp Hc Hbody HQ.
  apply (wp_forLoop n 0 body (positions, colors) rng w
           (fun i buffers w' =>
              drawsOnly w w'
              /\ length (fst buffers) = (n * 3)%nat
              /\ length (snd buffers) = (n * 3)%nat
              /\ (forall j, (j < i)%nat -> (j * 3 + 2 < n * 3)%nat ->
                            exists p, pointAt (fst buffers) j = Some p /\ P p)
              /\ (forall j, (j < i)%nat -> (j * 3 + 2 < n * 3)%nat ->
                            exists c, colorAt (snd buffers) j = Some c /\ C c))).
  - split; [apply drawsOnly_refl|]. split; [exact Hp|]. split; [exact Hc|].
    split; intros j Hj; lia.
  - intros i [pos col] w0 Hi (Hw0 & Hlp & Hlc & Hpts & Hcols). cbn [fst snd] in *.
    apply Hbody. intros p c w1 Hw1 HP HC.
    destruct (writePoint_length i p c pos col) as [Hl1 Hl2].
    split; [eapply drawsOnly_trans; eassumption|].
    split; [rewrite Hl1; exact Hlp|]. split; [rewrite Hl2; exact Hlc|].
    split.
    + intros j Hj Hjn. destruct (Nat.eq_dec i j) as [<-|Hne].
      * exists p. split; [apply pointAt_writePoint_eq; lia | exact HP].
      * rewrite pointAt_writePoint_ne by exact Hne. apply Hpts; lia.
    + intros j Hj Hjn. destruct (Nat.eq_dec i j) as [<-|Hne].
      * exists c. split; [apply colorAt_writePoint_eq; lia | exact HC].
      * rewrite colorAt_writePoint_ne by exact Hne. apply Hcols; lia.
  - intros [pos col] w' (Hw' & Hlp & Hlc & Hpts & Hcols). cbn [fst snd] in *.
    apply HQ; try assumption.
    + intros j Hj. rewrite Hlp in Hj. apply Hpts; lia.
    + intros j Hj. rewrite Hlc in Hj. apply Hcols; lia.
Qed.

(** The builder, for a star count that is a natural number [k] whose array
    can be allocated, and for properties that every generated star and dust
    point has. *)
Lemma createSingleGalaxyGroup_points (Pstar Pdust : Vector3.t -> Prop)
    (Cstar Cdust : Color.t -> Prop) params (k : Z) rng w
    (Q : GalaxyBuild -> World.t -> Prop) :
  uniform rng ->
  numStarPoints params = Fin (IZR k) ->
  (0 <= k)%Z ->
  (3 * k <= 2 ^ 53 - 1)%Z ->
  (forall i buffers w0 K,
      (forall p c w1, drawsOnly w0 w1 -> Pstar p -> Cstar c ->
                      K (writePoint i p c buffers) w1) ->
      wp (starBody params i buffers) rng w0 K) ->
  (forall i buffers w0 K,
      (forall p c w1, drawsOnly w0 w1 -> Pdust p -> Cdust c ->
                      K (writePoint i p c buffers) w1) ->
      wp (dustBody params i buffers) rng w0 K) ->
  (forall build w' (u : R) (c : Z) starPositions starColors,
      u = (rng (World.randomCalls w) * (6 - 3) + 3)%R ->
      (3 <= u < 6)%R ->
      c = Zfloor (IZR k / u) ->
      (0 <= c <= k)%Z ->
      allocOnly w w' ->
      build_starSystem build
      = Points.mk (World.object3DId w) (BufferGeometry.mk starPositions starColors)
          (PointsMaterial.mk (starPointSize params) 1 AdditiveBlending)
          (Euler.mk 0 0 0) (Vector3.mk 1 1 1) ->
      length starPositions = (Z.to_nat k * 3)%nat ->
      length starColors = (Z.to_nat k * 3)%nat ->
      everyPoint Pstar starPositions ->
      everyColor Cstar starColors ->
      build_originalStarMaterialOpacity build = Fin 1 ->
      match build_dustSystem build with
      | None =>
          c = 0%Z
          /\ build_originalDustMaterialOpacity build = None
          /\ World.object3DId w' = S (World.object3DId w)
      | Some dust =>
          (0 < c)%Z
          /\ build_originalDustMaterialOpacity build = Some (dustOpacity params)
          /\ World.object3DId w' = S (S (World.object3DId w))
          /\ exists dustPositions dustColors,
               dust = Points.mk (S (World.object3DId w))
                        (BufferGeometry.mk dustPositions dustColors)
                        (PointsMaterial.mk
                           (starPointSize params * dustPointSizeMultiplier params)
                           (dustOpacity params) NormalBlending)
                        (Euler.mk 0 0 0) (Vector3.mk 1 1 1)
               /\ length dustPositions = (Z.to_nat c * 3)%nat
               /\ length dustColors = (Z.to_nat c * 3)%nat
               /\ everyPoint Pdust dustPositions
               /\ everyColor Cdust dustColors
      end ->
      Q build w') ->
  wp (createSingleGalaxyGroup params) rng w Q.
Proof.
  intros Hu Hn Hk Hmax Hstar Hdust HQ. unfold createSingleGalaxyGroup.
  apply wp_bind. apply (wp_rand 3 6); [exact Hu | lra |].
  intros u w1 Hu1 Hu2 Hw1 _ Hueq. cbv zeta.
  assert (Hupos : (3 <= u < 6)%R) by lra.
  set (c := Zfloor (IZR k / u)).
  assert (Hc : numDustPoints params (Fin u) = Fin (IZR c)).
  { unfold numDustPoints. rewrite Hn. rewrite div_Fin by lra. reflexivity. }
  assert (Hcb : (0 <= c <= k)%Z).
  { assert (Hkr : (0 <= IZR k)%R) by (apply IZR_le; exact Hk).
    assert (Hinv : (0 < / u)%R) by (apply Rinv_0_lt_compat; lra).
    assert (Hinv1 : (/ u <= 1)%R).
    { rewrite <- Rinv_1. apply Rinv_le_contravar; lra. }
    split.
    - apply Zfloor_lub. unfold Rdiv. nra.
    - apply le_IZR. pose proof (Zfloor_bound (IZR k / u)) as Hb. fold c in Hb.
      unfold Rdiv in Hb. nra. }
  rewrite Hc. rewrite Hn.
  apply wp_bind, wp_Float32Array; [exact Hk | exact Hmax |].
  apply wp_bind, wp_Float32Array; [exact Hk | exact Hmax |].
  apply wp_bind. rewrite iterations_IZR by exact Hk.
  apply (wp_fill_both Pstar Cstar); [apply length_replicate | apply length_replicate
                                    | apply Hstar |].
  intros starPositions starColors w2 Hw2 Hlp Hlc Hpts Hcols. cbv beta iota.
  unfold newPoints at 1. apply wp_bind, wp_bind, wp_newObject3D, wp_ret.
  assert (Hid2 : World.object3DId w2 = World.object3DId w).
  { rewrite (drawsOnly_object3DId _ _ Hw2). apply drawsOnly_object3DId, Hw1. }
  assert (Ha3 : allocOnly w (World.set_object3DId (S (World.object3DId w2)) w2)).
  { eapply allocOnly_trans; [apply drawsOnly_allocOnly; eapply drawsOnly_trans; eassumption|].
    apply allocOnly_newObject. }
  rewrite Hid2 in *.
  cbn [gt lt]. destruct (Rlt_dec 0 (IZR c)) as [Hpos|Hnpos].
  - rewrite Rltb_true by exact Hpos. apply lt_IZR in Hpos.
    apply wp_bind, wp_Float32Array; [lia | lia |].
    apply wp_bind, wp_Float32Array; [lia | lia |].
    apply wp_bind. rewrite iterations_IZR by lia.
    apply (wp_fill_both Pdust Cdust); [apply length_replicate | apply length_replicate
                                      | apply Hdust |].
    intros dustPositions dustColors w4 Hw4 Hlp4 Hlc4 Hpts4 Hcols4. cbv beta iota.
    unfold newPoints. apply wp_bind, wp_bind, wp_newObject3D, wp_ret. apply wp_ret.
    assert (Hid4 : World.object3DId w4 = S (World.object3DId w)).
    { rewrite (drawsOnly_object3DId _ _ Hw4). destruct w2. reflexivity. }
    rewrite Hid4.
    apply (HQ _ _ u c starPositions starColors); try assumption; try reflexivity.
    + eapply allocOnly_trans; [exact Ha3|].
      eapply allocOnly_trans; [apply drawsOnly_allocOnly; exact Hw4|].
      rewrite <- Hid4. apply allocOnly_newObject.
    + cbn. split; [exact Hpos|]. split; [reflexivity|].
      split; [destruct w4; reflexivity|].
      exists dustPositions, dustColors. repeat split; assumption.
  - rewrite Rltb_false by lra. apply wp_ret.
    apply (HQ _ _ u c starPositions starColors); try assumption; try reflexivity.
    cbn. split; [|split; [reflexivity | destruct w2; reflexivity]].
    assert (c <= 0)%Z by (apply le_IZR; lra). lia.
Qed.


Ltac chain :=
  match goal with
  | Hw : drawsOnly ?w ?w1, Hs : drawsOnly ?w1 ?w2 |- _ =>
      let H := fresh "Hw" in
      pose proof (drawsOnly_trans _ _ _ Hw Hs) as H; clear Hw Hs
  end.

Local Arguments JS.add !a !b.
Local Arguments JS.neg !a.
Local Arguments JS.sub !a !b.
Local Arguments JS.mul !a !b.
Local Arguments JS.lt !a !b.
Local Arguments JS.gt !a !b.
Local Arguments Math.floor !a.
Local Arguments Math.sin !a.
Local Arguments Math.cos !a.
Local Arguments Math.sqrt !a.

Ltac note_bounds :=
  repeat match goal with
    | |- context [Rmin ?a ?b] =>
        lazymatch goal with
        | H : (Rmin a b <= a)%R |- _ => fail
        | _ => pose proof (Rmin_l a b)
        end
    | |- context [Rmax ?a ?b] =>
        lazymatch goal with
        | H : (a <= Rmax a b)%R |- _ => fail
        | _ => pose proof (Rmax_l a b)
        end
    end.

Ltac side := note_bounds; first [lra | nra].

Ltac fin_simpl :=
  repeat first
    [ progress cbn [add sub mul neg Math.floor Math.sin Math.cos gt lt Math.PI]
    | rewrite max_Fin
    | rewrite min_Fin
    | rewrite div_Fin by side
    | rewrite pow_Fin by side ].

Tactic Notation "draw" constr(Hu) "as" ident(x) ident(H) :=
  apply wp_bind, wp_random_uniform; [exact Hu|]; intros x ? H ?; chain; cbv beta.

Lemma rpow_unit (x y : R) : (0 <= x <= 1)%R -> (0 < y)%R -> (0 <= rpow x y <= 1)%R.
Proof.
  intros Hx Hy. destruct (Req_dec_T x 1) as [->|Hne].
  - unfold rpow. destruct (Req_dec_T 1 0); [lra|].
    unfold Rpower. rewrite ln_1, Rmult_0_r, exp_0. lra.
  - pose proof (rpow_bounds x y). lra.
Qed.

(** Below 1 a smaller exponent gives a larger power. *)
Lemma rpow_above_square (x y : R) : (0 < x < 1)%R -> (y <= 2)%R -> (x * x <= rpow x y)%R.
Proof.
  intros Hx Hy. unfold rpow. destruct (Req_dec_T x 0); [lra|].
  assert (Hln : (ln x < 0)%R) by (rewrite <- ln_1; apply ln_increasing; lra).
  replace (x * x)%R with (exp (2 * ln x)).
  - unfold Rpower. destruct (Req_dec_T (y * ln x) (2 * ln x)) as [->|Hne]; [lra|].
    left. apply exp_increasing. nra.
  - replace (2 * ln x)%R with (ln x + ln x)%R by ring.
    rewrite exp_plus. rewrite exp_ln by lra. reflexivity.
Qed.

Lemma Rdiv_nonneg (a b : R) : (0 <= a)%R -> (0 < b)%R -> (0 <= a / b)%R.
Proof.
  intros Ha Hb. unfold Rdiv. apply Rmult_le_pos; [exact Ha|].
  left. apply Rinv_0_lt_compat. exact Hb.
Qed.

Lemma Rabs_bounds (x : R) : (- Rabs x <= x <= Rabs x)%R.
Proof.
  unfold Rabs. destruct (Rcase_abs x); lra.
Qed.

Lemma scaled_within (a f B : R) :
  (- B <= a <= B)%R -> (0 <= f <= 1)%R -> (- B <= a * f <= B)%R.
Proof. intros Ha Hf. nra. Qed.

Lemma withinDisc_polar (lo hi h d ang y : R) :
  (0 <= d)%R -> (lo <= d <= hi)%R -> (- h <= y <= h)%R ->
  withinDisc lo hi h
    (Vector3.mk (Fin (d * Rtrigo_def.cos ang)) (Fin y) (Fin (d * Rtrigo_def.sin ang))).
Proof.
  intros Hd Hb Hy. eexists _, _, _. split; [reflexivity|].
  rewrite planar_distance by exact Hd. split; [exact Hb|].
  apply Rabs_le. exact Hy.
Qed.

(** Every star lies within 1.42 radii of the vertical axis and within 0.95
    times the thickness of the plane; its normalised radius for the colour
    is a number in [0, 1]. *)
Lemma starPosition_extent params (r th : R) rng :
  uniform rng -> finiteShape params ->
  radius params = Fin r -> (0 < r)%R ->
  thickness params = Fin th ->
  forall w0 K,
    (forall p (nrc : R) w1,
        drawsOnly w0 w1 -> withinDisc 0 (1.42 * r) (0.95 * Rabs th) p ->
        (0 <= nrc <= 1)%R -> K (p, Fin nrc) w1) ->
    wp (starPosition params) rng w0 K.
Proof.
  intros Hu (th' & arms & tight & width & core & amp & freq & dth
             & Hth & Harms & Ha1 & Htight & Hwidth & Hcore & Hamp & Hfreq & Hdth) Hr Hr0
         Hth2 w0 K HR.
  rewrite Hth2 in Hth. injection Hth as <-.
  pose proof (Rabs_bounds th) as Hth0.
  pose proof (drawsOnly_refl w0) as Hw.
  unfold starPosition, starRadialDistance, getArmWobble, rand. cbv zeta.
  rewrite Hth2, Harms, Htight, Hwidth, Hcore, Hamp, Hfreq, Hr.
  draw Hu as u Hu1. fin_simpl.
  pose proof (rpow_bounds u 1.6 Hu1 ltac:(lra)) as Hp.
  assert (HA : (0 <= rpow u 1.6 * r <= r)%R) by nra.
  apply wp_bind.
  apply (wp_mono _ _ _ (fun v w' => exists e rd : R,
                            v = (Fin e, Fin rd) /\ (0.7 <= e)%R
                            /\ (0 <= rd <= 1.42 * r)%R /\ drawsOnly w0 w')).
  { destruct (Rltb 0.7 u).
    - draw Hu as e0 He0. apply wp_ret. fin_simpl. eexists _, _. split; [reflexivity|].
      split; [lra|]. split; [nra | assumption].
    - apply wp_ret. exists 1.0%R, (rpow u 1.6 * r)%R. split; [reflexivity|].
      split; [lra|]. split; [nra | assumption]. }
  intros [ext rd1] w2 (e & rd & [= -> ->] & He & Hrd & ?). cbv beta iota.
  draw Hu as a Ha. draw Hu as o Ho. fin_simpl.
  apply wp_bind.
  apply (wp_mono _ _ _ (fun v w' => exists ang : R, v = Fin ang /\ drawsOnly w0 w')).
  { destruct (_ && _).
    - apply wp_bind, wp_bind. draw Hu as ph Hph. apply wp_ret. apply wp_ret. fin_simpl.
      apply wp_ret. fin_simpl. eexists. split; [reflexivity | assumption].
    - apply wp_ret. eexists. split; [reflexivity | assumption]. }
  intros angle1 w3 (ang1 & -> & ?). cbv beta.
  apply wp_bind.
  apply (wp_mono _ _ _ (fun v w' => exists ang rd' : R,
                            v = (Fin ang, Fin rd') /\ (0 <= rd' <= 1.42 * r)%R
                            /\ drawsOnly w0 w')).
  { destruct (Rltb rd (r * core)).
    - draw Hu as c Hc. draw Hu as d Hd. fin_simpl. destruct (Rltb _ 0.7).
      + draw Hu as e1 He1. apply wp_ret. fin_simpl.
        pose proof (rpow_bounds e1 1.8 He1 ltac:(lra)).
        eexists _, _. split; [reflexivity|]. split; [nra | assumption].
      + apply wp_ret. fin_simpl. eexists _, _. split; [reflexivity|].
        split; [lra | assumption].
    - apply wp_ret. eexists _, _. split; [reflexivity|]. split; [lra | assumption]. }
  intros [angle radial] w4 (ang & rd' & [= -> ->] & Hrd' & ?). cbv beta iota.
  draw Hu as y1 Hy1. draw Hu as y2 Hy2. apply wp_ret. fin_simpl.
  set (nrt := Rmin 1.0 (rd' / (r * 1.25))).
  assert (Hnrt : (0 <= nrt <= 1)%R).
  { unfold nrt. pose proof (Rmin_l 1.0 (rd' / (r * 1.25))). split; [|lra].
    apply Rmin_glb; [lra|]. apply Rdiv_nonneg; lra. }
  assert (Hfac : (0 <= rpow (1.0 + - (nrt * 0.9)) 1.3 <= 1)%R)
    by (apply rpow_unit; lra).
  assert (Hq : (- 0.25 <= (y1 + - (0.5)) * (y2 + - (0.5)) <= 0.25)%R) by nra.
  assert (Hyr : (- (0.95 * Rabs th) <= (y1 + - (0.5)) * (y2 + - (0.5)) * 3.8 * th
                 <= 0.95 * Rabs th)%R)
    by nra.
  pose proof (scaled_within _ _ _ Hyr Hfac) as Hy0.
  assert (Hnrc : (0 <= Rmin 1.0 (rd / (r * Rmax 1 e)) <= 1)%R).
  { pose proof (Rmin_l 1.0 (rd / (r * Rmax 1 e))). split; [|lra]. apply Rmin_glb; [lra|].
    pose proof (Rmax_l 1 e). apply Rdiv_nonneg; nra. }
  apply HR; [assumption | | exact Hnrc].
  destruct (Rlt_dec 0.7 nrt) as [H7|H7].
  - rewrite (Rltb_true _ _ H7). fin_simpl.
    apply withinDisc_polar; [lra | lra |].
    apply scaled_within; [exact Hy0|].
    split; [apply Rmax_l|]. apply Rmax_lub; [lra|]. lra.
  - rewrite (Rltb_false 0.7 nrt) by lra.
    apply withinDisc_polar; [lra | lra | exact Hy0].
Qed.

(** Every dust point lies between 0.05 and 1.39 radii from the vertical
    axis and within 0.525 * thickness * dustThicknessMultiplier of the
    plane. *)
Lemma dustPosition_extent params (r th dth core : R) rng :
  uniform rng -> finiteShape params ->
  radius params = Fin r -> (0 < r)%R ->
  thickness params = Fin th ->
  dustThicknessMultiplier params = Fin dth ->
  coreRatio params = Fin core -> (core <= 0.55)%R ->
  forall w0 K,
    (forall p nrc w1,
        drawsOnly w0 w1 ->
        withinDisc (0.05 * r) (1.39 * r) (0.525 * Rabs th * Rabs dth) p ->
        K (p, nrc) w1) ->
    wp (dustPosition params) rng w0 K.
Proof.
  intros Hu (th' & arms & tight & width & core' & amp & freq & dth'
             & Hth & Harms & Ha1 & Htight & Hwidth & Hcore & Hamp & Hfreq & Hdth) Hr Hr0
         Hth2 Hdth2 Hcore2 Hcore0 w0 K HR.
  pose proof (Rabs_bounds th) as Hth0. pose proof (Rabs_bounds dth) as Hdth0.
  rewrite Hth2 in Hth. injection Hth as <-.
  rewrite Hdth2 in Hdth. injection Hdth as <-.
  rewrite Hcore2 in Hcore. injection Hcore as <-.
  pose proof (drawsOnly_refl w0) as Hw.
  unfold dustPosition, dustRadialDistance, getArmWobble, rand. cbv zeta.
  rewrite Hth2, Harms, Htight, Hwidth, Hcore2, Hamp, Hfreq, Hr, Hdth2.
  draw Hu as u Hu1. fin_simpl.
  pose proof (rpow_bounds u 1.3 Hu1 ltac:(lra)) as Hp.
  assert (HA : (0.05 * r <= rpow u 1.3 * r * 0.95 + r * 0.05 <= r)%R) by nra.
  apply wp_bind.
  apply (wp_mono _ _ _ (fun v w' => exists e rd : R,
                            v = (Fin e, Fin rd) /\ (0.7 <= e)%R
                            /\ (0.05 * r <= rd <= 1.39 * r)%R /\ drawsOnly w0 w')).
  { destruct (Rlt_dec 0.65 u) as [H65|H65].
    - rewrite (Rltb_true _ _ H65).
      draw Hu as e0 He0. apply wp_ret. fin_simpl. eexists _, _. split; [reflexivity|].
      split; [lra|]. split; [|assumption].
      pose proof (rpow_above_square u 1.3 ltac:(lra) ltac:(lra)) as Hsq.
      assert (Hsq2 : (0.4225 <= u * u)%R) by nra.
      assert (Hp2 : (0.4225 <= rpow u 1.3)%R) by lra.
      assert (HB : (0.45 * r <= rpow u 1.3 * r * 0.95 + r * 0.05)%R) by nra.
      assert (Hf : (0.79 <= 1.0 + (e0 + - (0.35)) * 0.6 <= 1.39)%R) by lra.
      split; nra.
    - rewrite (Rltb_false 0.65 u) by lra.
      apply wp_ret. eexists 1.0%R, _. split; [reflexivity|].
      split; [lra|]. split; [lra | assumption]. }
  intros [ext rd1] w2 (e & rd & [= -> ->] & He & Hrd & ?). cbv beta iota.
  draw Hu as a Ha. draw Hu as t Ht. draw Hu as o Ho. fin_simpl.
  apply wp_bind.
  apply (wp_mono _ _ _ (fun v w' => exists ang : R, v = Fin ang /\ drawsOnly w0 w')).
  { destruct (_ && _).
    - apply wp_bind, wp_bind. draw Hu as ph Hph. apply wp_ret. apply wp_ret. fin_simpl.
      apply wp_ret. fin_simpl. eexists. split; [reflexivity | assumption].
    - apply wp_ret. eexists. split; [reflexivity | assumption]. }
  intros angle1 w3 (ang1 & -> & ?). cbv beta.
  apply wp_bind.
  apply (wp_mono _ _ _ (fun v w' => exists ang rd' : R,
                            v = (Fin ang, Fin rd') /\ (0.05 * r <= rd' <= 1.39 * r)%R
                            /\ drawsOnly w0 w')).
  { destruct (Rlt_dec rd (r * core * 1.8)) as [Hc18|Hc18].
    - rewrite (Rltb_true _ _ Hc18).
      draw Hu as c Hc. fin_simpl. destruct (Rltb _ 0.5).
      + draw Hu as d Hd. apply wp_ret. fin_simpl.
        eexists _, _. split; [reflexivity|]. split; [nra | assumption].
      + draw Hu as d Hd. apply wp_ret. fin_simpl.
        eexists _, _. split; [reflexivity|]. split; [lra | assumption].
    - rewrite (Rltb_false rd (r * core * 1.8)) by lra.
      apply wp_ret. eexists _, _. split; [reflexivity|]. split; [lra | assumption]. }
  intros [angle radial] w4 (ang & rd' & [= -> ->] & Hrd' & ?). cbv beta iota.
  draw Hu as y1 Hy1. draw Hu as y2 Hy2. apply wp_ret. fin_simpl.
  set (nrt := Rmin 1.0 (rd' / (r * 1.25))).
  assert (Hnrt : (0 <= nrt <= 1)%R).
  { unfold nrt. pose proof (Rmin_l 1.0 (rd' / (r * 1.25))). split; [|lra].
    apply Rmin_glb; [lra|]. apply Rdiv_nonneg; lra. }
  assert (Hfac : (0 <= rpow (1.0 + - (nrt * 0.85)) 1.2 <= 1)%R)
    by (apply rpow_unit; lra).
  assert (Hq : (- 0.25 <= (y1 + - (0.5)) * (y2 + - (0.5)) <= 0.25)%R) by nra.
  assert (Hyr : (- (0.75 * Rabs th) <= (y1 + - (0.5)) * (y2 + - (0.5)) * 3.0 * th
                 <= 0.75 * Rabs th)%R)
    by nra.
  pose proof (scaled_within _ _ _ Hyr Hfac) as Hy0.
  assert (Hy1' : (- (0.525 * Rabs th * Rabs dth)
                  <= (y1 + - (0.5)) * (y2 + - (0.5)) * 3.0 * th
                     * rpow (1.0 + - (nrt * 0.85)) 1.2 * dth * 0.7
                  <= 0.525 * Rabs th * Rabs dth)%R).
  { set (y0 := ((y1 + - (0.5)) * (y2 + - (0.5)) * 3.0 * th
                * rpow (1.0 + - (nrt * 0.85)) 1.2)%R) in *.
    assert (0 <= Rabs th)%R by lra. nra. }
  apply HR; [assumption|].
  destruct (Rlt_dec 0.8 nrt) as [H8|H8].
  - rewrite (Rltb_true _ _ H8). fin_simpl.
    apply withinDisc_polar; [nra | lra |].
    apply scaled_within; [exact Hy1'|].
    pose proof (Rmax_l 0.05 ((1.0 + - ((nrt + - (0.8)) / 0.2)) * 0.4 + 0.6)).
    split; [lra|]. apply Rmax_lub; [lra|]. lra.
  - rewrite (Rltb_false 0.8 nrt) by lra.
    apply withinDisc_polar; [nra | lra | exact Hy1'].
Qed.

Lemma sqrt_unit (x : R) : (0 <= x <= 1)%R -> (0 <= R_sqrt.sqrt x <= 1)%R.
Proof.
  intros Hx. split; [apply sqrt_pos|].
  rewrite <- sqrt_1. apply sqrt_le_1_alt. lra.
Qed.

(** The colour of a star is a colour in [0, 1], whichever branch makes it. *)
Lemma starColor_within params (core nrc : R) rng :
  uniform rng ->
  coreRatio params = Fin core -> (core * 1.3 < 1)%R ->
  colorWithin 1 (centerBrightColor params) ->
  colorWithin 1 (armBaseColor params) ->
  colorWithin 1 (armEdgeColor params) ->
  colorWithin 1 (nebulaColor params) ->
  (0 <= nrc <= 1)%R ->
  forall w0 K,
    (forall c w1, drawsOnly w0 w1 -> colorWithin 1 c -> K c w1) ->
    wp (starColor params (Fin nrc)) rng w0 K.
Proof.
  intros Hu Hcore Hc13 Hcenter Hbase Hedge Hnebula Hnrc w0 K HK.
  pose proof (drawsOnly_refl w0) as Hw.
  unfold starColor. cbv zeta. rewrite Hcore.
  draw Hu as b Hb. fin_simpl.
  apply wp_bind.
  apply (wp_mono _ _ _ (fun v w' => colorWithin 1 v /\ drawsOnly w0 w')).
  { destruct (Rlt_dec nrc (core * 0.7)) as [H7|H7].
    - rewrite (Rltb_true _ _ H7). apply wp_ret. split; [|assumption].
      rewrite div_Fin by lra.
      assert (Hq : (0 <= nrc / (core * 0.7) < 1)%R).
      { split; [apply Rdiv_nonneg; lra|].
        apply Rmult_lt_reg_r with (core * 0.7)%R; [lra|].
        unfold Rdiv. rewrite Rmult_assoc, Rinv_l by lra. lra. }
      rewrite pow_Fin by lra.
      pose proof (rpow_bounds _ 0.5 Hq ltac:(lra)).
      apply lerp_within; [assumption | assumption | lra].
    - rewrite (Rltb_false nrc (core * 0.7)) by lra.
      destruct (Rlt_dec nrc (core * 1.3)) as [H13|H13].
      + rewrite (Rltb_true _ _ H13). apply wp_ret. split; [|assumption].
        rewrite div_Fin by lra.
        apply lerpColors_within; [assumption | assumption |].
        split; [apply Rdiv_nonneg; lra|].
        apply Rmult_le_reg_r with (core * 0.6)%R; [lra|].
        unfold Rdiv. rewrite Rmult_assoc, Rinv_l by lra. lra.
      + rewrite (Rltb_false nrc (core * 1.3)) by lra.
        draw Hu as n Hn. destruct (_ && _).
        * draw Hu as h Hh. draw Hu as s Hs. draw Hu as l Hl. apply wp_ret. fin_simpl.
          split; [|assumption]. apply offsetHSL_within. assumption.
        * draw Hu as h Hh. draw Hu as s Hs. draw Hu as l Hl. apply wp_ret. fin_simpl.
          split; [|assumption]. apply offsetHSL_within.
          assert (Hq : (0 <= Rmax 0 (nrc + - (core * 1.3)) / (1 + - (core * 1.3)))%R).
          { apply Rdiv_nonneg; [apply Rmax_l | lra]. }
          pose proof (Rmin_l 1 (Rmax 0 (nrc + - (core * 1.3)) / (1 + - (core * 1.3)))).
          assert (Hm : (0 <= Rmin 1 (Rmax 0 (nrc + - (core * 1.3)) / (1 + - (core * 1.3)))
                        <= 1)%R).
          { split; [apply Rmin_glb; lra | lra]. }
          unfold Math.sqrt. rewrite Rltb_false by lra.
          apply lerpColors_within; [assumption | assumption | apply sqrt_unit; exact Hm]. }
  intros c w1 [Hc ?]. apply wp_ret. fin_simpl.
  apply HK; [assumption|].
  apply multiplyScalar_within; [exact Hc | lra].
Qed.

(** The colour of a dust point is a colour in [0, 0.3]. *)
Lemma dustParticleColor_within params nrc rng :
  uniform rng ->
  colorWithin 1 (dustColor params) ->
  colorWithin 1 (dustNebulaColor params) ->
  forall w0 K,
    (forall c w1, drawsOnly w0 w1 -> colorWithin 0.3 c -> K c w1) ->
    wp (dustParticleColor params nrc) rng w0 K.
Proof.
  intros Hu Hdust Hnebula w0 K HK.
  pose proof (drawsOnly_refl w0) as Hw.
  unfold dustParticleColor. cbv zeta.
  draw Hu as b Hb. draw Hu as n Hn. draw Hu as s Hs. draw Hu as l Hl.
  apply wp_ret. fin_simpl.
  apply HK; [assumption|].
  apply multiplyScalar_within; [|lra].
  apply (offsetHSL_within 0). destruct (_ && _); assumption.
Qed.

(** The body of the star loop, from what its two halves give. *)
Lemma starBody_points (P : Vector3.t -> Prop) (N : num -> Prop) (C : Color.t -> Prop)
    params rng :
  (forall w0 K,
      (forall p nrc w1, drawsOnly w0 w1 -> P p -> N nrc -> K (p, nrc) w1) ->
      wp (starPosition params) rng w0 K) ->
  (forall nrc, N nrc ->
     forall w0 K,
       (forall c w1, drawsOnly w0 w1 -> C c -> K c w1) ->
       wp (starColor params nrc) rng w0 K) ->
  forall i buffers w0 K,
    (forall p c w1, drawsOnly w0 w1 -> P p -> C c -> K (writePoint i p c buffers) w1) ->
    wp (starBody params i buffers) rng w0 K.
Proof.
  intros Hpos Hcol i buffers w0 K HK. unfold starBody.
  apply wp_bind, Hpos. intros p nrc w1 Hw1 HP HN. cbv beta iota.
  apply wp_bind, (Hcol nrc HN). intros c w2 Hw2 HC. apply wp_ret.
  apply HK; [eapply drawsOnly_trans; eassumption | exact HP | exact HC].
Qed.

Lemma dustBody_points (P : Vector3.t -> Prop) (C : Color.t -> Prop) params rng :
  (forall w0 K,
      (forall p nrc w1, drawsOnly w0 w1 -> P p -> K (p, nrc) w1) ->
      wp (dustPosition params) rng w0 K) ->
  (forall nrc w0 K,
      (forall c w1, drawsOnly w0 w1 -> C c -> K c w1) ->
      wp (dustParticleColor params nrc) rng w0 K) ->
  forall i buffers w0 K,
    (forall p c w1, drawsOnly w0 w1 -> P p -> C c -> K (writePoint i p c buffers) w1) ->
    wp (dustBody params i buffers) rng w0 K.
Proof.
  intros Hpos Hcol i buffers w0 K HK. unfold dustBody.
  apply wp_bind, Hpos. intros p nrc w1 Hw1 HP. cbv beta iota.
  apply wp_bind, Hcol. intros c w2 Hw2 HC. apply wp_ret.
  apply HK; [eapply drawsOnly_trans; eassumption | exact HP | exact HC].
Qed.

Lemma starBody_any params rng :
  forall i buffers w0 K,
    (forall p c w1, drawsOnly w0 w1 -> True -> True -> K (writePoint i p c buffers) w1) ->
    wp (starBody params i buffers) rng w0 K.
Proof.
  apply (starBody_points (fun _ => True) (fun _ => True) (fun _ => True)).
  - intros w0 K HK. apply starPosition_any. intros [p nrc] w1 Hw1. apply HK; auto.
  - intros nrc _ w0 K HK. apply starColor_any. intros c w1 Hw1. apply HK; auto.
Qed.

Lemma dustBody_any params rng :
  forall i buffers w0 K,
    (forall p c w1, drawsOnly w0 w1 -> True -> True -> K (writePoint i p c buffers) w1) ->
    wp (dustBody params i buffers) rng w0 K.
Proof.
  apply (dustBody_points (fun _ => True) (fun _ => True)).
  - intros w0 K HK. apply dustPosition_any. intros [p nrc] w1 Hw1. apply HK; auto.
  - intros nrc w0 K HK. apply dustParticleColor_any. intros c w1 Hw1. apply HK; auto.
Qed.

(** X4: every star of a built galaxy lies within 1.42 radii of the vertical
    axis and within 0.95 times the thickness of the galactic plane; every
    dust point lies between 0.05 and 1.39 radii from the axis and within
    0.525 * thickness * dustThicknessMultiplier of the plane. *)
Theorem galaxy_extent (params : GalaxyParams) (k : Z) (r th dth core : R)
    (rng : Rng) (w : World.t) :
  uniform rng ->
  finiteShape params ->
  numStarPoints params = Fin (IZR k) -> (0 <= k)%Z -> (3 * k <= 2 ^ 53 - 1)%Z ->
  radius params = Fin r -> (0 < r)%R ->
  thickness params = Fin th ->
  dustThicknessMultiplier params = Fin dth ->
  coreRatio params = Fin core -> (core <= 0.55)%R ->
  exists build w',
    createSingleGalaxyGroup params rng w = Normal (build, w')
    /\ everyPoint (withinDisc 0 (1.42 * r) (0.95 * Rabs th))
         (BufferGeometry.position (Points.geometry (build_starSystem build)))
    /\ forall dust,
         build_dustSystem build = Some dust ->
         everyPoint (withinDisc (0.05 * r) (1.39 * r) (0.525 * Rabs th * Rabs dth))
           (BufferGeometry.position (Points.geometry dust)).
Proof.
  intros Hu Hshape Hn Hk Hmax Hr Hr0 Hth Hdth Hcore Hc55.
  apply wp_result.
  apply (createSingleGalaxyGroup_points
           (withinDisc 0 (1.42 * r) (0.95 * Rabs th))
           (withinDisc (0.05 * r) (1.39 * r) (0.525 * Rabs th * Rabs dth))
           (fun _ => True) (fun _ => True) params k); try assumption.
  - apply (starBody_points _ (fun _ => True)).
    + intros w0 K HK. apply (starPosition_extent params r th); try assumption.
      intros p nrc w1 Hw1 Hp _. apply HK; auto.
    + intros nrc _ w0 K HK. apply starColor_any. intros c w1 Hw1. apply HK; auto.
  - apply dustBody_points.
    + intros w0 K HK. apply (dustPosition_extent params r th dth core); assumption.
    + intros nrc w0 K HK. apply dustParticleColor_any. intros c w1 Hw1. apply HK; auto.
  - intros build w' u c sp sc _ _ _ _ _ Hstar _ _ Hpts _ _ Hdust.
    rewrite Hstar. cbn [Points.geometry BufferGeometry.position]. split; [exact Hpts|].
    intros dust Hd. rewrite Hd in Hdust.
    destruct Hdust as (_ & _ & _ & dp & dc & -> & _ & _ & Hdpts & _). exact Hdpts.
Qed.

Lemma galaxy_extent_witness :
  exists build w',
    createSingleGalaxyGroup (exampleParams 5 4000) (constantDraws 0.5) (exampleWorld [])
    = Normal (build, w')
    /\ everyPoint (withinDisc 0 (1.42 * 5) (0.95 * Rabs (5 * 0.05)))
         (BufferGeometry.position (Points.geometry (build_starSystem build))).
Proof.
  destruct (galaxy_extent (exampleParams 5 4000) 4000 5 (5 * 0.05) 1.5 0.1
              (constantDraws 0.5) (exampleWorld []))
    as (build & w' & Hrun & Hstar & _).
  - intros n. unfold constantDraws. lra.
  - apply exampleParams_finiteShape.
  - reflexivity.
  - lia.
  - lia.
  - reflexivity.
  - lra.
  - reflexivity.
  - reflexivity.
  - reflexivity.
  - lra.
  - exists build, w'. split; [exact Hrun | exact Hstar].
Defined.

(** X5: every colour the builder writes is a colour: the components of a star
    colour lie in [0, 1] and those of a dust colour in [0, 0.3]. *)
Theorem point_colours_in_range (params : GalaxyParams) (k : Z) (r core : R)
    (rng : Rng) (w : World.t) :
  uniform rng ->
  finiteShape params ->
  numStarPoints params = Fin (IZR k) -> (0 <= k)%Z -> (3 * k <= 2 ^ 53 - 1)%Z ->
  radius params = Fin r -> (0 < r)%R ->
  coreRatio params = Fin core -> (core * 1.3 < 1)%R ->
  colorWithin 1 (centerBrightColor params) ->
  colorWithin 1 (armBaseColor params) ->
  colorWithin 1 (armEdgeColor params) ->
  colorWithin 1 (nebulaColor params) ->
  colorWithin 1 (dustColor params) ->
  colorWithin 1 (dustNebulaColor params) ->
  exists build w',
    createSingleGalaxyGroup params rng w = Normal (build, w')
    /\ everyColor (colorWithin 1)
         (BufferGeometry.color (Points.geometry (build_starSystem build)))
    /\ forall dust,
         build_dustSystem build = Some dust ->
         everyColor (colorWithin 0.3) (BufferGeometry.color (Points.geometry dust)).
Proof.
  intros Hu Hshape Hn Hk Hmax Hr Hr0 Hcore Hc13 H1 H2 H3 H4 H5 H6.
  assert (Hth : exists th : R, thickness params = Fin th).
  { destruct Hshape as (th & ? & ? & ? & ? & ? & ? & ? & Hth & _). exists th. exact Hth. }
  destruct Hth as (th & Hth).
  apply wp_result.
  apply (createSingleGalaxyGroup_points (fun _ => True) (fun _ => True)
           (colorWithin 1) (colorWithin 0.3) params k); try assumption.
  - apply (starBody_points _ (fun nrc => exists c : R, nrc = Fin c /\ (0 <= c <= 1)%R)).
    + intros w0 K HK. apply (starPosition_extent params r th); try assumption.
      intros p nrc w1 Hw1 _ Hnrc. apply HK; [assumption | exact I|].
      exists nrc. split; [reflexivity | exact Hnrc].
    + intros nrc (c & -> & Hc) w0 K HK.
      apply (starColor_within params core c); assumption.
  - apply dustBody_points.
    + intros w0 K HK. apply dustPosition_any. intros [p nrc] w1 Hw1. apply HK; auto.
    + intros nrc w0 K HK. apply dustParticleColor_within; assumption.
  - intros build w' u c sp sc _ _ _ _ _ Hstar _ _ _ Hcols _ Hdust.
    rewrite Hstar. cbn [Points.geometry BufferGeometry.color]. split; [exact Hcols|].
    intros dust Hd. rewrite Hd in Hdust.
    destruct Hdust as (_ & _ & _ & dp & dc & -> & _ & _ & _ & Hdcols). exact Hdcols.
Qed.

Lemma exampleParams_colours (r n : num) :
  colorWithin 1 (centerBrightColor (exampleParams r n))
  /\ colorWithin 1 (armBaseColor (exampleParams r n))
  /\ colorWithin 1 (armEdgeColor (exampleParams r n))
  /\ colorWithin 1 (nebulaColor (exampleParams r n))
  /\ colorWithin 1 (dustColor (exampleParams r n))
  /\ colorWithin 1 (dustNebulaColor (exampleParams r n)).
Proof.
  repeat split; (eexists _, _, _; split; [reflexivity|]; lra).
Qed.

Lemma point_colours_in_range_witness :
  exists build w',
    createSingleGalaxyGroup (exampleParams 5 4000) (constantDraws 0.5) (exampleWorld [])
    = Normal (build, w')
    /\ everyColor (colorWithin 1)
         (BufferGeometry.color (Points.geometry (build_starSystem build))).
Proof.
  destruct (exampleParams_colours 5 4000) as (H1 & H2 & H3 & H4 & H5 & H6).
  destruct (point_colours_in_range (exampleParams 5 4000) 4000 5 0.1
              (constantDraws 0.5) (exampleWorld []))
    as (build & w' & Hrun & Hstar & _); try assumption.
  - intros n. unfold constantDraws. lra.
  - apply exampleParams_finiteShape.
  - reflexivity.
  - lia.
  - lia.
  - reflexivity.
  - lra.
  - reflexivity.
  - lra.
  - exists build, w'. split; [exact Hrun | exact Hstar].
Defined.

(** X6: what the builder returns and what it does to the world: the star cloud
    takes the next object id and the dust cloud, when there is one, the id
    after it; both clouds are unrotated and unscaled; the star material is
    additive with the opacity 1, the dust material is normal with the opacity
    [dustOpacity], and these opacities are the ones recorded as original;
    nothing of the world changes but the counts of draws and of objects. *)
Theorem build_records_what_it_made (params : GalaxyParams) (k : Z)
    (rng : Rng) (w : World.t) :
  uniform rng ->
  numStarPoints params = Fin (IZR k) -> (0 <= k)%Z -> (3 * k <= 2 ^ 53 - 1)%Z ->
  exists build w' starPositions starColors,
    createSingleGalaxyGroup params rng w = Normal (build, w')
    /\ allocOnly w w'
    /\ build_starSystem build
       = Points.mk (World.object3DId w) (BufferGeometry.mk starPositions starColors)
           (PointsMaterial.mk (starPointSize params) 1 AdditiveBlending)
           (Euler.mk 0 0 0) (Vector3.mk 1 1 1)
    /\ length starPositions = (3 * Z.to_nat k)%nat
    /\ length starColors = (3 * Z.to_nat k)%nat
    /\ build_originalStarMaterialOpacity build = Fin 1
    /\ match build_dustSystem build with
       | None =>
           build_originalDustMaterialOpacity build = None
           /\ World.object3DId w' = S (World.object3DId w)
       | Some dust =>
           build_originalDustMaterialOpacity build = Some (dustOpacity params)
           /\ World.object3DId w' = S (S (World.object3DId w))
           /\ exists dustPositions dustColors,
                dust = Points.mk (S (World.object3DId w))
                         (BufferGeometry.mk dustPositions dustColors)
                         (PointsMaterial.mk
                            (starPointSize params * dustPointSizeMultiplier params)
                            (dustOpacity params) NormalBlending)
                         (Euler.mk 0 0 0) (Vector3.mk 1 1 1)
                /\ length dustPositions = length dustColors
       end.
Proof.
  intros Hu Hn Hk Hmax.
  assert (Hwp : wp (createSingleGalaxyGroup params) rng w
            (fun build w' => exists starPositions starColors,
               allocOnly w w'
               /\ build_starSystem build
                  = Points.mk (World.object3DId w)
                      (BufferGeometry.mk starPositions starColors)
                      (PointsMaterial.mk (starPointSize params) 1 AdditiveBlending)
                      (Euler.mk 0 0 0) (Vector3.mk 1 1 1)
               /\ length starPositions = (3 * Z.to_nat k)%nat
               /\ length starColors = (3 * Z.to_nat k)%nat
               /\ build_originalStarMaterialOpacity build = Fin 1
               /\ match build_dustSystem build with
                  | None =>
                      build_originalDustMaterialOpacity build = None
                      /\ World.object3DId w' = S (World.object3DId w)
                  | Some dust =>
                      build_originalDustMaterialOpacity build = Some (dustOpacity params)
                      /\ World.object3DId w' = S (S (World.object3DId w))
                      /\ exists dustPositions dustColors,
                           dust = Points.mk (S (World.object3DId w))
                                    (BufferGeometry.mk dustPositions dustColors)
                                    (PointsMaterial.mk
                                       (starPointSize params
                                        * dustPointSizeMultiplier params)
                                       (dustOpacity params) NormalBlending)
                                    (Euler.mk 0 0 0) (Vector3.mk 1 1 1)
                           /\ length dustPositions = length dustColors
                  end)).
  { apply (createSingleGalaxyGroup_points (fun _ => True) (fun _ => True)
             (fun _ => True) (fun _ => True) params k); try assumption.
    - apply starBody_any.
    - apply dustBody_any.
    - intros build w' u c sp sc _ _ _ _ Ha Hstar Hlp Hlc _ _ Horig Hdust.
      exists sp, sc. split; [exact Ha|]. split; [exact Hstar|].
      split; [lia|]. split; [lia|]. split; [exact Horig|].
      destruct (build_dustSystem build) as [dust|].
      + destruct Hdust as (_ & Ho & Hid & dp & dc & Hd & Hl1 & Hl2 & _).
        split; [exact Ho|]. split; [exact Hid|]. exists dp, dc.
        split; [exact Hd | congruence].
      + destruct Hdust as (_ & Ho & Hid). split; assumption. }
  apply wp_result in Hwp. destruct Hwp as (build & w' & Hrun & sp & sc & H).
  exists build, w', sp, sc. split; [exact Hrun | exact H].
Qed.

Lemma build_records_what_it_made_witness :
  exists build w',
    createSingleGalaxyGroup (exampleParams 5 4000) (constantDraws 0.5) (exampleWorld [])
    = Normal (build, w')
    /\ allocOnly (exampleWorld []) w'
    /\ build_originalStarMaterialOpacity build = Fin 1.
Proof.
  destruct (build_records_what_it_made (exampleParams 5 4000) 4000
              (constantDraws 0.5) (exampleWorld []))
    as (build & w' & sp & sc & Hrun & Ha & _ & _ & _ & Ho & _).
  - intros n. unfold constantDraws. lra.
  - reflexivity.
  - lia.
  - lia.
  - exists build, w'. split; [exact Hrun|]. split; [exact Ha | exact Ho].
Defined.

(** X7: how many dust points a galaxy of [k] stars gets: more than k/6 - 1 and
    at most k/3, so that a galaxy of fewer than 3 stars has no dust and a
    galaxy of at least 6 stars always has some. *)
Theorem dust_count_thresholds (params : GalaxyParams) (k : Z) (rng : Rng) (w : World.t) :
  uniform rng ->
  numStarPoints params = Fin (IZR k) -> (0 <= k)%Z -> (3 * k <= 2 ^ 53 - 1)%Z ->
  exists build w' (c : nat),
    createSingleGalaxyGroup params rng w = Normal (build, w')
    /\ (IZR k / 6 - 1 < INR c <= IZR k / 3)%R
    /\ match build_dustSystem build with
       | None => c = 0%nat
       | Some dust =>
           (0 < c)%nat
           /\ length (BufferGeometry.position (Points.geometry dust)) = (3 * c)%nat
       end
    /\ ((k < 3)%Z -> build_dustSystem build = None)
    /\ ((6 <= k)%Z -> build_dustSystem build <> None).
Proof.
  intros Hu Hn Hk Hmax.
  assert (Hwp : wp (createSingleGalaxyGroup params) rng w
            (fun build w' => exists c : nat,
               (IZR k / 6 - 1 < INR c <= IZR k / 3)%R
               /\ match build_dustSystem build with
                  | None => c = 0%nat
                  | Some dust =>
                      (0 < c)%nat
                      /\ length (BufferGeometry.position (Points.geometry dust))
                         = (3 * c)%nat
                  end)).
  { apply (createSingleGalaxyGroup_points (fun _ => True) (fun _ => True)
             (fun _ => True) (fun _ => True) params k); try assumption.
    - apply starBody_any.
    - apply dustBody_any.
    - intros build w' u c sp sc _ Hu36 Hc Hcb _ _ _ _ _ _ _ Hdust.
      exists (Z.to_nat c).
      assert (Hbound : (IZR k / 6 - 1 < IZR c <= IZR k / 3)%R).
      { pose proof (Zfloor_bound (IZR k / u)) as Hb. rewrite <- Hc in Hb.
        assert (Hkr : (0 <= IZR k)%R) by (apply IZR_le; exact Hk).
        assert (Hinv : (/ 6 < / u <= / 3)%R).
        { split; [apply Rinv_lt_contravar; nra | apply Rinv_le_contravar; lra]. }
        unfold Rdiv in *. nra. }
      split.
      + rewrite INR_IZR_INZ. rewrite Z2Nat.id by lia. exact Hbound.
      + destruct (build_dustSystem build) as [dust|].
        * destruct Hdust as (Hpos & _ & _ & dp & dc & -> & Hl & _).
          cbn [Points.geometry BufferGeometry.position]. split; [lia | lia].
        * destruct Hdust as (-> & _). reflexivity. }
  apply wp_result in Hwp. destruct Hwp as (build & w' & Hrun & c & Hb & Hd).
  exists build, w', c. split; [exact Hrun|]. split; [exact Hb|]. split; [exact Hd|].
  split.
  - intros Hk3. destruct (build_dustSystem build) as [dust|]; [|reflexivity].
    exfalso. destruct Hd as [Hpos _].
    assert (1 <= INR c)%R by (apply (le_INR 1); lia).
    assert (IZR k <= 2)%R by (apply IZR_le; lia). lra.
  - intros Hk6 Hnone. rewrite Hnone in Hd. subst c. cbn [INR] in Hb.
    assert (6 <= IZR k)%R by (apply IZR_le; lia). lra.
Qed.

Lemma dust_count_thresholds_witness :
  exists build w',
    createSingleGalaxyGroup (exampleParams 5 2) (constantDraws 0.5) (exampleWorld [])
    = Normal (build, w')
    /\ build_dustSystem build = None.
Proof.
  destruct (dust_count_thresholds (exampleParams 5 2) 2 (constantDraws 0.5) (exampleWorld []))
    as (build & w' & c & Hrun & _ & _ & Hnone & _).
  - intros n. unfold constantDraws. lra.
  - reflexivity.
  - lia.
  - lia.
  - exists build, w'. split; [exact Hrun | apply Hnone; lia].
Defined.

Lemma rand_eq (lo hi : num) rng w :
  rand lo hi rng w
  = Normal (Fin (rng (World.randomCalls w)) * (hi - lo) + lo, afterDraws 1 w).
Proof. reflexivity. Qed.

Lemma Float32Array_negative (x : R) rng w :
  (x <= -1)%R -> Float32Array (Fin x) rng w = Throw RangeError.
Proof.
  intros Hx. unfold Float32Array, Ztrunc. rewrite Rltb_true by lra.
  assert (Hc : (Zceil x <= -1)%Z).
  { replace (-1)%Z with (Zceil (IZR (-1))).
    - apply Zceil_le. exact Hx.
    - apply Zceil_eq. lra. }
  destruct (Zceil x <? 0)%Z eqn:Hneg; [reflexivity|].
  apply Z.ltb_ge in Hneg. lia.
Qed.

(** X8: a star count that is infinite, or so negative that three times it is -1
    or less, makes the builder throw a RangeError at its first array; a
    count that is NaN builds an empty star cloud and no dust. *)
Theorem builder_rejects_bad_counts (params : GalaxyParams) (rng : Rng) (w : World.t) :
  ((numStarPoints params = PInf
    \/ numStarPoints params = NInf
    \/ exists x : R, numStarPoints params = Fin x /\ (x * 3 <= -1)%R) ->
   createSingleGalaxyGroup params rng w = Throw RangeError)
  /\ (numStarPoints params = NaN ->
      exists build w',
        createSingleGalaxyGroup params rng w = Normal (build, w')
        /\ Points.geometry (build_starSystem build) = BufferGeometry.mk [] []
        /\ build_dustSystem build = None).
Proof.
  split.
  - intros Hbad. unfold createSingleGalaxyGroup.
    unfold mbind at 1. unfold M_bind at 1. rewrite rand_eq. cbv zeta.
    unfold mbind at 1. unfold M_bind at 1.
    destruct Hbad as [H|[H|(x & H & Hx)]]; rewrite H.
    + cbn [mul]. unfold scale_inf. rewrite Reqb_false by lra.
      rewrite Rltb_false by lra. reflexivity.
    + cbn [mul]. unfold scale_inf. rewrite Reqb_false by lra.
      rewrite Rltb_false by lra. reflexivity.
    + cbn [mul]. rewrite Float32Array_negative by exact Hx. reflexivity.
  - intros Hnan. unfold createSingleGalaxyGroup, numDustPoints.
    unfold mbind at 1. unfold M_bind at 1. rewrite rand_eq. cbv zeta.
    rewrite Hnan. eexists _, _. split; [reflexivity|]. split; reflexivity.
Qed.

Lemma builder_rejects_bad_counts_witness :
  createSingleGalaxyGroup (exampleParams 5 (Fin (-1))) (constantDraws 0.5) (exampleWorld [])
  = Throw RangeError.
Proof.
  apply (builder_rejects_bad_counts (exampleParams 5 (Fin (-1))) (constantDraws 0.5)
           (exampleWorld [])).
  right. right. exists (-1)%R. split; [reflexivity | lra].
Defined.

End BuilderMore.

(** ** The frame loop: identity, trigger and release *)

Section FrameLoopMore.
Import JS THREE GalaxyUtils ThreeScene.
Local Open Scope num_scope.

Lemma identity_withRotationY gy sy dy (instance : GalaxyInstance.t) :
  identity (withRotationY gy sy dy instance) = identity instance.
Proof.
  destruct instance as [g bo ba star dust tt dl dis st du tg ini sf os od].
  destruct dust as [dust|], dy as [v|]; reflexivity.
Qed.

Lemma identity_applyProgress progress (instance : GalaxyInstance.t) :
  identity (applyProgress progress instance) = identity instance.
Proof.
  destruct instance as [g bo ba star dust tt dl dis st du tg ini sf os od].
  destruct dust as [dust|], od as [original|], ini as [initial|], tg as [target|];
    reflexivity.
Qed.

Lemma identity_startDisintegration now (instance : GalaxyInstance.t) rng w :
  exists i' w',
    startDisintegration now instance rng w = Normal (i', w')
    /\ identity i' = identity instance.
Proof.
  unfold startDisintegration.
  destruct instance as [g bo ba star dust tt dl dis st du tg ini sf os od].
  destruct dust as [dust|], od as [original|]; eexists _, _; split; reflexivity.
Qed.

Lemma primedSubstep_identity now (instance : GalaxyInstance.t) rng w :
  exists i' w',
    primedSubstep now instance rng w = Normal (i', w') /\ identity i' = identity instance.
Proof.
  unfold primedSubstep.
  destruct (GalaxyInstance.disintegrationTriggerTime instance) as [triggerTime|];
    [|eexists _, _; split; reflexivity].
  destruct (negb (GalaxyInstance.isDisintegrating instance));
    [|eexists _, _; split; reflexivity].
  destruct (now >=? _); [apply identity_startDisintegration|].
  eexists _, _; split; reflexivity.
Qed.

Lemma disintegratingSubstep_identity now (instance : GalaxyInstance.t) rng w :
  exists i' keep w',
    disintegratingSubstep now instance rng w = Normal ((i', keep), w')
    /\ identity i' = identity instance.
Proof.
  unfold disintegratingSubstep.
  destruct (GalaxyInstance.isDisintegrating instance);
    [|eexists _, _, _; split; reflexivity].
  destruct (GalaxyInstance.disintegrationAnimationStartTime instance) as [startTime|];
    [|eexists _, _, _; split; reflexivity].
  destruct (_ >=? 1).
  - destruct (disposeInstance_total instance rng w) as (w' & Hd).
    unfold mbind, M_bind. rewrite Hd. eexists _, _, _; split; reflexivity.
  - eexists _, _, _. split; [reflexivity|]. apply identity_applyProgress.
Qed.

(** X9: whatever the phase of an instance, a frame leaves the ids of its
    objects, its base speeds, its original opacities and its geometries as
    they were. *)
Theorem frame_preserves_identity (now : num) (instance : GalaxyInstance.t)
    (rng : Rng) (w : World.t) :
  exists instance' keep w',
    animateInstance now instance rng w = Normal ((instance', keep), w')
    /\ identity instance' = identity instance.
Proof.
  destruct (rotationSubstep_result instance rng w) as (w1 & Hrot & _).
  cbv zeta in Hrot.
  match type of Hrot with _ = Normal (?i, _) => set (rotated := i) in * end.
  destruct (primedSubstep_identity now rotated rng w1) as (i2 & w2 & Hp & Hid2).
  destruct (disintegratingSubstep_identity now i2 rng w2) as (i3 & keep & w3 & Hd & Hid3).
  exists i3, keep, w3. split.
  - unfold animateInstance, mbind, M_bind. rewrite Hrot, Hp. exact Hd.
  - rewrite Hid3, Hid2. apply identity_withRotationY.
Qed.

(** ** The trigger effect *)

Lemma primeInstance_eq triggerTime (instance : GalaxyInstance.t) rng w :
  uniform rng ->
  exists primed,
    primeInstance triggerTime instance rng w = Normal (primed, afterDraws 1 w)
    /\ primedAt triggerTime instance primed.
Proof.
  intros Hu. pose proof (Hu (World.randomCalls w)) as Hd.
  eexists. split; [reflexivity|].
  exists (rng (World.randomCalls w) * (3000 - 0) + 0)%R. split; [nra | reflexivity].
Qed.

Lemma mapM_primeInstance triggerTime (l : list GalaxyInstance.t) rng w :
  uniform rng ->
  exists primed,
    mapM (primeInstance triggerTime) l rng w = Normal (primed, afterDraws (length l) w)
    /\ Forall2 (primedAt triggerTime) l primed.
Proof.
  intros Hu. revert w. induction l as [|a l IH]; intros w.
  - exists []. split; [|constructor]. destruct w. reflexivity.
  - destruct (primeInstance_eq triggerTime a rng w Hu) as (a' & Ha & Hpa).
    destruct (IH (afterDraws 1 w)) as (l' & Hl & Hpl).
    exists (a' :: l'). split; [|constructor; assumption].
    cbn [mapM]. unfold mbind at 1. unfold M_bind at 1. rewrite Ha.
    unfold mbind at 1. unfold M_bind at 1. rewrite Hl.
    rewrite afterDraws_add. cbn [length]. rewrite Nat.add_1_r. reflexivity.
Qed.

(** X10: the trigger effect does nothing at the key 0.  At any other key it
    primes every instance of the collection, in order: each gets the trigger
    time, a delay of its own from [0, 3000), is marked as not disintegrating
    and loses its start time, and nothing else of it or of the world changes
    but the count of draws, one per instance. *)
Theorem trigger_primes_every_instance (key : nat) (triggerTime : num)
    (rng : Rng) (w : World.t) :
  uniform rng ->
  triggerDisintegration 0 triggerTime rng w = Normal (tt, w)
  /\ (key <> 0%nat ->
      exists primed,
        triggerDisintegration key triggerTime rng w
        = Normal (tt, World.set_galaxyInstancesRef primed
                        (afterDraws (length (World.galaxyInstancesRef w)) w))
        /\ Forall2 (primedAt triggerTime) (World.galaxyInstancesRef w) primed).
Proof.
  intros Hu. split; [reflexivity|]. intros Hkey.
  destruct key as [|key]; [contradiction|].
  destruct (mapM_primeInstance triggerTime (World.galaxyInstancesRef w) rng w Hu)
    as (primed & Hrun & Hall).
  exists primed. split; [|exact Hall].
  unfold triggerDisintegration. unfold mbind at 1. unfold M_bind at 1. unfold get.
  unfold mbind at 1. unfold M_bind at 1. rewrite Hrun. reflexivity.
Qed.

Lemma trigger_primes_every_instance_witness :
  exists primed,
    triggerDisintegration 1 (Fin 1000) (constantDraws 0.5) (exampleWorld [exampleInstance])
    = Normal (tt, World.set_galaxyInstancesRef primed
                    (afterDraws 1 (exampleWorld [exampleInstance])))
    /\ Forall2 (primedAt (Fin 1000)) [exampleInstance] primed.
Proof.
  destruct (trigger_primes_every_instance 1 (Fin 1000) (constantDraws 0.5)
              (exampleWorld [exampleInstance])) as [_ H].
  - intros n. unfold constantDraws. lra.
  - apply H. discriminate.
Defined.

(** ** A trigger while an instance disintegrates *)

Lemma looks_withRotationY gy sy dy (instance : GalaxyInstance.t) :
  looks (withRotationY gy sy dy instance) = looks instance.
Proof.
  destruct instance as [g bo ba star dust tt dl dis st du tg ini sf os od].
  destruct dust as [dust|], dy as [v|]; reflexivity.
Qed.

Lemma primedAt_fields triggerTime (instance primed : GalaxyInstance.t) :
  primedAt triggerTime instance primed ->
  looks primed = looks instance
  /\ identity primed = identity instance
  /\ GalaxyInstance.disintegrationTriggerTime primed = Some triggerTime
  /\ GalaxyInstance.isDisintegrating primed = false
  /\ GalaxyInstance.disintegrationAnimationStartTime primed = None
  /\ exists delay : R,
       GalaxyInstance.disintegrationDelay primed = Fin delay /\ (0 <= delay < 3000)%R.
Proof.
  intros (delay & Hd & ->).
  destruct instance as [g bo ba star dust tt dl dis st du tg ini sf os od].
  repeat split. exists delay. split; [reflexivity | exact Hd].
Qed.

(** X11: a trigger pauses a disintegration that is under way: the instance is
    primed again, and until its new delay has passed every frame leaves its
    position, its scales and its opacities where the interrupted
    disintegration had brought them; only the rotations go on. *)
Theorem retrigger_pauses_disintegration (instance primed : GalaxyInstance.t)
    (triggerTime delay now : R) (rng : Rng) (w : World.t) :
  primedAt (Fin triggerTime) instance primed ->
  GalaxyInstance.disintegrationDelay primed = Fin delay ->
  (now < triggerTime + delay)%R ->
  exists gy sy dy w',
    animateInstance (Fin now) primed rng w
    = Normal ((withRotationY gy sy dy primed, true), w')
    /\ looks (withRotationY gy sy dy primed) = looks instance
    /\ GalaxyInstance.isDisintegrating (withRotationY gy sy dy primed) = false.
Proof.
  intros Hp Hdelay Hnow.
  destruct (primedAt_fields _ _ _ Hp) as (Hlooks & _ & Htt & Hdis & _ & _).
  destruct (animateInstance_rotation_only (Fin now) primed rng w Hdis)
    as (gy & sy & dy & w' & Hrun & _).
  - intros t Ht. rewrite Htt in Ht. injection Ht as <-. rewrite Hdelay.
    cbn [add ge le]. apply Rleb_false. exact Hnow.
  - exists gy, sy, dy, w'. split; [exact Hrun|].
    split; [rewrite looks_withRotationY; exact Hlooks|].
    destruct (withRotationY_fields gy sy dy primed) as (_ & _ & -> & _). exact Hdis.
Qed.

Lemma retrigger_pauses_disintegration_witness :
  exists gy sy dy w',
    animateInstance (Fin 1400)
      (GalaxyInstance.set_disintegrationAnimationStartTime None
         (GalaxyInstance.set_isDisintegrating false
            (GalaxyInstance.set_disintegrationDelay (Fin 500)
               (GalaxyInstance.set_disintegrationTriggerTime (Some (Fin 1000))
                  exampleDisintegrating))))
      (constantDraws 0.5) (exampleWorld [])
    = Normal ((withRotationY gy sy dy
                 (GalaxyInstance.set_disintegrationAnimationStartTime None
                    (GalaxyInstance.set_isDisintegrating false
                       (GalaxyInstance.set_disintegrationDelay (Fin 500)
                          (GalaxyInstance.set_disintegrationTriggerTime (Some (Fin 1000))
                             exampleDisintegrating)))), true), w').
Proof.
  destruct (retrigger_pauses_disintegration exampleDisintegrating
              (GalaxyInstance.set_disintegrationAnimationStartTime None
                 (GalaxyInstance.set_isDisintegrating false
                    (GalaxyInstance.set_disintegrationDelay (Fin 500)
                       (GalaxyInstance.set_disintegrationTriggerTime (Some (Fin 1000))
                          exampleDisintegrating))))
              1000 500 1400 (constantDraws 0.5) (exampleWorld []))
    as (gy & sy & dy & w' & Hrun & _).
  - exists 500%R. split; [lra | reflexivity].
  - reflexivity.
  - lra.
  - exists gy, sy, dy, w'. exact Hrun.
Defined.

(** ** The end of a disintegration *)

Lemma identity_objects (a b : GalaxyInstance.t) :
  identity a = identity b ->
  objectIds a = objectIds b /\ disposeEvents a = disposeEvents b.
Proof.
  intros H.
  assert (Hids : objectIds a = objectIds b)
    by exact (f_equal (fun t => fst (fst (fst (fst (fst (fst t)))))) H).
  assert (Hdust : THREE.Points.geometry <$> GalaxyInstance.dustSystem a
                  = THREE.Points.geometry <$> GalaxyInstance.dustSystem b)
    by exact (f_equal snd H).
  clear H. split; [exact Hids|].
  unfold objectIds in Hids. unfold disposeEvents.
  destruct (GalaxyInstance.dustSystem a) as [da|], (GalaxyInstance.dustSystem b) as [db|];
    try discriminate; cbn in Hids |- *; congruence.
Qed.

Lemma disposeInstance_exact (instance : GalaxyInstance.t) rng w sc :
  World.sceneRef w = Some sc ->
  exists w' sc',
    disposeInstance instance rng w = Normal (tt, w')
    /\ w' = World.set_sceneRef (Some sc')
              (World.set_disposeLog (World.disposeLog w ++ disposeEvents instance) w)
    /\ forall c, In c (Scene.children sc')
                 <-> In c (Scene.children sc) /\ ~ In c (objectIds instance).
Proof.
  intros Hsc. unfold disposeInstance, disposeEvents, objectIds.
  destruct w as [rc oid dlog sref cam gi om am]. cbn [World.sceneRef] in Hsc. subst sref.
  destruct (GalaxyInstance.dustSystem instance) as [dust|].
  - eexists _, _. split; [reflexivity|]. split.
    + cbn. unfold World.set_sceneRef, World.set_disposeLog. cbn.
      rewrite <- !app_assoc. reflexivity.
    + intros c. rewrite !In_remove. cbn [In app]. intuition congruence.
  - eexists _, _. split; [reflexivity|]. split.
    + cbn. unfold World.set_sceneRef, World.set_disposeLog. cbn.
      rewrite <- !app_assoc. reflexivity.
    + intros c. rewrite !In_remove. cbn [In app]. intuition congruence.
Qed.

(** The frame at or after the end of the duration. *)
Lemma animateInstance_finishing (instance : GalaxyInstance.t)
    (startTime duration now : R) (scene : Scene.t) (rng : Rng) (w : World.t) :
  GalaxyInstance.isDisintegrating instance = true ->
  GalaxyInstance.disintegrationAnimationStartTime instance = Some (Fin startTime) ->
  GalaxyInstance.disintegrationDuration instance = Fin duration ->
  (0 < duration)%R ->
  (startTime + duration * 1000 <= now)%R ->
  World.sceneRef w = Some scene ->
  exists instance' w1 w' scene',
    animateInstance (Fin now) instance rng w = Normal ((instance', false), w')
    /\ drawsOnly w w1
    /\ w' = World.set_sceneRef (Some scene')
              (World.set_disposeLog (World.disposeLog w1 ++ disposeEvents instance) w1)
    /\ forall c, In c (Scene.children scene')
                 <-> In c (Scene.children scene) /\ ~ In c (objectIds instance).
Proof.
  intros Hdis Hstart Hdur Hd Hnow Hsc.
  destruct (rotationSubstep_result instance rng w) as (w1 & Hrot & Hw1).
  cbv zeta in Hrot.
  match type of Hrot with _ = Normal (?i, _) => set (rotated := i) in * end.
  assert (Hid : identity rotated = identity instance) by apply identity_withRotationY.
  destruct (identity_objects _ _ Hid) as [Hids Hev].
  assert (Hsc1 : World.sceneRef w1 = Some scene).
  { rewrite Hw1. destruct w. exact Hsc. }
  destruct (disposeInstance_exact rotated rng w1 scene Hsc1)
    as (w2 & sc' & Hdisp & Hw2 & Hch).
  exists rotated, w1, w2, sc'. split; [|split; [exact Hw1|split]].
  - unfold animateInstance, mbind, M_bind. rewrite Hrot.
    rewrite primedSubstep_idle by (right; exact Hdis).
    unfold disintegratingSubstep.
    change (GalaxyInstance.isDisintegrating rotated)
      with (GalaxyInstance.isDisintegrating instance).
    change (GalaxyInstance.disintegrationAnimationStartTime rotated)
      with (GalaxyInstance.disintegrationAnimationStartTime instance).
    change (GalaxyInstance.disintegrationDuration rotated)
      with (GalaxyInstance.disintegrationDuration instance).
    rewrite Hdis, Hstart, Hdur. rewrite disintegrationProgress_Fin by lra.
    assert (Hp : (1 <= (now - startTime) / 1000 / duration)%R).
    { apply Rmult_le_reg_r with duration; [exact Hd|].
      unfold Rdiv. rewrite Rmult_assoc, Rinv_l by lra. lra. }
    rewrite Rmin_left by exact Hp. cbn [ge le]. rewrite Rleb_true by lra.
    unfold mbind, M_bind. rewrite Hdisp. reflexivity.
  - rewrite Hw2, Hev. reflexivity.
  - intros c. rewrite <- Hids. apply Hch.
Qed.

(** X12: the frame at or after the end of the duration releases the instance:
    it is not kept, the geometries and the materials of its stars and its
    dust are disposed, in this order, and its three objects are no longer
    children of the scene; the rest of the scene and the collection that the
    frame is visiting stay. *)
Theorem finished_instance_is_released (instance : GalaxyInstance.t)
    (startTime duration now : R) (scene : Scene.t) (rng : Rng) (w : World.t) :
  GalaxyInstance.isDisintegrating instance = true ->
  GalaxyInstance.disintegrationAnimationStartTime instance = Some (Fin startTime) ->
  GalaxyInstance.disintegrationDuration instance = Fin duration ->
  (0 < duration)%R ->
  (startTime + duration * 1000 <= now)%R ->
  World.sceneRef w = Some scene ->
  exists instance' w' scene',
    animateInstance (Fin now) instance rng w = Normal ((instance', false), w')
    /\ World.disposeLog w' = World.disposeLog w ++ disposeEvents instance
    /\ World.sceneRef w' = Some scene'
    /\ (forall c, In c (Scene.children scene')
                  <-> In c (Scene.children scene) /\ ~ In c (objectIds instance))
    /\ World.galaxyInstancesRef w' = World.galaxyInstancesRef w.
Proof.
  intros Hdis Hstart Hdur Hd Hnow Hsc.
  destruct (animateInstance_finishing instance startTime duration now scene rng w
              Hdis Hstart Hdur Hd Hnow Hsc)
    as (instance' & w1 & w' & scene' & Hrun & Hw1 & Hw' & Hch).
  exists instance', w', scene'. split; [exact Hrun|].
  split; [rewrite Hw', Hw1; destruct w; reflexivity|].
  split; [rewrite Hw'; reflexivity|].
  split; [exact Hch|].
  rewrite Hw', Hw1. destruct w. reflexivity.
Qed.

Lemma finished_instance_is_released_witness :
  exists instance' w' scene',
    animateInstance (Fin 2000) exampleDisintegrating (constantDraws 0.5)
      (exampleWorld [exampleDisintegrating])
    = Normal ((instance', false), w')
    /\ World.disposeLog w' = [] ++ disposeEvents exampleDisintegrating
    /\ World.sceneRef w' = Some scene'.
Proof.
  destruct (finished_instance_is_released exampleDisintegrating 0 2 2000 (Scene.mk [])
              (constantDraws 0.5) (exampleWorld [exampleDisintegrating]))
    as (instance' & w' & scene' & Hrun & Hlog & Hsc & _).
  - reflexivity.
  - reflexivity.
  - reflexivity.
  - lra.
  - lra.
  - reflexivity.
  - exists instance', w', scene'. split; [exact Hrun|]. split; [exact Hlog | exact Hsc].
Defined.

(** ** From the trigger to the end *)

Lemma startDisintegration_timing now (instance : GalaxyInstance.t) rng w :
  uniform rng ->
  exists i' w' (d s : R),
    startDisintegration now instance rng w = Normal (i', w')
    /\ GalaxyInstance.isDisintegrating i' = true
    /\ GalaxyInstance.disintegrationAnimationStartTime i' = Some now
    /\ GalaxyInstance.disintegrationDuration i' = Fin d /\ (2 <= d < 4.5)%R
    /\ GalaxyInstance.disintegrationRandomScaleFactor i' = Fin s /\ (2.5 <= s < 7)%R
    /\ identity i' = identity instance.
Proof.
  intros Hu.
  pose proof (Hu (World.randomCalls w)) as H1.
  pose proof (Hu (S (World.randomCalls w))) as H2.
  unfold startDisintegration.
  destruct instance as [g bo ba star dust tt dl dis st du tg ini sf os od].
  destruct dust as [dust|], od as [original|];
    (eexists _, _, (rng (World.randomCalls w) * (4.5 - 2.0) + 2.0)%R,
       (rng (S (World.randomCalls w)) * (7.0 - 2.5) + 2.5)%R;
     split; [reflexivity|]; repeat split; lra).
Qed.

(** At the frame that starts a disintegration the progress is not yet 1,
    whatever the duration. *)
Lemma progress_at_start (now : num) (d : R) :
  (disintegrationProgress now now (Fin d) >=? 1) = false.
Proof.
  unfold disintegrationProgress. destruct now as [t| | |]; cbn [sub add neg]; try reflexivity.
  rewrite div_Fin by lra.
  replace ((t + - t) / 1000)%R with 0%R by (unfold Rdiv; ring).
  destruct (Req_dec_T d 0) as [->|Hd].
  - rewrite (div_zero_zero 0 0) by reflexivity. reflexivity.
  - rewrite div_Fin by exact Hd. rewrite min_Fin. cbn [ge le].
    apply Rleb_false. replace (0 / d)%R with 0%R by (unfold Rdiv; ring).
    rewrite Rmin_right by lra. lra.
Qed.

(** The frame in which the delay of a primed instance has passed: the
    instance is kept and disintegrates from now on. *)
Lemma animateInstance_starts now (instance : GalaxyInstance.t) triggerTime rng w :
  uniform rng ->
  GalaxyInstance.disintegrationTriggerTime instance = Some triggerTime ->
  GalaxyInstance.isDisintegrating instance = false ->
  (now >=? triggerTime + GalaxyInstance.disintegrationDelay instance) = true ->
  exists i' w' (d : R),
    animateInstance now instance rng w = Normal ((i', true), w')
    /\ GalaxyInstance.isDisintegrating i' = true
    /\ GalaxyInstance.disintegrationAnimationStartTime i' = Some now
    /\ GalaxyInstance.disintegrationDuration i' = Fin d /\ (2 <= d < 4.5)%R
    /\ identity i' = identity instance.
Proof.
  intros Hu Htt Hdis Hdue.
  destruct (rotationSubstep_result instance rng w) as (w1 & Hrot & _).
  cbv zeta in Hrot.
  match type of Hrot with _ = Normal (?i, _) => set (rotated := i) in * end.
  destruct (startDisintegration_timing now rotated rng w1 Hu)
    as (i2 & w2 & d & s & Hstart & Hdis2 & Hst2 & Hdu2 & Hd & Hsf2 & _ & Hid2).
  destruct (applyProgress_zero i2 s Hsf2) as (Ha & Hb & _ & _ & He & _).
  cbv zeta in Ha, Hb, He.
  assert (Hprog : disintegrationProgress now now (GalaxyInstance.disintegrationDuration i2)
                  = disintegrationProgress now now (Fin d)) by (rewrite Hdu2; reflexivity).
  assert (Hrun : animateInstance now instance rng w
                 = Normal ((applyProgress (disintegrationProgress now now (Fin d)) i2, true),
                           w2)).
  { unfold animateInstance. unfold mbind at 1. unfold M_bind at 1. rewrite Hrot.
    unfold mbind, M_bind.
    rewrite (primedSubstep_due _ _ triggerTime); [|exact Htt|exact Hdis|exact Hdue].
    rewrite Hstart.
    rewrite (disintegratingSubstep_running _ _ now); [|exact Hdis2|exact Hst2|].
    - rewrite Hprog. reflexivity.
    - rewrite Hprog. apply progress_at_start. }
  exists (applyProgress (disintegrationProgress now now (Fin d)) i2), w2, d.
  split; [exact Hrun|].
  assert (Hkeep : forall p,
             GalaxyInstance.isDisintegrating (applyProgress p i2)
             = GalaxyInstance.isDisintegrating i2
             /\ GalaxyInstance.disintegrationAnimationStartTime (applyProgress p i2)
                = GalaxyInstance.disintegrationAnimationStartTime i2
             /\ GalaxyInstance.disintegrationDuration (applyProgress p i2)
                = GalaxyInstance.disintegrationDuration i2).
  { intros p. clear. 
    destruct i2 as [g bo ba star dust tt dl dis st du tg ini sf os od].
    destruct dust as [dust|], od as [original|], ini as [initial|], tg as [target|];
      repeat split. }
  destruct (Hkeep (disintegrationProgress now now (Fin d))) as (-> & -> & ->).
  split; [exact Hdis2|]. split; [exact Hst2|]. split; [exact Hdu2|]. split; [exact Hd|].
  rewrite identity_applyProgress, Hid2. apply identity_withRotationY.
Qed.

(** X13: from the trigger to the end: a primed instance that gets a frame at or
    after its trigger time plus its delay starts to disintegrate and is kept;
    any frame 4500 milliseconds or more after that one releases it: it is
    dropped, its geometries and materials are disposed and its objects leave
    the scene. *)
Theorem primed_instance_is_gone_in_time (instance : GalaxyInstance.t)
    (triggerTime delay now1 now2 : R) (scene : Scene.t)
    (rng1 rng2 : Rng) (w1 w2 : World.t) :
  uniform rng1 ->
  GalaxyInstance.disintegrationTriggerTime instance = Some (Fin triggerTime) ->
  GalaxyInstance.disintegrationDelay instance = Fin delay ->
  GalaxyInstance.isDisintegrating instance = false ->
  (triggerTime + delay <= now1)%R ->
  (now1 + 4500 <= now2)%R ->
  World.sceneRef w2 = Some scene ->
  exists started w1',
    animateInstance (Fin now1) instance rng1 w1 = Normal ((started, true), w1')
    /\ exists final w2' scene',
         animateInstance (Fin now2) started rng2 w2 = Normal ((final, false), w2')
         /\ World.disposeLog w2' = World.disposeLog w2 ++ disposeEvents instance
         /\ World.sceneRef w2' = Some scene'
         /\ forall c, In c (Scene.children scene')
                      <-> In c (Scene.children scene) /\ ~ In c (objectIds instance).
Proof.
  intros Hu Htt Hdelay Hdis Hdue Hlate Hsc.
  destruct (animateInstance_starts (Fin now1) instance (Fin triggerTime) rng1 w1 Hu Htt Hdis)
    as (started & w1' & d & Hrun1 & Hdis1 & Hst1 & Hdu1 & Hd & Hid).
  { rewrite Hdelay. cbn [add ge le]. apply Rleb_true. exact Hdue. }
  exists started, w1'. split; [exact Hrun1|].
  destruct (animateInstance_finishing started now1 d now2 scene rng2 w2)
    as (final & w3 & w2' & scene' & Hrun2 & Hw3 & Hw2' & Hch); try assumption; try lra.
  destruct (identity_objects _ _ Hid) as [Hids Hev].
  exists final, w2', scene'. split; [exact Hrun2|].
  split; [rewrite Hw2', Hev, Hw3; destruct w2; reflexivity|].
  split; [rewrite Hw2'; reflexivity|].
  intros c. rewrite <- Hids. apply Hch.
Qed.

Lemma primed_instance_is_gone_in_time_witness :
  exists started w1',
    animateInstance (Fin 1500) examplePrimed (constantDraws 0.5) (exampleWorld [examplePrimed])
    = Normal ((started, true), w1')
    /\ exists final w2' scene',
         animateInstance (Fin 6000) started (constantDraws 0.5) (exampleWorld [started])
         = Normal ((final, false), w2')
         /\ World.disposeLog w2' = [] ++ disposeEvents examplePrimed
         /\ World.sceneRef w2' = Some scene'.
Proof.
  destruct (primed_instance_is_gone_in_time examplePrimed 1000 500 1500 6000 (Scene.mk [])
              (constantDraws 0.5) (constantDraws 0.5)
              (exampleWorld [examplePrimed]) (exampleWorld [examplePrimed]))
    as (started & w1' & Hrun1 & _).
  - intros n. unfold constantDraws. lra.
  - reflexivity.
  - reflexivity.
  - reflexivity.
  - lra.
  - lra.
  - reflexivity.
  - exists started, w1'. split; [exact Hrun1|].
    destruct (primed_instance_is_gone_in_time examplePrimed 1000 500 1500 6000 (Scene.mk [])
                (constantDraws 0.5) (constantDraws 0.5)
                (exampleWorld [examplePrimed]) (exampleWorld [started]))
      as (started' & w1'' & Hrun1' & final & w2' & scene' & Hrun2 & Hlog & Hsc & _).
    + intros n. unfold constantDraws. lra.
    + reflexivity.
    + reflexivity.
    + reflexivity.
    + lra.
    + lra.
    + reflexivity.
    + rewrite Hrun1 in Hrun1'. injection Hrun1' as <- <-.
      exists final, w2', scene'. split; [exact Hrun2|]. split; [exact Hlog | exact Hsc].
Defined.

(** ** The collection after a frame *)

Lemma not_disintegrating_is_kept now (instance : GalaxyInstance.t) rng w :
  uniform rng ->
  GalaxyInstance.isDisintegrating instance = false ->
  exists i' w', animateInstance now instance rng w = Normal ((i', true), w').
Proof.
  intros Hu Hdis.
  destruct (GalaxyInstance.disintegrationTriggerTime instance) as [triggerTime|] eqn:Htt.
  - destruct (now >=? triggerTime + GalaxyInstance.disintegrationDelay instance) eqn:Hdue.
    + destruct (animateInstance_starts now instance triggerTime rng w Hu Htt Hdis Hdue)
        as (i' & w' & d & Hrun & _).
      exists i', w'. exact Hrun.
    + destruct (animateInstance_rotation_only now instance rng w Hdis)
        as (gy & sy & dy & w' & Hrun & _).
      * intros t Ht. rewrite Htt in Ht. injection Ht as <-. exact Hdue.
      * eexists _, w'. exact Hrun.
  - destruct (animateInstance_rotation_only now instance rng w Hdis)
      as (gy & sy & dy & w' & Hrun & _).
    + intros t Ht. rewrite Htt in Ht. discriminate.
    + eexists _, w'. exact Hrun.
Qed.

Lemma stillActive_length (l : list GalaxyInstance.t)
    (visited : list (GalaxyInstance.t * bool)) :
  Forall2 (fun a b => GalaxyInstance.isDisintegrating a = false -> snd b = true)
    l visited ->
  (length (stillActiveGalaxies visited) <= length l)%nat
  /\ ((forall a, In a l -> GalaxyInstance.isDisintegrating a = false) ->
      length (stillActiveGalaxies visited) = length l).
Proof.
  unfold stillActiveGalaxies. induction 1 as [|a b l visited Hab HF [IH1 IH2]].
  - split; [reflexivity | intros _; reflexivity].
  - cbn [List.filter]. destruct (snd b) eqn:Hb.
    + cbn [fmap list_fmap length]. split; [cbn; lia|].
      intros Hall. cbn. f_equal. apply IH2. intros a' Ha'. apply Hall. right. exact Ha'.
    + cbn [length]. split; [lia|]. intros Hall.
      exfalso. specialize (Hab (Hall a (or_introl eq_refl))). congruence.
Qed.

(** X14: a frame never adds an instance to the collection, and it drops none
    when no instance was disintegrating as the frame began: an instance that
    starts to disintegrate in a frame is still there after it. *)
Theorem frame_drops_only_disintegrating (now : num) (rng : Rng) (w : World.t) :
  uniform rng ->
  exists w',
    animate now rng w = Normal (tt, w')
    /\ (length (World.galaxyInstancesRef w') <= length (World.galaxyInstancesRef w))%nat
    /\ ((forall instance, In instance (World.galaxyInstancesRef w) ->
                          GalaxyInstance.isDisintegrating instance = false) ->
        length (World.galaxyInstancesRef w') = length (World.galaxyInstancesRef w)).
Proof.
  intros Hu.
  assert (Hwp : wp (animate now) rng w (fun _ w' =>
            (length (World.galaxyInstancesRef w') <= length (World.galaxyInstancesRef w))%nat
            /\ ((forall instance, In instance (World.galaxyInstancesRef w) ->
                                  GalaxyInstance.isDisintegrating instance = false) ->
                length (World.galaxyInstancesRef w')
                = length (World.galaxyInstancesRef w)))).
  { unfold animate. apply wp_bind, wp_get. apply wp_bind.
    eapply wp_mono.
    - apply (wp_mapM (animateInstance now) _ rng w (fun _ => True)
               (fun a b => GalaxyInstance.isDisintegrating a = false -> snd b = true));
        [exact I|].
      intros a w0 _ _.
      destruct (GalaxyInstance.isDisintegrating a) eqn:Hdis.
      + destruct (animateInstance_total now a rng w0) as (r & w' & Heq).
        eapply wp_of_eq; [exact Heq|]. split; [discriminate | exact I].
      + destruct (not_disintegrating_is_kept now a rng w0 Hu Hdis) as (i' & w' & Heq).
        eapply wp_of_eq; [exact Heq|]. split; [reflexivity | exact I].
    - intros visited w' [HF _]. apply wp_modify.
      destruct w'. cbn [World.set_galaxyInstancesRef World.galaxyInstancesRef].
      apply stillActive_length. exact HF. }
  apply wp_result in Hwp. destruct Hwp as ([] & w' & Hrun & H). exists w'. split; assumption.
Qed.

Lemma frame_drops_only_disintegrating_witness :
  exists w',
    animate (Fin 1500) (constantDraws 0.5) (exampleWorld [examplePrimed; exampleInstance])
    = Normal (tt, w')
    /\ length (World.galaxyInstancesRef w') = 2%nat.
Proof.
  destruct (frame_drops_only_disintegrating (Fin 1500) (constantDraws 0.5)
              (exampleWorld [examplePrimed; exampleInstance]))
    as (w' & Hrun & _ & Hall).
  - intros n. unfold constantDraws. lra.
  - exists w'. split; [exact Hrun|]. apply Hall.
    intros instance [<-|[<-|[]]]; reflexivity.
Defined.

(** ** The speed props *)

Lemma frame_rotations now (instance : GalaxyInstance.t) rng w :
  exists i' keep w',
    animateInstance now instance rng w = Normal ((i', keep), w')
    /\ Euler.y (Group.rotation (GalaxyInstance.group i'))
       = Euler.y (Group.rotation (GalaxyInstance.group instance))
         + GalaxyInstance.baseOrbitSpeed instance
           * World.galaxyOrbitSpeedMultiplierRefCurrent w * 100
    /\ Euler.y (Points.rotation (GalaxyInstance.starSystem i'))
       = Euler.y (Points.rotation (GalaxyInstance.starSystem instance))
         + GalaxyInstance.baseArmSpeed instance
           * World.armInternalSpeedMultiplierRefCurrent w * 100.
Proof.
  destruct (rotationSubstep_result instance rng w) as (w1 & Hrot & _).
  cbv zeta in Hrot.
  match type of Hrot with _ = Normal (?i, _) => set (rotated := i) in * end.
  destruct (after_rotation_rotationsY now rotated rng w1) as (i' & keep & w' & Hrest & Hr).
  exists i', keep, w'. split.
  - unfold animateInstance. unfold mbind at 1. unfold M_bind at 1. rewrite Hrot.
    exact Hrest.
  - unfold rotated in Hr. rewrite rotationsY_withRotationY in Hr.
    unfold rotationsY in Hr. injection Hr as Hg Hs _. split; assumption.
Qed.

(** X15: a new value of a speed prop is the multiplier of the next frame: after
    the orbit speed is set to v the group turns by baseOrbitSpeed * v * 100,
    and after the arm speed is set to v the stars turn by baseArmSpeed * v *
    100, the other multiplier being the one of before; at the speed 0 a
    finite rotation stays as it is. *)
Theorem speed_props_drive_the_next_frame (v now : num) (instance : GalaxyInstance.t)
    (rng : Rng) (w : World.t) :
  (exists i' keep w',
      (Stage.setGalaxyOrbitSpeedMultiplier v ≫= fun _ => animateInstance now instance) rng w
      = Normal ((i', keep), w')
      /\ Euler.y (Group.rotation (GalaxyInstance.group i'))
         = Euler.y (Group.rotation (GalaxyInstance.group instance))
           + GalaxyInstance.baseOrbitSpeed instance * v * 100
      /\ Euler.y (Points.rotation (GalaxyInstance.starSystem i'))
         = Euler.y (Points.rotation (GalaxyInstance.starSystem instance))
           + GalaxyInstance.baseArmSpeed instance
             * World.armInternalSpeedMultiplierRefCurrent w * 100
      /\ forall y speed : R,
           v = Fin 0 ->
           Euler.y (Group.rotation (GalaxyInstance.group instance)) = Fin y ->
           GalaxyInstance.baseOrbitSpeed instance = Fin speed ->
           Euler.y (Group.rotation (GalaxyInstance.group i')) = Fin y)
  /\ (exists i' keep w',
        (Stage.setArmInternalSpeedMultiplier v ≫= fun _ => animateInstance now instance) rng w
        = Normal ((i', keep), w')
        /\ Euler.y (Group.rotation (GalaxyInstance.group i'))
           = Euler.y (Group.rotation (GalaxyInstance.group instance))
             + GalaxyInstance.baseOrbitSpeed instance
               * World.galaxyOrbitSpeedMultiplierRefCurrent w * 100
        /\ Euler.y (Points.rotation (GalaxyInstance.starSystem i'))
           = Euler.y (Points.rotation (GalaxyInstance.starSystem instance))
             + GalaxyInstance.baseArmSpeed instance * v * 100
        /\ forall y speed : R,
             v = Fin 0 ->
             Euler.y (Points.rotation (GalaxyInstance.starSystem instance)) = Fin y ->
             GalaxyInstance.baseArmSpeed instance = Fin speed ->
             Euler.y (Points.rotation (GalaxyInstance.starSystem i')) = Fin y).
Proof.
  split.
  - unfold Stage.setGalaxyOrbitSpeedMultiplier, modify. unfold mbind at 1. unfold M_bind at 1.
    match goal with |- context [animateInstance now instance rng ?w0] =>
      destruct (frame_rotations now instance rng w0) as (i' & keep & w' & Hrun & Hg & Hs) end.
    exists i', keep, w'. split; [exact Hrun|]. split; [exact Hg|]. split; [exact Hs|].
    intros y speed -> Hy Hspeed. rewrite Hg, Hy, Hspeed. cbn. f_equal. ring.
  - unfold Stage.setArmInternalSpeedMultiplier, modify. unfold mbind at 1. unfold M_bind at 1.
    match goal with |- context [animateInstance now instance rng ?w0] =>
      destruct (frame_rotations now instance rng w0) as (i' & keep & w' & Hrun & Hg & Hs) end.
    exists i', keep, w'. split; [exact Hrun|]. split; [exact Hg|]. split; [exact Hs|].
    intros y speed -> Hy Hspeed. rewrite Hs, Hy, Hspeed. cbn. f_equal. ring.
Qed.

Lemma speed_props_drive_the_next_frame_witness :
  exists i' keep w',
    (Stage.setGalaxyOrbitSpeedMultiplier (Fin 0) ≫= fun _ => animateInstance 16 exampleInstance)
      (constantDraws 0.5) (exampleWorld [exampleInstance])
    = Normal ((i', keep), w')
    /\ Euler.y (Group.rotation (GalaxyInstance.group i')) = Fin 0.
Proof.
  destruct (speed_props_drive_the_next_frame (Fin 0) 16 exampleInstance
              (constantDraws 0.5) (exampleWorld [exampleInstance]))
    as [(i' & keep & w' & Hrun & _ & _ & Hzero) _].
  exists i', keep, w'. split; [exact Hrun|].
  apply (Hzero 0%R 0.0005%R); reflexivity.
Defined.

(** ** The fade *)

(** X16: while an instance disintegrates its opacity never rises and its scale
    never shrinks: for a duration above 0 and times t1 <= t2 at or after the
    start, the opacity at t2 is at most the one at t1, both between 0 and the
    original opacity, and the scale at t2 is at least the one at t1, both
    between 1 and 1 + scaleFactor. *)
Theorem fade_is_monotone (original scaleFactor startTime duration t1 t2 : R) :
  (0 <= original)%R ->
  (0 <= scaleFactor)%R ->
  (0 < duration)%R ->
  (startTime <= t1 <= t2)%R ->
  exists o1 o2 s1 s2 : R,
    fadedOpacity (Fin original)
      (disintegrationProgress (Fin t1) (Fin startTime) (Fin duration)) = Fin o1
    /\ fadedOpacity (Fin original)
         (disintegrationProgress (Fin t2) (Fin startTime) (Fin duration)) = Fin o2
    /\ scaleProgress (disintegrationProgress (Fin t1) (Fin startTime) (Fin duration))
         (Fin scaleFactor) = Fin s1
    /\ scaleProgress (disintegrationProgress (Fin t2) (Fin startTime) (Fin duration))
         (Fin scaleFactor) = Fin s2
    /\ (0 <= o2 <= o1)%R /\ (o1 <= original)%R
    /\ (1 <= s1 <= s2)%R /\ (s2 <= 1 + scaleFactor)%R.
Proof.
  intros Ho Hs Hd Ht.
  rewrite !disintegrationProgress_Fin by lra.
  set (p1 := Rmin 1 ((t1 - startTime) / 1000 / duration)).
  set (p2 := Rmin 1 ((t2 - startTime) / 1000 / duration)).
  assert (Hq : forall t, (startTime <= t)%R -> (0 <= (t - startTime) / 1000 / duration)%R).
  { intros t Hge. apply Rdiv_nonneg; [|exact Hd]. apply Rdiv_nonneg; lra. }
  assert (Hmono : ((t1 - startTime) / 1000 / duration
                   <= (t2 - startTime) / 1000 / duration)%R).
  { unfold Rdiv. apply Rmult_le_compat_r; [left; apply Rinv_0_lt_compat; exact Hd|].
    lra. }
  assert (Hp : (0 <= p1 <= p2)%R /\ (p2 <= 1)%R).
  { unfold p1, p2. split; [split|].
    - apply Rmin_glb; [lra | apply Hq; lra].
    - apply Rle_min_compat_l. exact Hmono.
    - apply Rmin_l. }
  unfold fadedOpacity, scaleProgress. cbn [mul sub add neg].
  eexists _, _, _, _. repeat (split; [reflexivity|]).
  destruct Hp as [[Hp1 Hp12] Hp2].
  assert (Hsq : (0 <= p1 * p1 <= p2 * p2)%R /\ (p2 * p2 <= 1)%R) by nra.
  destruct Hsq as [[Hsq0 Hsq1] Hsq2].
  assert (Hsf : (p1 * scaleFactor <= p2 * scaleFactor <= scaleFactor)%R) by nra.
  assert (Hsf0 : (0 <= p1 * scaleFactor)%R) by nra.
  repeat split; nra.
Qed.

Lemma fade_is_monotone_witness :
  exists o1 o2 s1 s2 : R,
    fadedOpacity (Fin 1) (disintegrationProgress (Fin 500) (Fin 0) (Fin 2)) = Fin o1
    /\ fadedOpacity (Fin 1) (disintegrationProgress (Fin 1000) (Fin 0) (Fin 2)) = Fin o2
    /\ scaleProgress (disintegrationProgress (Fin 500) (Fin 0) (Fin 2)) (Fin 3) = Fin s1
    /\ scaleProgress (disintegrationProgress (Fin 1000) (Fin 0) (Fin 2)) (Fin 3) = Fin s2
    /\ (0 <= o2 <= o1)%R /\ (o1 <= 1)%R
    /\ (1 <= s1 <= s2)%R /\ (s2 <= 1 + 3)%R.
Proof.
  apply (fade_is_monotone 1 3 0 2 500 1000); lra.
Defined.

End FrameLoopMore.

(** ** The galaxies of the generation effect *)

Section InstancesMore.
Import JS THREE GalaxyUtils ThreeScene.
Local Open Scope num_scope.

Lemma everyPoint_impl (P Q : Vector3.t -> Prop) buffer :
  (forall p, P p -> Q p) -> everyPoint P buffer -> everyPoint Q buffer.
Proof.
  intros HPQ HP j Hj. destruct (HP j Hj) as (p & Hp & Hpp).
  exists p. split; [exact Hp | apply HPQ, Hpp].
Qed.

Lemma withinDisc_weaken (lo hi h lo' hi' h' : R) p :
  (lo' <= lo)%R -> (hi <= hi')%R -> (h <= h')%R ->
  withinDisc lo hi h p -> withinDisc lo' hi' h' p.
Proof.
  intros Hlo Hhi Hh (x & y & z & -> & Hd & Hy).
  exists x, y, z. split; [reflexivity|]. split; lra.
Qed.

(** One new galaxy, with everything the generator and the builder give. *)
Lemma newGalaxyInstance_full (s : R) rng w (K : GalaxyInstance.t -> World.t -> Prop) :
  uniform rng ->
  (0 < s)%R ->
  (forall w1 starPositions starColors dustPositions dustColors
          (k c : Z) (size dsize dop arm orbit x y z sc : R) rx ry rz,
      allocOnly w w1 ->
      World.object3DId w1 = S (S (S (World.object3DId w))) ->
      (4000 <= k <= 12000)%Z ->
      length starPositions = (3 * Z.to_nat k)%nat ->
      length starColors = (3 * Z.to_nat k)%nat ->
      everyPoint (withinDisc 0 (0.1136 * s) (0.0076 * s)) starPositions ->
      everyColor (colorWithin 1) starColors ->
      (666 <= c <= 4000)%Z ->
      length dustPositions = (3 * Z.to_nat c)%nat ->
      length dustColors = (3 * Z.to_nat c)%nat ->
      everyPoint (withinDisc (0.001 * s) (0.1112 * s) (0.0084 * s)) dustPositions ->
      everyColor (colorWithin 0.3) dustColors ->
      (0.2 <= dop < 0.5)%R ->
      (-0.0015 <= arm < 0.0015)%R ->
      (-0.0008 <= orbit < 0.0008)%R ->
      (0.05 * s <= R_sqrt.sqrt (x * x + y * y + z * z) <= 0.9 * s)%R ->
      (0.4 <= sc < 1.2)%R ->
      K {| GalaxyInstance.group :=
             Group.mk (S (S (World.object3DId w))) (Vector3.mk (Fin x) (Fin y) (Fin z))
               (Euler.mk rx ry rz) (Vector3.mk (Fin sc) (Fin sc) (Fin sc))
               [World.object3DId w; S (World.object3DId w)];
           GalaxyInstance.baseOrbitSpeed := Fin orbit;
           GalaxyInstance.baseArmSpeed := Fin arm;
           GalaxyInstance.starSystem :=
             Points.mk (World.object3DId w) (BufferGeometry.mk starPositions starColors)
               (PointsMaterial.mk (Fin size) 1 AdditiveBlending)
               (Euler.mk 0 0 0) (Vector3.mk 1 1 1);
           GalaxyInstance.dustSystem :=
             Some (Points.mk (S (World.object3DId w))
                     (BufferGeometry.mk dustPositions dustColors)
                     (PointsMaterial.mk (Fin dsize) (Fin dop) NormalBlending)
                     (Euler.mk 0 0 0) (Vector3.mk 1 1 1));
           GalaxyInstance.disintegrationTriggerTime := None;
           GalaxyInstance.disintegrationDelay := 0;
           GalaxyInstance.isDisintegrating := false;
           GalaxyInstance.disintegrationAnimationStartTime := None;
           GalaxyInstance.disintegrationDuration := 0;
           GalaxyInstance.disintegrationTargetCamPos := None;
           GalaxyInstance.disintegrationInitialGroupPos := None;
           GalaxyInstance.disintegrationRandomScaleFactor := 1;
           GalaxyInstance.originalStarMaterialOpacity := 1;
           GalaxyInstance.originalDustMaterialOpacity := Some (Fin dop) |}
        (World.set_sceneRef
           (Scene.add (S (S (World.object3DId w))) <$> World.sceneRef w1) w1)) ->
  wp (newGalaxyInstance (Fin s)) rng w K.
Proof.
  intros Hu Hs HK. unfold newGalaxyInstance.
  apply wp_bind, generated_params_all; [exact Hu | exact Hs |].
  intros params r ratio tight width core np sizeRatio dnp dsize dop dth amp freq arm orbit
         arms points Hr Hrb Hth Hratio Harms Harmsb Htight Htb Hwidth Hwb Hcore Hcb
         Hc1 Hc2 Hc3 Hc4 Hnp Hnpb Hsize Hsb Hpoints Hpb Hc5 Hc6 Hdnp Hdnpb
         Hdsize Hdsb Hdop Hdob Hdth Hdtb Hamp Hab Hfreq Hfb Harm Harmb Horbit Hob.
  assert (Hshape : finiteShape params).
  { exists (r * ratio)%R, (IZR arms), tight, width, core, amp, freq, dth.
    repeat split; try assumption. apply (IZR_le 1). lia. }
  assert (Hr0 : (0 < r)%R) by lra.
  apply wp_bind.
  apply (createSingleGalaxyGroup_points
           (withinDisc 0 (1.42 * r) (0.95 * Rabs (r * ratio)))
           (withinDisc (0.05 * r) (1.39 * r) (0.525 * Rabs (r * ratio) * Rabs dth))
           (colorWithin 1) (colorWithin 0.3) params points);
    [exact Hu | exact Hpoints | lia | lia | | |].
  { apply (starBody_points _ (fun nrc => exists c : R, nrc = Fin c /\ (0 <= c <= 1)%R)).
    - intros w0 K0 HK0. apply (starPosition_extent params r (r * ratio)); try assumption.
      intros p nrc w1 Hw1 Hp Hn. apply HK0; [assumption | assumption|].
      exists nrc. split; [reflexivity | exact Hn].
    - intros nrc (c & -> & Hc) w0 K0 HK0.
      apply (starColor_within params core c); try assumption. lra. }
  { apply dustBody_points.
    - intros w0 K0 HK0.
      apply (dustPosition_extent params r (r * ratio) dth core); try assumption. lra.
    - intros nrc w0 K0 HK0. apply dustParticleColor_within; assumption. }
  intros build w2 u c sp scol Hueq Hub Hceq Hcb2 Hw2 Hstar Hlsp Hlsc Hpts Hcols Horig Hdust.
  assert (Hcpos : (666 <= c <= 4000)%Z).
  { assert (Hk1 : (4000 <= IZR points <= 12000)%R)
      by (split; [apply (IZR_le 4000) | apply (IZR_le points 12000)]; lia).
    assert (Hinv : (/ 6 < / u <= / 3)%R).
    { split; [apply Rinv_lt_contravar; nra | apply Rinv_le_contravar; lra]. }
    rewrite Hceq. split.
    - apply Zfloor_lub. unfold Rdiv. nra.
    - apply le_IZR. pose proof (Zfloor_bound (IZR points / u)) as Hb.
      unfold Rdiv in Hb. nra. }
  destruct build as [bstar bdust bos bod]. cbn in Hstar, Horig, Hdust. subst bstar bos.
  destruct bdust as [dust|]; [|destruct Hdust as (Hc0 & _); lia].
  destruct Hdust as (_ & Hbod & Hid2 & dp & dc & -> & Hldp & Hldc & Hdpts & Hdcols).
  subst bod.
  cbn [build_starSystem build_dustSystem build_originalStarMaterialOpacity
       build_originalDustMaterialOpacity Points.id].
  apply wp_bind, wp_newObject3D. cbv zeta.
  pose proof (allocOnly_newObject w2) as Hw3.
  set (w3 := World.set_object3DId (S (World.object3DId w2)) w2) in *.
  rewrite Hid2.
  cbn [mul].
  apply wp_bind, wp_rand; [exact Hu | lra |].
  intros rr w4 Hrr _ Hw4 _ _.
  apply wp_bind, wp_random_uniform; [exact Hu|]. intros p w5 Hp Hw5.
  apply wp_bind, wp_random_uniform; [exact Hu|]. intros t w6 Ht Hw6.
  apply wp_bind, wp_rand_any. intros rx w7 Hw7.
  apply wp_bind, wp_rand_any. intros ry w8 Hw8.
  apply wp_bind, wp_rand_any. intros rz w9 Hw9.
  apply wp_bind, wp_rand_exact; [exact Hu | lra |].
  intros sc Hsc _.
  apply wp_bind. unfold sceneAdd. apply wp_modify. apply wp_ret.
  assert (Hd : drawsOnly w3 (afterDraws 1 w9)).
  { eapply drawsOnly_trans; [exact Hw4|]. eapply drawsOnly_trans; [exact Hw5|].
    eapply drawsOnly_trans; [exact Hw6|]. eapply drawsOnly_trans; [exact Hw7|].
    eapply drawsOnly_trans; [exact Hw8|]. eapply drawsOnly_trans; [exact Hw9|].
    apply drawsOnly_afterDraws. }
  assert (Ha : allocOnly w (afterDraws 1 w9)).
  { eapply allocOnly_trans; [apply drawsOnly_allocOnly, drawsOnly_afterDraws|].
    eapply allocOnly_trans; [exact Hw2|].
    eapply allocOnly_trans; [exact Hw3|]. apply drawsOnly_allocOnly. exact Hd. }
  assert (Hoid : World.object3DId (afterDraws 1 w9) = S (S (S (World.object3DId w)))).
  { rewrite (drawsOnly_object3DId _ _ Hd). unfold w3. destruct w2. cbn in *. lia. }
  cbn [sub add neg mul]. rewrite acos_Fin by lra.
  unfold Math.PI. cbn [mul Math.sin Math.cos Vector3.set Euler.set].
  rewrite Hsize, Hdsize, Hdop, Harm, Horbit. cbn [mul].
  eapply (HK (afterDraws 1 w9) sp scol dp dc points c _ _ dop arm orbit _ _ _ sc rx ry rz);
    try assumption; try lia.
  - eapply everyPoint_impl; [|exact Hpts]. intros q.
    assert (Hth0 : (0 <= r * ratio <= 0.008 * s)%R) by nra.
    apply withinDisc_weaken; try lra.
    rewrite Rabs_pos_eq by lra. lra.
  - eapply everyPoint_impl; [|exact Hdpts]. intros q.
    assert (Hth0 : (0 <= r * ratio <= 0.008 * s)%R) by nra.
    assert (Hth1 : (r * ratio * dth <= 0.016 * s)%R) by nra.
    apply withinDisc_weaken; try lra.
    rewrite Rabs_pos_eq by lra. rewrite (Rabs_pos_eq dth) by lra. lra.
  - rewrite sphere_norm by lra. lra.
Qed.



(** X18: every galaxy the generation effect makes for a spread s above 0 is
    small against the spread: in its own frame every star lies within
    0.1136 * s of the axis and 0.0076 * s of the plane, every dust point
    between 0.001 * s and 0.1112 * s from the axis and within 0.0084 * s of
    the plane; every star colour is a colour in [0, 1] and every dust colour
    one in [0, 0.3]. *)
Theorem new_galaxy_is_bounded (s : R) (rng : Rng) (w : World.t) :
  (0 < s)%R ->
  uniform rng ->
  exists instance w' dust,
    newGalaxyInstance (Fin s) rng w = Normal (instance, w')
    /\ GalaxyInstance.dustSystem instance = Some dust
    /\ everyPoint (withinDisc 0 (0.1136 * s) (0.0076 * s))
         (BufferGeometry.position (Points.geometry (GalaxyInstance.starSystem instance)))
    /\ everyPoint (withinDisc (0.001 * s) (0.1112 * s) (0.0084 * s))
         (BufferGeometry.position (Points.geometry dust))
    /\ everyColor (colorWithin 1)
         (BufferGeometry.color (Points.geometry (GalaxyInstance.starSystem instance)))
    /\ everyColor (colorWithin 0.3) (BufferGeometry.color (Points.geometry dust)).
Proof.
  intros Hs Hu.
  cut (exists instance w',
          newGalaxyInstance (Fin s) rng w = Normal (instance, w')
          /\ exists dust,
            GalaxyInstance.dustSystem instance = Some dust
            /\ everyPoint (withinDisc 0 (0.1136 * s) (0.0076 * s))
                 (BufferGeometry.position
                    (Points.geometry (GalaxyInstance.starSystem instance)))
            /\ everyPoint (withinDisc (0.001 * s) (0.1112 * s) (0.0084 * s))
                 (BufferGeometry.position (Points.geometry dust))
            /\ everyColor (colorWithin 1)
                 (BufferGeometry.color
                    (Points.geometry (GalaxyInstance.starSystem instance)))
            /\ everyColor (colorWithin 0.3)
                 (BufferGeometry.color (Points.geometry dust))).
  { intros (instance & w' & Hrun & dust & H).
    exists instance, w', dust. split; [exact Hrun | exact H]. }
  apply wp_result. apply newGalaxyInstance_full; [exact Hu | exact Hs |].
  intros w1 sp scol dp dc k c size dsize dop arm orbit x y z sc rx ry rz
         _ _ _ _ _ Hpts Hcols _ _ _ Hdpts Hdcols _ _ _ _ _.
  eexists. split; [reflexivity|]. cbn. repeat split; assumption.
Qed.

Lemma new_galaxy_is_bounded_witness :
  exists instance w',
    newGalaxyInstance (Fin 150) (constantDraws 0.5) (exampleWorld []) = Normal (instance, w')
    /\ everyPoint (withinDisc 0 (0.1136 * 150) (0.0076 * 150))
         (BufferGeometry.position (Points.geometry (GalaxyInstance.starSystem instance))).
Proof.
  destruct (new_galaxy_is_bounded 150 (constantDraws 0.5) (exampleWorld []))
    as (instance & w' & dust & Hrun & _ & Hpts & _).
  - lra.
  - intros n. unfold constantDraws. lra.
  - exists instance, w'. split; [exact Hrun | exact Hpts].
Defined.

(** ** The generation effect, object by object *)

Lemma disposeAll_exact (l : list GalaxyInstance.t) rng w sc :
  World.sceneRef w = Some sc ->
  exists done w' sc',
    mapM disposeInstance l rng w = Normal (done, w')
    /\ w' = World.set_sceneRef (Some sc')
              (World.set_disposeLog
                 (World.disposeLog w ++ concat (disposeEvents <$> l)) w)
    /\ forall c, In c (Scene.children sc')
                 <-> In c (Scene.children sc)
                     /\ forall old, In old l -> ~ In c (objectIds old).
Proof.
  revert w sc. induction l as [|a l IH]; intros w sc Hsc.
  - exists [], w, sc. split; [reflexivity|]. split.
    + cbn. rewrite app_nil_r. destruct w. cbn in *. subst. reflexivity.
    + intros c. split; [intros Hc; split; [exact Hc | intros old []] | tauto].
  - destruct (disposeInstance_exact a rng w sc Hsc) as (w1 & sc1 & Hrun & Hw1 & Hch1).
    assert (Hsc1 : World.sceneRef w1 = Some sc1) by (rewrite Hw1; reflexivity).
    destruct (IH w1 sc1 Hsc1) as (done & w2 & sc2 & Hrun2 & Hw2 & Hch2).
    exists (tt :: done), w2, sc2. split; [|split].
    + cbn [mapM]. unfold mbind at 1. unfold M_bind at 1. rewrite Hrun.
      unfold mbind at 1. unfold M_bind at 1. rewrite Hrun2. reflexivity.
    + rewrite Hw2, Hw1. cbn [fmap list_fmap concat]. rewrite app_assoc.
      destruct w. reflexivity.
    + intros c. rewrite Hch2, Hch1. split.
      * intros [[Hc Ha] Hl]. split; [exact Hc|]. intros old [<-|Hin]; [exact Ha|].
        apply Hl, Hin.
      * intros [Hc Hall]. split; [split; [exact Hc|]|].
        -- apply Hall. left. reflexivity.
        -- intros old Hin. apply Hall. right. exact Hin.
Qed.

(** A generation pass, to the world it leaves. *)
Lemma regenerateGalaxies_exact (n : nat) (s : R) (rng : Rng) (w : World.t)
    (scene : Scene.t) :
  uniform rng ->
  (0 < s)%R ->
  World.sceneRef w = Some scene ->
  exists w' kept,
    regenerateGalaxies (Fin s) (Fin (INR n)) rng w = Normal (tt, w')
    /\ World.disposeLog w'
       = World.disposeLog w ++ concat (disposeEvents <$> World.galaxyInstancesRef w)
    /\ objectIds <$> World.galaxyInstancesRef w'
       = (fun i => [World.object3DId w + 3 * i; World.object3DId w + 3 * i + 1;
                    World.object3DId w + 3 * i + 2]%nat) <$> seq 0 n
    /\ disposeEvents <$> World.galaxyInstancesRef w'
       = (fun i => [GeometryDisposed (World.object3DId w + 3 * i);
                    MaterialDisposed (World.object3DId w + 3 * i);
                    GeometryDisposed (World.object3DId w + 3 * i + 1);
                    MaterialDisposed (World.object3DId w + 3 * i + 1)]%nat) <$> seq 0 n
    /\ World.object3DId w' = (World.object3DId w + 3 * n)%nat
    /\ World.sceneRef w'
       = Some (Scene.mk (kept ++ ((fun i => World.object3DId w + 3 * i + 2)%nat
                                    <$> seq 0 n)))
    /\ forall c, In c kept
                 <-> In c (Scene.children scene)
                     /\ forall old, In old (World.galaxyInstancesRef w) ->
                                    ~ In c (objectIds old).
Proof.
  intros Hu Hs Hsc.
  destruct (disposeAll_exact (World.galaxyInstancesRef w) rng w scene Hsc)
    as (done & w1 & sc1 & Hrun1 & Hw1 & Hch1).
  set (o := World.object3DId w).
  set (ids := fun i : nat => [o + 3 * i; o + 3 * i + 1; o + 3 * i + 2]%nat).
  set (gid := fun i : nat => (o + 3 * i + 2)%nat).
  set (evs := fun i : nat => [GeometryDisposed (o + 3 * i); MaterialDisposed (o + 3 * i);
                              GeometryDisposed (o + 3 * i + 1);
                              MaterialDisposed (o + 3 * i + 1)]%nat).
  set (w2 := World.set_galaxyInstancesRef [] w1).
  assert (Hloop : wp (forLoop n 0
                        (fun _ _ => instance ← newGalaxyInstance (Fin s);
                                    pushInstance instance) tt) rng w2
            (fun _ w' =>
               objectIds <$> World.galaxyInstancesRef w' = ids <$> seq 0 n
               /\ disposeEvents <$> World.galaxyInstancesRef w' = evs <$> seq 0 n
               /\ World.object3DId w' = (o + 3 * n)%nat
               /\ World.sceneRef w'
                  = Some (Scene.mk (Scene.children sc1 ++ (gid <$> seq 0 n)))
               /\ World.disposeLog w' = World.disposeLog w1)).
  { apply (wp_forLoop n 0 _ tt rng w2
             (fun i _ w' =>
                objectIds <$> World.galaxyInstancesRef w' = ids <$> seq 0 i
                /\ disposeEvents <$> World.galaxyInstancesRef w' = evs <$> seq 0 i
                /\ World.object3DId w' = (o + 3 * i)%nat
                /\ World.sceneRef w'
                   = Some (Scene.mk (Scene.children sc1 ++ (gid <$> seq 0 i)))
                /\ World.disposeLog w' = World.disposeLog w1)).
    - unfold w2. rewrite Hw1. cbn. rewrite app_nil_r. repeat split.
      + unfold o. destruct w. cbn. lia.
      + destruct sc1. reflexivity.
    - intros i [] w0 _ (Hobj & Hevs & Hoid & Hscene & Hlog).
      apply wp_bind, newGalaxyInstance_full; [exact Hu | exact Hs |].
      intros wa sp scol dp dc k c size dsize dop arm orbit x y z sc rx ry rz
             Ha Hoida _ _ _ _ _ _ _ _ _ _ _ _ _ _ _.
      unfold pushInstance. apply wp_modify. rewrite !seq_S, !fmap_app.
      destruct (allocOnly_fields _ _ Ha) as (Hsa & Hla & Hia & _).
      destruct wa as [rc oid dlog sref cam gi om am].
      cbn [World.sceneRef World.disposeLog World.galaxyInstancesRef World.object3DId]
        in Hsa, Hla, Hia, Hoida.
      subst sref dlog gi oid.
      rewrite Hscene.
      cbn [World.set_galaxyInstancesRef World.set_sceneRef World.galaxyInstancesRef
           World.sceneRef World.object3DId World.disposeLog fmap option_fmap option_map
           Scene.add Scene.children].
      rewrite !fmap_app, Hobj, Hevs. cbn [fmap list_fmap objectIds GalaxyInstance.starSystem
        GalaxyInstance.dustSystem GalaxyInstance.group Points.id Group.id app Nat.add].
      rewrite Hoid. unfold ids, gid, evs, objectIds, disposeEvents.
      cbn [fmap list_fmap GalaxyInstance.starSystem GalaxyInstance.dustSystem
           GalaxyInstance.group Points.id Group.id app Nat.add].
      split; [repeat f_equal; lia|]. split; [repeat f_equal; lia|]. split; [lia|].
      split; [|exact Hlog]. unfold Scene.add. cbn [Scene.children].
      rewrite <- app_assoc. repeat f_equal. lia.
    - intros [] w' H. exact H. }
  destruct (proj1 (wp_result _ _ _ _) Hloop) as ([] & w' & Hrun2 & Hobj & Hevs & Hoid & Hscene & Hlog).
  exists w', (Scene.children sc1). split; [|split; [|split; [|split; [|split; [|split]]]]].
  - unfold regenerateGalaxies. unfold mbind at 1. unfold M_bind at 1. unfold get.
    rewrite Hsc. unfold mbind at 1. unfold M_bind at 1. rewrite Hrun1.
    unfold mbind at 1. unfold M_bind at 1. unfold modify at 1.
    rewrite iterations_INR. exact Hrun2.
  - rewrite Hlog, Hw1. reflexivity.
  - exact Hobj.
  - exact Hevs.
  - exact Hoid.
  - exact Hscene.
  - exact Hch1.
Qed.

(** X19: a generation pass with a count n and a spread above 0, object by
    object: every resource of every prior instance is disposed exactly once,
    instance after instance; the new instances take the next 3 * n object
    ids, three each in the order stars, dust, group; and the scene holds what
    it held before, the objects of the prior instances apart, followed by the
    groups of the new instances in their order. *)
Theorem regeneration_builds_the_scene (n : nat) (s : R) (rng : Rng) (w : World.t)
    (scene : Scene.t) :
  uniform rng ->
  (0 < s)%R ->
  World.sceneRef w = Some scene ->
  exists w' kept,
    regenerateGalaxies (Fin s) (Fin (INR n)) rng w = Normal (tt, w')
    /\ World.disposeLog w'
       = World.disposeLog w ++ concat (disposeEvents <$> World.galaxyInstancesRef w)
    /\ objectIds <$> World.galaxyInstancesRef w'
       = (fun i => [World.object3DId w + 3 * i; World.object3DId w + 3 * i + 1;
                    World.object3DId w + 3 * i + 2]%nat) <$> seq 0 n
    /\ World.object3DId w' = (World.object3DId w + 3 * n)%nat
    /\ World.sceneRef w'
       = Some (Scene.mk (kept ++ ((fun i => World.object3DId w + 3 * i + 2)%nat
                                    <$> seq 0 n)))
    /\ forall c, In c kept
                 <-> In c (Scene.children scene)
                     /\ forall old, In old (World.galaxyInstancesRef w) ->
                                    ~ In c (objectIds old).
Proof.
  intros Hu Hs Hsc.
  destruct (regenerateGalaxies_exact n s rng w scene Hu Hs Hsc)
    as (w' & kept & Hrun & Hlog & Hobj & _ & Hoid & Hscene & Hkept).
  exists w', kept. split; [exact Hrun|]. split; [exact Hlog|]. split; [exact Hobj|].
  split; [exact Hoid|]. split; [exact Hscene | exact Hkept].
Qed.

Lemma regeneration_builds_the_scene_witness :
  exists w' kept,
    regenerateGalaxies (Fin 150) (Fin (INR 2)) (constantDraws 0.5)
      (exampleWorld [exampleInstance])
    = Normal (tt, w')
    /\ World.disposeLog w' = [] ++ concat (disposeEvents <$> [exampleInstance])
    /\ World.object3DId w' = (3 + 3 * 2)%nat
    /\ World.sceneRef w'
       = Some (Scene.mk (kept ++ ((fun i => 3 + 3 * i + 2)%nat <$> seq 0 2))).
Proof.
  destruct (regeneration_builds_the_scene 2 150 (constantDraws 0.5)
              (exampleWorld [exampleInstance]) (Scene.mk []))
    as (w' & kept & Hrun & Hlog & _ & Hoid & Hscene & _).
  - intros n. unfold constantDraws. lra.
  - lra.
  - reflexivity.
  - exists w', kept. split; [exact Hrun|]. split; [exact Hlog|].
    split; [exact Hoid | exact Hscene].
Defined.

End InstancesMore.

(** ** The background stars and the cleanup *)

Section BackgroundAndUnmount.
Import JS THREE GalaxyUtils ThreeScene.
Local Open Scope num_scope.

Local Arguments JS.add !a !b.
Local Arguments JS.neg !a.
Local Arguments JS.sub !a !b.
Local Arguments JS.mul !a !b.
Local Arguments JS.lt !a !b.
Local Arguments JS.gt !a !b.
Local Arguments JS.le !a !b.
Local Arguments JS.eqb !a !b.

Lemma euclideanModulo_id (h : R) :
  (0 <= h < 1)%R -> Color.euclideanModulo (Fin h) 1 = Fin h.
Proof.
  intros Hh. unfold Color.euclideanModulo, rem. rewrite (Reqb_false 1 0) by lra.
  replace (h / 1)%R with h by (unfold Rdiv; rewrite Rinv_1; ring).
  unfold Ztrunc at 1. rewrite (Rltb_false h 0) by lra.
  rewrite (Zfloor_eq 0 h) by lra. cbn [add].
  replace ((h - 1 * 0 + 1) / 1)%R with (h + 1)%R by (unfold Rdiv; rewrite Rinv_1; ring).
  unfold Ztrunc. rewrite (Rltb_false (h + 1) 0) by lra.
  rewrite (Zfloor_eq 1 (h + 1)) by lra. f_equal. ring.
Qed.

Lemma clamp_id (s : R) : (0 <= s <= 1)%R -> Color.clamp (Fin s) 0 1 = Fin s.
Proof.
  intros Hs. unfold Color.clamp. rewrite min_Fin, max_Fin.
  rewrite Rmin_right by lra. rewrite Rmax_right by lra. reflexivity.
Qed.

Lemma hue2rgb_unit (p q : num) (t : R) :
  (0 <= t <= 1)%R ->
  Color.hue2rgb p q (Fin t)
  = if Rltb t (1 / 6) then p + (q - p) * 6 * Fin t
    else if Rltb t (1 / 2) then q
    else if Rltb t (2 / 3) then p + (q - p) * 6 * (Fin (2 / 3) - Fin t)
    else p.
Proof.
  intros Ht. unfold Color.hue2rgb. rewrite !div_Fin by lra. cbn [lt gt].
  rewrite (Rltb_false t 0) by lra. cbn [lt gt]. rewrite (Rltb_false 1 t) by lra.
  cbn [lt]. reflexivity.
Qed.

(** The colour of a background star: a hue in the blue, so that red is the
    low and blue the high component. *)
Lemma setHSL_blue (h s l : R) :
  (0.55 <= h < 0.65)%R -> (0.3 <= s < 0.5)%R -> (0.2 <= l < 0.4)%R ->
  blueDominant (Color.setHSL (Fin h) (Fin s) (Fin l)).
Proof.
  intros Hh Hs Hl. unfold Color.setHSL.
  rewrite euclideanModulo_id by lra. rewrite !clamp_id by lra. cbv zeta.
  cbn [eqb]. rewrite (Reqb_false s 0) by lra.
  cbn [le]. rewrite (Rleb_true l 0.5) by lra.
  rewrite !div_Fin by lra. cbn [add sub neg mul].
  rewrite !hue2rgb_unit by lra.
  rewrite (Rltb_false (h + 1 / 3) (1 / 6)) by lra.
  rewrite (Rltb_false (h + 1 / 3) (1 / 2)) by lra.
  rewrite (Rltb_false (h + 1 / 3) (2 / 3)) by lra.
  rewrite (Rltb_false h (1 / 6)) by lra.
  rewrite (Rltb_false h (1 / 2)) by lra.
  rewrite (Rltb_true h (2 / 3)) by lra.
  rewrite (Rltb_false (h + - (1 / 3)) (1 / 6)) by lra.
  rewrite (Rltb_true (h + - (1 / 3)) (1 / 2)) by lra.
  cbn [add sub neg mul].
  eexists _, _, _. split; [reflexivity|].
  assert (Hls : (0.06 <= l * s <= 0.2)%R) by nra.
  assert (Hg : (0 <= 6 * (2 / 3 + - h) <= 1)%R) by lra.
  repeat split; nra.
Qed.

Lemma afterDraws_0 w : afterDraws 0 w = w.
Proof. destruct w. reflexivity. Qed.

(** One background star: six draws, a position in the shell between 0.85
    times the radius and the radius, a dim colour with blue on top. *)
Lemma backgroundStar_spec (radius : R) rng w
    (K : Vector3.t * Color.t -> World.t -> Prop) :
  uniform rng ->
  (0 <= radius)%R ->
  (forall p c, withinShell (0.85 * radius) radius p -> blueDominant c ->
               K (p, c) (afterDraws 6 w)) ->
  wp (Stage.backgroundStar (Fin radius)) rng w K.
Proof.
  intros Hu Hr HK. unfold Stage.backgroundStar.
  apply wp_bind, wp_random_exact; [exact Hu|]. intros a Ha _.
  apply wp_bind, wp_random_exact; [exact Hu|]. intros p Hp _.
  apply wp_bind, wp_random_exact; [exact Hu|]. intros t Ht _.
  apply wp_bind, wp_random_exact; [exact Hu|]. intros b Hb _.
  apply wp_bind, wp_random_exact; [exact Hu|]. intros h Hh _.
  apply wp_bind, wp_random_exact; [exact Hu|]. intros s Hs _.
  apply wp_ret. rewrite !afterDraws_add. cbn [Nat.add].
  cbv zeta. cbn [add sub neg mul]. rewrite acos_Fin by lra.
  unfold Math.PI. cbn [mul Math.sin Math.cos].
  apply HK.
  - eexists _, _, _. split; [reflexivity|].
    assert (Hr0 : (0 <= radius * (0.85 + a * 0.15))%R) by nra.
    match goal with
    | |- (_ <= R_sqrt.sqrt (_ * Rtrigo_def.sin ?phi * Rtrigo_def.cos ?theta * _ + _ + _) <= _)%R =>
        pose proof (sphere_norm _ phi theta Hr0) as Hn
    end.
    cbv zeta in Hn. rewrite Hn. nra.
  - apply setHSL_blue; lra.
Qed.

(** One background star, whatever the draws and the radius. *)
Lemma backgroundStar_any (bgRadius : num) rng w
    (K : Vector3.t * Color.t -> World.t -> Prop) :
  (forall p c, True -> True -> K (p, c) (afterDraws 6 w)) ->
  wp (Stage.backgroundStar bgRadius) rng w K.
Proof.
  intros HK. unfold Stage.backgroundStar.
  do 6 (apply wp_bind, wp_random). apply wp_ret.
  exact (HK _ _ I I).
Qed.

(** A loop that fills a buffer of [n] points with [d] draws each. *)
Lemma wp_fill_exact (P : Vector3.t -> Prop) (C : Color.t -> Prop) (d n : nat)
    (body : nat -> list num * list num -> M (list num * list num))
    (positions colors : list num) rng w (Q : list num * list num -> World.t -> Prop) :
  length positions = (n * 3)%nat ->
  length colors = (n * 3)%nat ->
  (forall i buffers w0 K,
      (forall p c, P p -> C c -> K (writePoint i p c buffers) (afterDraws d w0)) ->
      wp (body i buffers) rng w0 K) ->
  (forall positions' colors',
      length positions' = (n * 3)%nat -> length colors' = (n * 3)%nat ->
      everyPoint P positions' -> everyColor C colors' ->
      Q (positions', colors') (afterDraws (n * d) w)) ->
  wp (forLoop n 0 body (positions, colors)) rng w Q.
Proof.
  intros Hp Hc Hbody HQ.
  apply (wp_forLoop n 0 body (positions, colors) rng w
           (fun i buffers w' =>
              w' = afterDraws (i * d) w
              /\ length (fst buffers) = (n * 3)%nat
              /\ length (snd buffers) = (n * 3)%nat
              /\ (forall j, (j < i)%nat -> (j * 3 + 2 < n * 3)%nat ->
                            exists p, pointAt (fst buffers) j = Some p /\ P p)
              /\ (forall j, (j < i)%nat -> (j * 3 + 2 < n * 3)%nat ->
                            exists c, colorAt (snd buffers) j = Some c /\ C c))).
  - split; [symmetry; apply afterDraws_0|]. split; [exact Hp|]. split; [exact Hc|].
    split; intros j Hj; lia.
  - intros i [pos col] w0 Hi (Hw0 & Hlp & Hlc & Hpts & Hcols). cbn [fst snd] in *.
    apply Hbody. intros p c HP HC.
    destruct (writePoint_length i p c pos col) as [Hl1 Hl2].
    split; [rewrite Hw0, afterDraws_add; f_equal; lia|].
    split; [rewrite Hl1; exact Hlp|]. split; [rewrite Hl2; exact Hlc|].
    split.
    + intros j Hj Hjn. destruct (Nat.eq_dec i j) as [<-|Hne].
      * exists p. split; [apply pointAt_writePoint_eq; lia | exact HP].
      * rewrite pointAt_writePoint_ne by exact Hne. apply Hpts; lia.
    + intros j Hj Hjn. destruct (Nat.eq_dec i j) as [<-|Hne].
      * exists c. split; [apply colorAt_writePoint_eq; lia | exact HC].
      * rewrite colorAt_writePoint_ne by exact Hne. apply Hcols; lia.
  - intros [pos col] w' (Hw' & Hlp & Hlc & Hpts & Hcols). cbn [fst snd] in *.
    rewrite Hw'. cbn [Nat.add]. apply HQ; try assumption.
    + intros j Hj. rewrite Hlp in Hj. apply Hpts; lia.
    + intros j Hj. rewrite Hlc in Hj. apply Hcols; lia.
Qed.

Lemma wp_disposePoints_ref (pointsObject : option Points.t) rng w scene
    (Q : unit -> World.t -> Prop) :
  World.sceneRef w = Some scene ->
  Q tt (World.set_sceneRef (Some (without pointsObject scene))
          (World.set_disposeLog (World.disposeLog w ++ pointsEvents pointsObject) w)) ->
  wp (disposePoints pointsObject) rng w Q.
Proof.
  intros Hsc HQ. destruct w as [rc oid dlog sref cam gi om am].
  cbn [World.sceneRef] in Hsc. subst sref.
  destruct pointsObject as [p|]; cbn in HQ |- *.
  - apply wp_bind. unfold dispose at 1. apply wp_modify.
    apply wp_bind. unfold dispose at 1. apply wp_modify.
    unfold sceneRemove. apply wp_modify. cbn. rewrite <- !app_assoc. exact HQ.
  - rewrite app_nil_r in HQ. exact HQ.
Qed.

(** The effect of the spread with a scene, for any property of the single
    stars that the body of the loop establishes. *)
Lemma backgroundStarsEffect_spec (P : Vector3.t -> Prop) (C : Color.t -> Prop)
    (galaxySpread : num) (stage : Stage.t) (scene : Scene.t) rng w
    (Q : Stage.t -> World.t -> Prop) :
  World.sceneRef w = Some scene ->
  (forall w0 K, (forall p c, P p -> C c -> K (p, c) (afterDraws 6 w0)) ->
                wp (Stage.backgroundStar (galaxySpread * 5)) rng w0 K) ->
  (forall positions colors,
      Z.of_nat (length positions) = 45000%Z ->
      Z.of_nat (length colors) = 45000%Z ->
      everyPoint P positions -> everyColor C colors ->
      Q (Stage.mk
           (Some (Points.mk (World.object3DId w)
                    (BufferGeometry.mk positions colors)
                    (PointsMaterial.mk (Math.max 0.15 (0.00035 * (galaxySpread * 5)))
                       0.7 AdditiveBlending)
                    (Euler.mk 0 0 0) (Vector3.mk 1 1 1)))
           ((fun _ => {| Stage.maxDistance := galaxySpread * 4 |})
              <$> Stage.controlsRef stage)
           (match World.cameraRef w with
            | Some _ => galaxySpread * 10
            | None => Stage.cameraFar stage
            end))
        (World.set_sceneRef
           (Some (Scene.add (World.object3DId w)
                    (without (Stage.backgroundStarsRef stage) scene)))
           (World.set_object3DId (S (World.object3DId w))
              (afterDraws (Z.to_nat 90000)
                 (World.set_disposeLog
                    (World.disposeLog w ++ pointsEvents (Stage.backgroundStarsRef stage))
                    w))))) ->
  wp (Stage.backgroundStarsEffect galaxySpread stage) rng w Q.
Proof.
  intros Hsc Hbody HQ. unfold Stage.backgroundStarsEffect.
  apply wp_bind, wp_get. rewrite Hsc.
  apply wp_bind. apply (wp_disposePoints_ref _ rng w scene); [exact Hsc|].
  set (w1 := World.set_sceneRef _ _).
  apply wp_bind, (wp_Float32Array 15000); [lia | lia |].
  apply wp_bind, (wp_Float32Array 15000); [lia | lia |].
  apply wp_bind. rewrite (iterations_IZR 15000) by lia.
  apply (wp_fill_exact P C 6 (Z.to_nat 15000)).
  - apply length_replicate.
  - apply length_replicate.
  - intros i buffers w0 K HK. unfold Stage.backgroundBody.
    apply wp_bind, Hbody. intros p c HP HC. apply wp_ret. apply HK; assumption.
  - intros positions colors Hlp Hlc Hpts Hcols.
    apply wp_bind. unfold newPoints. apply wp_bind, wp_newObject3D. apply wp_ret.
    apply wp_bind. unfold sceneAdd. apply wp_modify. apply wp_ret.
    cbn [Points.id].
    replace (Z.to_nat 15000 * 6)%nat with (Z.to_nat 90000) by lia.
    specialize (HQ positions colors).
    unfold w1. destruct w as [rc oid dlog sref cam gi om am].
    cbn [World.sceneRef] in Hsc. subst sref.
    cbn in HQ |- *. apply HQ; try assumption; lia.
Qed.

(** X20: with a scene, the effect of the spread puts 15000 background stars,
    none less and none more, into the shell between 4.25 and 5 times the
    spread around the origin, each with a dim colour in which blue is the
    largest and red the smallest component; the size of the points is
    0.00175 times the spread and at least 0.15; it draws 90000 times. *)
Theorem background_stars_form_a_shell (s : R) (stage : Stage.t) (scene : Scene.t)
    (rng : Rng) (w : World.t) :
  uniform rng ->
  (0 <= s)%R ->
  World.sceneRef w = Some scene ->
  exists stage' w' backgroundStars,
    Stage.backgroundStarsEffect (Fin s) stage rng w = Normal (stage', w')
    /\ Stage.backgroundStarsRef stage' = Some backgroundStars
    /\ Z.of_nat (length (BufferGeometry.position (Points.geometry backgroundStars)))
       = (15000 * 3)%Z
    /\ Z.of_nat (length (BufferGeometry.color (Points.geometry backgroundStars)))
       = (15000 * 3)%Z
    /\ everyPoint (withinShell (4.25 * s) (5 * s))
         (BufferGeometry.position (Points.geometry backgroundStars))
    /\ everyColor blueDominant
         (BufferGeometry.color (Points.geometry backgroundStars))
    /\ PointsMaterial.size (Points.material backgroundStars)
       = Fin (Rmax 0.15 (0.00175 * s))
    /\ Z.of_nat (World.randomCalls w') = (Z.of_nat (World.randomCalls w) + 15000 * 6)%Z.
Proof.
  intros Hu Hs Hsc.
  cut (wp (Stage.backgroundStarsEffect (Fin s) stage) rng w
         (fun stage' w' =>
            exists backgroundStars,
              Stage.backgroundStarsRef stage' = Some backgroundStars
              /\ Z.of_nat (length (BufferGeometry.position (Points.geometry backgroundStars)))
                 = (15000 * 3)%Z
              /\ Z.of_nat (length (BufferGeometry.color (Points.geometry backgroundStars)))
                 = (15000 * 3)%Z
              /\ everyPoint (withinShell (4.25 * s) (5 * s))
                   (BufferGeometry.position (Points.geometry backgroundStars))
              /\ everyColor blueDominant
                   (BufferGeometry.color (Points.geometry backgroundStars))
              /\ PointsMaterial.size (Points.material backgroundStars)
                 = Fin (Rmax 0.15 (0.00175 * s))
              /\ Z.of_nat (World.randomCalls w')
                 = (Z.of_nat (World.randomCalls w) + 15000 * 6)%Z)).
  { intros Hwp. apply wp_result in Hwp.
    destruct Hwp as (stage' & w' & Hrun & bg & H). exists stage', w', bg.
    split; [exact Hrun | exact H]. }
  apply (backgroundStarsEffect_spec
           (withinShell (0.85 * (s * 5)) (s * 5)) blueDominant (Fin s) stage scene);
    [exact Hsc | |].
  - intros w0 K HK. cbn [mul]. apply backgroundStar_spec; [exact Hu | lra | exact HK].
  - intros positions colors Hlp Hlc Hpts Hcols. eexists. split; [reflexivity|].
    cbn [Points.geometry BufferGeometry.position BufferGeometry.color].
    split; [exact Hlp|]. split; [exact Hlc|]. split; [|split; [exact Hcols|split]].
    + eapply everyPoint_impl; [|exact Hpts].
      intros p (x & y & z & -> & Hn). exists x, y, z. split; [reflexivity | lra].
    + cbn [Points.material PointsMaterial.size mul]. rewrite max_Fin.
      f_equal. f_equal. lra.
    + destruct w. cbn. lia.
Qed.

Lemma background_stars_form_a_shell_witness :
  exists stage' w' backgroundStars,
    Stage.backgroundStarsEffect (Fin 150) Stage.mounted (constantDraws 0.5)
      (ThreeScene.mounted 0.03 0.03)
    = Normal (stage', w')
    /\ Stage.backgroundStarsRef stage' = Some backgroundStars
    /\ everyPoint (withinShell (4.25 * 150) (5 * 150))
         (BufferGeometry.position (Points.geometry backgroundStars)).
Proof.
  destruct (background_stars_form_a_shell 150 Stage.mounted (Scene.mk [])
              (constantDraws 0.5) (ThreeScene.mounted 0.03 0.03))
    as (stage' & w' & bg & Hrun & Hbg & _ & _ & Hpts & _).
  - intros n. unfold constantDraws. lra.
  - lra.
  - reflexivity.
  - exists stage', w', bg. split; [exact Hrun|]. split; [exact Hbg | exact Hpts].
Defined.

(** X21: with a scene and whatever the spread and the draws, the effect of the
    spread completes: it releases the geometry and the material of the
    background stars it had, once each, and takes them out of the scene; the
    new background stars get the next object id and become the last child of
    the scene; the far plane and the largest distance of the controls follow
    the spread; the galaxies and the camera ref stay as they are. *)
Theorem background_stars_are_replaced (galaxySpread : num) (stage : Stage.t)
    (scene : Scene.t) (rng : Rng) (w : World.t) :
  World.sceneRef w = Some scene ->
  exists stage' w' backgroundStars,
    Stage.backgroundStarsEffect galaxySpread stage rng w = Normal (stage', w')
    /\ Stage.backgroundStarsRef stage' = Some backgroundStars
    /\ Points.id backgroundStars = World.object3DId w
    /\ World.object3DId w' = S (World.object3DId w)
    /\ World.disposeLog w'
       = World.disposeLog w ++ pointsEvents (Stage.backgroundStarsRef stage)
    /\ World.sceneRef w'
       = Some (Scene.add (Points.id backgroundStars)
                 (without (Stage.backgroundStarsRef stage) scene))
    /\ Stage.controlsRef stage'
       = (fun _ => {| Stage.maxDistance := galaxySpread * 4 |}) <$> Stage.controlsRef stage
    /\ Stage.cameraFar stage'
       = match World.cameraRef w with
         | Some _ => galaxySpread * 10
         | None => Stage.cameraFar stage
         end
    /\ World.galaxyInstancesRef w' = World.galaxyInstancesRef w
    /\ World.cameraRef w' = World.cameraRef w.
Proof.
  intros Hsc.
  cut (wp (Stage.backgroundStarsEffect galaxySpread stage) rng w
         (fun stage' w' =>
            exists backgroundStars,
              Stage.backgroundStarsRef stage' = Some backgroundStars
              /\ Points.id backgroundStars = World.object3DId w
              /\ World.object3DId w' = S (World.object3DId w)
              /\ World.disposeLog w'
                 = World.disposeLog w ++ pointsEvents (Stage.backgroundStarsRef stage)
              /\ World.sceneRef w'
                 = Some (Scene.add (Points.id backgroundStars)
                           (without (Stage.backgroundStarsRef stage) scene))
              /\ Stage.controlsRef stage'
                 = (fun _ => {| Stage.maxDistance := galaxySpread * 4 |})
                     <$> Stage.controlsRef stage
              /\ Stage.cameraFar stage'
                 = match World.cameraRef w with
                   | Some _ => galaxySpread * 10
                   | None => Stage.cameraFar stage
                   end
              /\ World.galaxyInstancesRef w' = World.galaxyInstancesRef w
              /\ World.cameraRef w' = World.cameraRef w)).
  { intros Hwp. apply wp_result in Hwp.
    destruct Hwp as (stage' & w' & Hrun & bg & H). exists stage', w', bg.
    split; [exact Hrun | exact H]. }
  apply (backgroundStarsEffect_spec (fun _ => True) (fun _ => True) galaxySpread stage scene);
    [exact Hsc | |].
  - intros w0 K HK. apply backgroundStar_any. exact HK.
  - intros positions colors _ _ _ _. eexists. split; [reflexivity|].
    destruct w. cbn. repeat split.
Qed.

Lemma background_stars_are_replaced_witness :
  exists stage' w',
    Stage.backgroundStarsEffect NaN
      (Stage.mk (Some (examplePoints 7 1)) None 1500) (constantDraws 0.5)
      (exampleWorld [exampleInstance])
    = Normal (stage', w')
    /\ World.disposeLog w' = [] ++ [GeometryDisposed 7; MaterialDisposed 7]
    /\ World.object3DId w' = 4%nat.
Proof.
  destruct (background_stars_are_replaced NaN
              (Stage.mk (Some (examplePoints 7 1)) None 1500) (Scene.mk [])
              (constantDraws 0.5) (exampleWorld [exampleInstance]))
    as (stage' & w' & bg & Hrun & _ & _ & Hoid & Hlog & _).
  - reflexivity.
  - exists stage', w'. split; [exact Hrun|]. split; [exact Hlog | exact Hoid].
Defined.

(** The cleanup with a scene, to the world it leaves. *)
Lemma unmount_exact (stage : Stage.t) (scene : Scene.t) rng w :
  World.sceneRef w = Some scene ->
  exists w',
    Stage.unmount stage rng w = Normal (Stage.mk None None (Stage.cameraFar stage), w')
    /\ World.disposeLog w'
       = World.disposeLog w
         ++ concat (disposeEvents <$> World.galaxyInstancesRef w)
         ++ pointsEvents (Stage.backgroundStarsRef stage)
    /\ World.galaxyInstancesRef w' = []
    /\ World.sceneRef w' = None
    /\ World.cameraRef w' = None
    /\ World.randomCalls w' = World.randomCalls w
    /\ World.object3DId w' = World.object3DId w
    /\ World.galaxyOrbitSpeedMultiplierRefCurrent w'
       = World.galaxyOrbitSpeedMultiplierRefCurrent w
    /\ World.armInternalSpeedMultiplierRefCurrent w'
       = World.armInternalSpeedMultiplierRefCurrent w.
Proof.
  intros Hsc.
  destruct (disposeAll_exact (World.galaxyInstancesRef w) rng w scene Hsc)
    as (done & w1 & sc1 & Hrun1 & Hw1 & _).
  set (w2 := World.set_galaxyInstancesRef [] w1).
  assert (Hsc2 : World.sceneRef w2 = Some sc1) by (unfold w2; rewrite Hw1; reflexivity).
  assert (Hwp : wp (disposePoints (Stage.backgroundStarsRef stage);;
                    Stage.clearRefs;;
                    mret (Stage.mk None None (Stage.cameraFar stage))) rng w2
            (fun stage' w' =>
               stage' = Stage.mk None None (Stage.cameraFar stage)
               /\ World.disposeLog w'
                  = World.disposeLog w2 ++ pointsEvents (Stage.backgroundStarsRef stage)
               /\ World.galaxyInstancesRef w' = []
               /\ World.sceneRef w' = None
               /\ World.cameraRef w' = None
               /\ World.randomCalls w' = World.randomCalls w2
               /\ World.object3DId w' = World.object3DId w2
               /\ World.galaxyOrbitSpeedMultiplierRefCurrent w'
                  = World.galaxyOrbitSpeedMultiplierRefCurrent w2
               /\ World.armInternalSpeedMultiplierRefCurrent w'
                  = World.armInternalSpeedMultiplierRefCurrent w2)).
  { apply wp_bind, (wp_disposePoints_ref _ rng w2 sc1 _ Hsc2).
    apply wp_bind. unfold Stage.clearRefs. apply wp_modify. apply wp_ret.
    unfold w2. destruct w1. cbn. repeat split. }
  destruct (proj1 (wp_result _ _ _ _) Hwp)
    as (stage' & w' & Hrun2 & -> & Hlog & Hgi & Hs & Hc & Hrc & Hoid & Hom & Ham).
  exists w'. split.
  - unfold Stage.unmount. unfold mbind at 1. unfold M_bind at 1. unfold get.
    rewrite Hsc. unfold mbind at 1. unfold M_bind at 1. rewrite Hrun1.
    unfold mbind at 1. unfold M_bind at 1. unfold modify at 1. exact Hrun2.
  - rewrite Hlog, Hrc, Hoid, Hom, Ham. unfold w2. rewrite Hw1.
    destruct w. cbn. rewrite <- app_assoc. repeat split; assumption.
Qed.

(** X22: the cleanup of a component with a scene releases the geometry and the
    material of the stars and of the dust of every galaxy, galaxy after
    galaxy, and then those of the background stars, once each; it leaves no
    galaxy, no scene, no camera, no controls and no background stars, and it
    neither draws nor makes an object. *)
Theorem unmount_releases_everything (stage : Stage.t) (scene : Scene.t)
    (rng : Rng) (w : World.t) :
  World.sceneRef w = Some scene ->
  exists stage' w',
    Stage.unmount stage rng w = Normal (stage', w')
    /\ World.disposeLog w'
       = World.disposeLog w
         ++ concat (disposeEvents <$> World.galaxyInstancesRef w)
         ++ pointsEvents (Stage.backgroundStarsRef stage)
    /\ World.galaxyInstancesRef w' = []
    /\ World.sceneRef w' = None
    /\ World.cameraRef w' = None
    /\ Stage.backgroundStarsRef stage' = None
    /\ Stage.controlsRef stage' = None
    /\ World.randomCalls w' = World.randomCalls w
    /\ World.object3DId w' = World.object3DId w.
Proof.
  intros Hsc.
  destruct (unmount_exact stage scene rng w Hsc)
    as (w' & Hrun & Hlog & Hgi & Hs & Hc & Hrc & Hoid & _).
  exists (Stage.mk None None (Stage.cameraFar stage)), w'.
  repeat split; assumption.
Qed.

Lemma unmount_releases_everything_witness :
  exists stage' w',
    Stage.unmount (Stage.mk (Some (examplePoints 7 1)) None 1500) (constantDraws 0.5)
      (exampleWorld [exampleInstance])
    = Normal (stage', w')
    /\ World.disposeLog w'
       = [] ++ concat (disposeEvents <$> [exampleInstance])
         ++ [GeometryDisposed 7; MaterialDisposed 7]
    /\ World.sceneRef w' = None.
Proof.
  destruct (unmount_releases_everything
              (Stage.mk (Some (examplePoints 7 1)) None 1500) (Scene.mk [])
              (constantDraws 0.5) (exampleWorld [exampleInstance]))
    as (stage' & w' & Hrun & Hlog & _ & Hs & _).
  - reflexivity.
  - exists stage', w'. split; [exact Hrun|]. split; [exact Hlog | exact Hs].
Defined.

(** X23: a whole life of the scene: the effect of the spread, a generation of n
    galaxies, the cleanup.  The 3 * n + 1 objects made take the ids from the
    next one on: the background stars first, then for each galaxy its
    stars, its dust and its group.  At the end the geometry and the material
    of every cloud of points, those from before and those made, have been
    released once each: nothing made stays behind and nothing is released
    twice. *)
Theorem lifetime_releases_what_it_made (n : nat) (s : R) (stage : Stage.t)
    (scene : Scene.t) (rng : Rng) (w : World.t) :
  uniform rng ->
  (0 < s)%R ->
  World.sceneRef w = Some scene ->
  exists stage1 w1 w2 stage3 w3,
    Stage.backgroundStarsEffect (Fin s) stage rng w = Normal (stage1, w1)
    /\ regenerateGalaxies (Fin s) (Fin (INR n)) rng w1 = Normal (tt, w2)
    /\ Stage.unmount stage1 rng w2 = Normal (stage3, w3)
    /\ World.object3DId w3 = (World.object3DId w + 1 + 3 * n)%nat
    /\ World.disposeLog w3
       = World.disposeLog w
         ++ pointsEvents (Stage.backgroundStarsRef stage)
         ++ concat (disposeEvents <$> World.galaxyInstancesRef w)
         ++ concat ((fun i => [GeometryDisposed (World.object3DId w + 1 + 3 * i);
                               MaterialDisposed (World.object3DId w + 1 + 3 * i);
                               GeometryDisposed (World.object3DId w + 1 + 3 * i + 1);
                               MaterialDisposed (World.object3DId w + 1 + 3 * i + 1)]%nat)
                      <$> seq 0 n)
         ++ [GeometryDisposed (World.object3DId w); MaterialDisposed (World.object3DId w)].
Proof.
  intros Hu Hs Hsc.
  assert (H1 : wp (Stage.backgroundStarsEffect (Fin s) stage) rng w
            (fun stage1 w1 =>
               (exists bg, Stage.backgroundStarsRef stage1 = Some bg
                           /\ Points.id bg = World.object3DId w)
               /\ World.object3DId w1 = S (World.object3DId w)
               /\ World.disposeLog w1
                  = World.disposeLog w ++ pointsEvents (Stage.backgroundStarsRef stage)
               /\ World.galaxyInstancesRef w1 = World.galaxyInstancesRef w
               /\ exists scene1, World.sceneRef w1 = Some scene1)).
  { apply (backgroundStarsEffect_spec (fun _ => True) (fun _ => True) (Fin s) stage scene);
      [exact Hsc | |].
    - intros w0 K HK. apply backgroundStar_any. exact HK.
    - intros positions colors _ _ _ _. split; [eexists; split; reflexivity|].
      destruct w. cbn. repeat split. eexists. reflexivity. }
  destruct (proj1 (wp_result _ _ _ _) H1)
    as (stage1 & w1 & Hrun1 & (bg & Hbg & Hbgid) & Hoid1 & Hlog1 & Hgi1 & scene1 & Hsc1).
  destruct (regenerateGalaxies_exact n s rng w1 scene1 Hu Hs Hsc1)
    as (w2 & kept & Hrun2 & Hlog2 & _ & Hevs2 & Hoid2 & Hsc2 & _).
  destruct (unmount_exact stage1 _ rng w2 Hsc2)
    as (w3 & Hrun3 & Hlog3 & _ & _ & _ & _ & Hoid3 & _).
  exists stage1, w1, w2, (Stage.mk None None (Stage.cameraFar stage1)), w3.
  split; [exact Hrun1|]. split; [exact Hrun2|]. split; [exact Hrun3|]. split.
  - rewrite Hoid3, Hoid2, Hoid1. lia.
  - rewrite Hlog3, Hlog2, Hlog1, Hgi1, Hevs2, Hbg, Hoid1. cbn [pointsEvents].
    rewrite Hbgid. rewrite <- !app_assoc.
    replace (S (World.object3DId w)) with (World.object3DId w + 1)%nat by lia.
    reflexivity.
Qed.

Lemma lifetime_releases_what_it_made_witness :
  exists stage1 w1 w2 stage3 w3,
    Stage.backgroundStarsEffect (Fin 150) Stage.mounted (constantDraws 0.5)
      (ThreeScene.mounted 0.03 0.03)
    = Normal (stage1, w1)
    /\ regenerateGalaxies (Fin 150) (Fin (INR 1)) (constantDraws 0.5) w1 = Normal (tt, w2)
    /\ Stage.unmount stage1 (constantDraws 0.5) w2 = Normal (stage3, w3)
    /\ World.object3DId w3 = (0 + 1 + 3 * 1)%nat.
Proof.
  destruct (lifetime_releases_what_it_made 1 150 Stage.mounted (Scene.mk [])
              (constantDraws 0.5) (ThreeScene.mounted 0.03 0.03))
    as (stage1 & w1 & w2 & stage3 & w3 & Hrun1 & Hrun2 & Hrun3 & Hoid & _).
  - intros n. unfold constantDraws. lra.
  - lra.
  - reflexivity.
  - exists stage1, w1, w2, stage3, w3.
    split; [exact Hrun1|]. split; [exact Hrun2|]. split; [exact Hrun3 | exact Hoid].
Defined.

End BackgroundAndUnmount.
